(** * CatalogIQ -> Shopify importer: a shallow embedding of [main.py] and
    [mian.py], and the properties of its field mapper, operation poller,
    page orchestrator and offset codec.

    The repository holds two near-identical Cloud Function entry points,
    [src/main.py] (asynchronous [productSet] followed by polling) and
    [src/mian.py] (synchronous [productSet]).  Their code is embedded in the
    modules [Main] and [Mian]; the loops and calls whose text is the same in
    both files are embedded once, ahead of the modules. *)

From Stdlib Require Import ZArith List String Ascii Bool Lia Permutation.
From Stdlib Require Import SetoidList DecimalString DecimalZ DecimalPos DecimalN.
Import ListNotations.
Open Scope string_scope.
Open Scope list_scope.
Open Scope Z_scope.

(** ** Python values

    A source product is whatever [response.json()] returned: the mapper
    indexes it with [x['key']] and never checks a type, so the embedding
    keeps the dynamic typing.  JSON numbers are modelled as integers; floats
    are outside the model. *)

#[warnings="-register-all"]
Inductive pyval : Type :=
| PNone
| PBool (b : bool)
| PInt (z : Z)
| PStr (s : string)
| PList (l : list pyval)
| PDict (d : list (string * pyval)).

(** Exceptions the embedded code can raise; all of them are subclasses of
    Python's [Exception]. *)
Inductive exn : Type :=
| KeyError
| TypeError
| AttributeError
| ValueError
| NameError
| JSONDecodeError
| RequestException.

Inductive result (A : Type) : Type :=
| Ok (a : A)
| Raise (e : exn).
Arguments Ok {A} a.
Arguments Raise {A} e.

Definition bind {A B} (r : result A) (k : A -> result B) : result B :=
  match r with
  | Ok a => k a
  | Raise e => Raise e
  end.

Notation "x <- e ;; k" := (bind e (fun x => k))
  (at level 61, e at next level, right associativity).

Definition is_ok {A} (r : result A) : bool :=
  match r with Ok _ => true | Raise _ => false end.

Fixpoint mapM {A B} (f : A -> result B) (l : list A) : result (list B) :=
  match l with
  | [] => Ok []
  | a :: rest =>
      b <- f a ;;
      bs <- mapM f rest ;;
      Ok (b :: bs)
  end.

(** A dict is read through its first binding of a key. *)
Fixpoint dict_get (d : list (string * pyval)) (k : string) : option pyval :=
  match d with
  | [] => None
  | (k', v) :: rest => if String.eqb k' k then Some v else dict_get rest k
  end.

Fixpoint dict_keys (d : list (string * pyval)) (seen : list string)
  : list string :=
  match d with
  | [] => []
  | (k, _) :: rest =>
      if existsb (String.eqb k) seen then dict_keys rest seen
      else k :: dict_keys rest (k :: seen)
  end.

(** [v[k]] with a string key. *)
Definition subscript (v : pyval) (k : string) : result pyval :=
  match v with
  | PDict d =>
      match dict_get d k with
      | Some x => Ok x
      | None => Raise KeyError
      end
  | _ => Raise TypeError
  end.

(** [v.get(k, default)]. *)
Definition py_get (v : pyval) (k : string) (default : pyval) : result pyval :=
  match v with
  | PDict d =>
      match dict_get d k with
      | Some x => Ok x
      | None => Ok default
      end
  | _ => Raise AttributeError
  end.

Fixpoint chars (s : string) : list pyval :=
  match s with
  | EmptyString => []
  | String c rest => PStr (String c EmptyString) :: chars rest
  end.

(** [for x in v]: lists yield their items, dicts their keys, strings their
    characters; nothing else is iterable. *)
Definition py_iter (v : pyval) : result (list pyval) :=
  match v with
  | PList l => Ok l
  | PDict d => Ok (map PStr (dict_keys d []))
  | PStr s => Ok (chars s)
  | _ => Raise TypeError
  end.

(** [v[:n]]. *)
Definition py_slice_to (n : nat) (v : pyval) : result pyval :=
  match v with
  | PList l => Ok (PList (firstn n l))
  | PStr s => Ok (PStr (substring 0 n s))
  | _ => Raise TypeError
  end.

(** Truth value of [if v:]. *)
Definition truthy (v : pyval) : bool :=
  match v with
  | PNone => false
  | PBool b => b
  | PInt z => negb (z =? 0)
  | PStr s => negb (String.eqb s EmptyString)
  | PList l => match l with [] => false | _ => true end
  | PDict d => match d with [] => false | _ => true end
  end.

(** ** Hashable values and Python sets *)

Inductive atom : Type :=
| ANone
| ABool (b : bool)
| AInt (z : Z)
| AStr (s : string).

Definition atom_to_py (a : atom) : pyval :=
  match a with
  | ANone => PNone
  | ABool b => PBool b
  | AInt z => PInt z
  | AStr s => PStr s
  end.

(** [hash(v)]: lists and dicts are unhashable. *)
Definition as_hashable (v : pyval) : result atom :=
  match v with
  | PNone => Ok ANone
  | PBool b => Ok (ABool b)
  | PInt z => Ok (AInt z)
  | PStr s => Ok (AStr s)
  | PList _ | PDict _ => Raise TypeError
  end.

(** Python's [==] on hashable values: [bool] is a subclass of [int], so
    [True == 1] and [False == 0]. *)
Definition atom_key (a : atom) : atom :=
  match a with
  | ABool b => AInt (if b then 1 else 0)
  | _ => a
  end.

Definition atom_eqb (a b : atom) : bool :=
  match atom_key a, atom_key b with
  | ANone, ANone => true
  | AInt x, AInt y => x =? y
  | AStr x, AStr y => String.eqb x y
  | _, _ => false
  end.

Definition atom_eq (a b : atom) : Prop := atom_eqb a b = true.

(** [v == a] for an arbitrary value and a hashable one. *)
Definition py_eq_atom (v : pyval) (a : atom) : bool :=
  match as_hashable v with
  | Ok h => atom_eqb h a
  | Raise _ => false
  end.

(** A set is kept as the list of its members in insertion order; adding a
    value equal to a member keeps the member. *)
Definition pyset := list atom.

Definition set_mem (a : atom) (s : pyset) : bool := existsb (atom_eqb a) s.

Definition set_add (a : atom) (s : pyset) : pyset :=
  if set_mem a s then s else s ++ [a].

Definition set_of_list (l : list atom) : pyset :=
  fold_left (fun s a => set_add a s) l [].

(** ** The Shopify payload *)

Record option_value := {
  optionName : atom;
  ov_name : pyval
}.

Record shopify_variant := {
  sku : pyval;
  optionValues : list option_value
}.

(** An entry [x] of [po_values] stands for the dict [{"name": x}]. *)
Record product_option := {
  po_name : atom;
  po_values : list atom
}.

Record metafield := {
  namespace : pyval;
  description : pyval;
  key : pyval;
  mf_value : pyval;
  mf_type : string
}.

Record shopify_product := {
  title : pyval;
  vendor : string;
  descriptionHtml : pyval;
  productOptions : list product_option;
  variants : list shopify_variant;
  metafields : list metafield
}.

(** ** The loops of [map_catalogiq_to_shopify] *)

Definition variant_attributes (variant : pyval) : result (list pyval) :=
  av <- subscript variant "attributes" ;;
  py_iter av.

Definition product_variants (ciq_product : pyval) : result (list pyval) :=
  vv <- subscript ciq_product "variants" ;;
  py_iter vv.

(** [option_names.add(attribute['name'])] for every attribute. *)
Fixpoint add_attribute_names (attrs : list pyval) (option_names : pyset)
  : result pyset :=
  match attrs with
  | [] => Ok option_names
  | attribute :: rest =>
      n <- subscript attribute "name" ;;
      h <- as_hashable n ;;
      add_attribute_names rest (set_add h option_names)
  end.

Fixpoint collect_option_names (vs : list pyval) (option_names : pyset)
  : result pyset :=
  match vs with
  | [] => Ok option_names
  | variant :: rest =>
      attrs <- variant_attributes variant ;;
      s <- add_attribute_names attrs option_names ;;
      collect_option_names rest s
  end.

(** [next((attr['value'] for attr in attrs if attr['name'] == option_name),
    None)]. *)
Fixpoint first_value (attrs : list pyval) (option_name : atom)
  : result pyval :=
  match attrs with
  | [] => Ok PNone
  | attr :: rest =>
      n <- subscript attr "name" ;;
      if py_eq_atom n option_name then subscript attr "value"
      else first_value rest option_name
  end.

Fixpoint variant_option_values (variant : pyval) (names : list atom)
  : result (list option_value) :=
  match names with
  | [] => Ok []
  | option_name :: rest =>
      attrs <- variant_attributes variant ;;
      attribute_value <- first_value attrs option_name ;;
      tl <- variant_option_values variant rest ;;
      Ok (if truthy attribute_value
          then {| optionName := option_name; ov_name := attribute_value |} :: tl
          else tl)
  end.

Definition map_variant (names : list atom) (variant : pyval)
  : result shopify_variant :=
  option_values <- variant_option_values variant names ;;
  code <- subscript variant "default_code" ;;
  Ok {| sku := code; optionValues := option_values |}.

(** The raw [values] list of one axis, before it is made unique. *)
Fixpoint attribute_values (attrs : list pyval) (option_name : atom)
  : result (list pyval) :=
  match attrs with
  | [] => Ok []
  | attribute :: rest =>
      n <- subscript attribute "name" ;;
      if py_eq_atom n option_name
      then v <- subscript attribute "value" ;;
           tl <- attribute_values rest option_name ;;
           Ok (v :: tl)
      else attribute_values rest option_name
  end.

Fixpoint axis_values (vs : list pyval) (option_name : atom)
  : result (list pyval) :=
  match vs with
  | [] => Ok []
  | variant :: rest =>
      attrs <- variant_attributes variant ;;
      here <- attribute_values attrs option_name ;;
      tl <- axis_values rest option_name ;;
      Ok (here ++ tl)
  end.

Definition build_metafield (ciq_product attribute : pyval)
  : result (list metafield) :=
  cond <- subscript ciq_product "attributes" ;;
  if truthy cond
  then c <- subscript attribute "category" ;;
       d <- subscript attribute "description" ;;
       n <- subscript attribute "name" ;;
       v <- subscript attribute "value" ;;
       Ok [{| namespace := c; description := d; key := n; mf_value := v;
              mf_type := "string" |}]
  else Ok [].

Definition build_metafields (ciq_product : pyval) : result (list metafield) :=
  pa <- subscript ciq_product "attributes" ;;
  attrs <- py_iter pa ;;
  ms <- mapM (build_metafield ciq_product) attrs ;;
  Ok (concat ms).

Section MapperLoops.

(** The order in which a [for] loop visits a set is fixed by the hashes of
    its members, which the program does not control: it is a parameter,
    and all that is known of it is that every member is visited once. *)
Variable set_order : pyset -> list atom.

(** [[dict(t) for t in {tuple(d.items()) for d in values}]]. *)
Definition unique_values (values : list pyval) : result (list atom) :=
  hs <- mapM as_hashable values ;;
  Ok (set_order (set_of_list hs)).

Definition build_option (vs : list pyval) (option_name : atom)
  : result product_option :=
  values <- axis_values vs option_name ;;
  uniq <- unique_values values ;;
  Ok {| po_name := option_name; po_values := uniq |}.

Definition build_product_options (option_names : pyset) (vs : list pyval)
  : result (list product_option) :=
  mapM (build_option vs) (set_order option_names).

End MapperLoops.


(** ** Text, bytes and the offset message

    A Python [str] is modelled by a [string] whose characters are the code
    points below 256; [bytes] are a [string] as well.  Text with code
    points from U+0100 on and JSON floats are outside the model (decoding
    them raises here); the offset message is made of ASCII only. *)

Definition code (c : ascii) : Z := Z.of_N (N_of_ascii c).

Definition chr (z : Z) : ascii := ascii_of_N (Z.to_N z).

Fixpoint all_chars (p : ascii -> bool) (s : string) : bool :=
  match s with
  | EmptyString => true
  | String c rest => p c && all_chars p rest
  end.

(** [str(n)] and [int(s)] on integers.  CPython converts between [int]
    and [str] up to [sys.int_info.default_max_str_digits] digits, the sign
    not counted; beyond that both directions raise [ValueError]. *)
Definition max_str_digits : Z := 4300.

(** The decimal text of [n]. *)
Definition decimal (n : Z) : string :=
  NilZero.string_of_int (Z.to_int n).

(** The number of decimal digits of [n]. *)
Definition digit_count (n : Z) : Z :=
  Z.of_nat (String.length (decimal (Z.abs n))).

Definition py_str_of_int (n : Z) : result string :=
  if digit_count n <=? max_str_digits then Ok (decimal n)
  else Raise ValueError.

(** The blanks [int] strips from both ends of its argument: the ASCII
    white space and, of the code points from 128 on, U+0085 and U+00A0. *)
Definition is_space (c : ascii) : bool :=
  let n := code c in
  ((9 <=? n) && (n <=? 13)) || (n =? 32) || (n =? 133) || (n =? 160).

Fixpoint lstrip (s : string) : string :=
  match s with
  | String c rest => if is_space c then lstrip rest else s
  | EmptyString => EmptyString
  end.

Fixpoint rstrip (s : string) : string :=
  match s with
  | String c rest =>
      match rstrip rest with
      | EmptyString => if is_space c then EmptyString else String c EmptyString
      | r => String c r
      end
  | EmptyString => EmptyString
  end.

Definition is_digit (c : ascii) : bool :=
  (48 <=? code c) && (code c <=? 57).

(** Digits with single underscores between them, the underscores removed. *)
Fixpoint plain_digits (s : string) (after_digit : bool) : option string :=
  match s with
  | EmptyString => if after_digit then Some EmptyString else None
  | String c rest =>
      if is_digit c then option_map (String c) (plain_digits rest true)
      else if Ascii.eqb c "_" && after_digit then plain_digits rest false
      else None
  end.

Definition py_int_of_str (s : string) : result Z :=
  let s := rstrip (lstrip s) in
  let '(negative, body) :=
    match s with
    | String "-" rest => (true, rest)
    | String "+" rest => (false, rest)
    | _ => (false, s)
    end in
  match plain_digits body false with
  | Some digits =>
      if max_str_digits <? Z.of_nat (String.length digits)
      then Raise ValueError
      else
        match NilZero.uint_of_string digits with
        | Some d => Ok (if negative then - Z.of_uint d else Z.of_uint d)
        | None => Raise ValueError
        end
  | None => Raise ValueError
  end.

(** [int(v)]. *)
Definition py_int (v : pyval) : result Z :=
  match v with
  | PInt z => Ok z
  | PBool b => Ok (if b then 1 else 0)
  | PStr s => py_int_of_str s
  | _ => Raise TypeError
  end.

(** [s.encode('utf-8')] and [b.decode('utf-8')]. *)
Fixpoint utf8_encode (s : string) : string :=
  match s with
  | EmptyString => EmptyString
  | String c rest =>
      if code c <? 128 then String c (utf8_encode rest)
      else String (chr (192 + code c / 64))
             (String (chr (128 + code c mod 64)) (utf8_encode rest))
  end.

Fixpoint utf8_decode (b : string) : result string :=
  match b with
  | EmptyString => Ok EmptyString
  | String c rest =>
      if code c <? 128 then
        tl <- utf8_decode rest ;; Ok (String c tl)
      else if (194 <=? code c) && (code c <=? 195) then
        match rest with
        | String c2 rest' =>
            if (128 <=? code c2) && (code c2 <=? 191) then
              tl <- utf8_decode rest' ;;
              Ok (String (chr ((code c - 192) * 64 + (code c2 - 128))) tl)
            else Raise ValueError
        | EmptyString => Raise ValueError
        end
      else Raise ValueError
  end.

(** [json.dumps] with its defaults ([ensure_ascii], separators [", "] and
    [": "]). *)
Definition hex_digit (n : Z) : ascii :=
  if n <? 10 then chr (48 + n) else chr (87 + n).

(** The double quote, character 34. *)
Definition dquote : ascii :=
  Ascii false true false false false true false false.

Definition json_escape (c : ascii) : string :=
  if Ascii.eqb c dquote then String "\" (String dquote EmptyString)
  else if Ascii.eqb c "\" then "\\"
  else if code c =? 10 then "\n"
  else if code c =? 13 then "\r"
  else if code c =? 9 then "\t"
  else if code c =? 8 then "\b"
  else if code c =? 12 then "\f"
  else if (32 <=? code c) && (code c <=? 126) then String c EmptyString
  else String "\" (String "u" (String "0" (String "0"
         (String (hex_digit (code c / 16))
            (String (hex_digit (code c mod 16)) EmptyString))))).

Fixpoint json_quote_body (s : string) : string :=
  match s with
  | EmptyString => EmptyString
  | String c rest => (json_escape c ++ json_quote_body rest)%string
  end.

Definition json_quote (s : string) : string :=
  String dquote (json_quote_body s ++ String dquote EmptyString)%string.

Fixpoint json_dumps (v : pyval) : result string :=
  match v with
  | PNone => Ok "null"
  | PBool true => Ok "true"
  | PBool false => Ok "false"
  | PInt z => py_str_of_int z
  | PStr s => Ok (json_quote s)
  | PList l =>
      let fix items_text (l : list pyval) : result string :=
        match l with
        | [] => Ok EmptyString
        | [x] => json_dumps x
        | x :: rest =>
            item <- json_dumps x ;;
            others <- items_text rest ;;
            Ok (item ++ ", " ++ others)%string
        end in
      body <- items_text l ;;
      Ok ("[" ++ body ++ "]")%string
  | PDict d =>
      let fix members_text (d : list (string * pyval)) (seen : list string)
          (first : bool) : result string :=
        match d with
        | [] => Ok EmptyString
        | (k, x) :: rest =>
            if existsb (String.eqb k) seen then members_text rest seen first
            else
              item <- json_dumps x ;;
              others <- members_text rest (k :: seen) false ;;
              Ok ((if first then EmptyString else ", ") ++
                  json_quote k ++ ": " ++ item ++ others)%string
        end in
      body <- members_text d [] true ;;
      Ok ("{" ++ body ++ "}")%string
  end.

(** A character that [json.dumps] writes as it is and that the scanner of
    [json.loads] reads as it is. *)
Definition plain_char (c : ascii) : bool :=
  (32 <=? code c) && (code c <=? 126) &&
  negb (Ascii.eqb c dquote) && negb (Ascii.eqb c "\").

(** The first two lines of [publish_offset]: the bytes it hands to
    Pub/Sub. *)
Definition offset_bytes (offset : Z) : result string :=
  text <- py_str_of_int offset ;;
  message_json <- json_dumps (PDict [("offset", PStr text)]) ;;
  Ok (utf8_encode message_json).

(** [json.loads]. *)
Definition is_ws (c : ascii) : bool :=
  (code c =? 32) || (code c =? 9) || (code c =? 10) || (code c =? 13).

Fixpoint skip_ws (s : string) : string :=
  match s with
  | String c rest => if is_ws c then skip_ws rest else s
  | EmptyString => EmptyString
  end.

Definition hex_value (c : ascii) : option Z :=
  let n := code c in
  if (48 <=? n) && (n <=? 57) then Some (n - 48)
  else if (97 <=? n) && (n <=? 102) then Some (n - 87)
  else if (65 <=? n) && (n <=? 70) then Some (n - 55)
  else None.

Definition unescape (c : ascii) : option ascii :=
  if Ascii.eqb c dquote then Some dquote
  else if Ascii.eqb c "\" then Some "\"%char
  else if Ascii.eqb c "/" then Some "/"%char
  else if Ascii.eqb c "b" then Some (chr 8)
  else if Ascii.eqb c "f" then Some (chr 12)
  else if Ascii.eqb c "n" then Some (chr 10)
  else if Ascii.eqb c "r" then Some (chr 13)
  else if Ascii.eqb c "t" then Some (chr 9)
  else None.

(** The body of a string literal, after its opening quote, and the text
    that follows the closing quote. *)
Fixpoint scan_string (s : string) : result (string * string) :=
  match s with
  | EmptyString => Raise JSONDecodeError
  | String c rest =>
      if Ascii.eqb c dquote then Ok (EmptyString, rest)
      else if Ascii.eqb c "\" then
        match rest with
        | String "u" (String h1 (String h2 (String h3 (String h4 rest')))) =>
            match hex_value h1, hex_value h2, hex_value h3, hex_value h4 with
            | Some a, Some b, Some c', Some d =>
                if (a =? 0) && (b =? 0) then
                  r <- scan_string rest' ;;
                  Ok (String (chr (c' * 16 + d)) (fst r), snd r)
                else Raise ValueError
            | _, _, _, _ => Raise JSONDecodeError
            end
        | String e rest' =>
            match unescape e with
            | Some ch =>
                r <- scan_string rest' ;;
                Ok (String ch (fst r), snd r)
            | None => Raise JSONDecodeError
            end
        | EmptyString => Raise JSONDecodeError
        end
      else if code c <? 32 then Raise JSONDecodeError
      else
        r <- scan_string rest ;;
        Ok (String c (fst r), snd r)
  end.

Fixpoint span_digits (s : string) : string * string :=
  match s with
  | String c rest =>
      if is_digit c
      then let r := span_digits rest in (String c (fst r), snd r)
      else (EmptyString, s)
  | EmptyString => (EmptyString, EmptyString)
  end.

(** The integer part of a number literal: [0] or a digit run that does
    not start with [0], converted by [int]. *)
Definition scan_int (s : string) : result (Z * string) :=
  let '(negative, body) :=
    match s with
    | String "-" rest => (true, rest)
    | _ => (false, s)
    end in
  let '(digits, rest) :=
    match body with
    | String "0" rest => ("0", rest)
    | _ => span_digits body
    end in
  match NilZero.uint_of_string digits with
  | Some d =>
      match rest with
      | String "." _ | String "e" _ | String "E" _ => Raise ValueError
      | _ =>
          if max_str_digits <? Z.of_nat (String.length digits)
          then Raise ValueError
          else Ok (if negative then - Z.of_uint d else Z.of_uint d, rest)
      end
  | None => Raise JSONDecodeError
  end.

(** [d[k] = v]. *)
Fixpoint dict_set (d : list (string * pyval)) (k : string) (v : pyval)
  : list (string * pyval) :=
  match d with
  | [] => [(k, v)]
  | (k', v') :: rest =>
      if String.eqb k' k then (k, v) :: rest else (k', v') :: dict_set rest k v
  end.

Definition strip_prefix (p s : string) : option string :=
  if String.prefix p s
  then Some (substring (String.length p) (String.length s - String.length p) s)
  else None.

Fixpoint parse_value (fuel : nat) (s : string) {struct fuel}
  : result (pyval * string) :=
  match fuel with
  | O => Raise JSONDecodeError
  | S fuel' =>
      match s with
      | EmptyString => Raise JSONDecodeError
      | String c rest =>
          if Ascii.eqb c dquote then
            r <- scan_string rest ;; Ok (PStr (fst r), snd r)
          else if Ascii.eqb c "[" then
            match skip_ws rest with
            | String "]" rest' => Ok (PList [], rest')
            | rest' =>
                r <- parse_elements fuel' rest' ;; Ok (PList (fst r), snd r)
            end
          else if Ascii.eqb c "{" then
            match skip_ws rest with
            | String "}" rest' => Ok (PDict [], rest')
            | rest' =>
                r <- parse_members fuel' rest' [] ;; Ok (PDict (fst r), snd r)
            end
          else
            match strip_prefix "null" s, strip_prefix "true" s,
                  strip_prefix "false" s with
            | Some rest', _, _ => Ok (PNone, rest')
            | _, Some rest', _ => Ok (PBool true, rest')
            | _, _, Some rest' => Ok (PBool false, rest')
            | _, _, _ => r <- scan_int s ;; Ok (PInt (fst r), snd r)
            end
      end
  end

with parse_elements (fuel : nat) (s : string) {struct fuel}
  : result (list pyval * string) :=
  match fuel with
  | O => Raise JSONDecodeError
  | S fuel' =>
      v <- parse_value fuel' s ;;
      match skip_ws (snd v) with
      | String "," rest =>
          r <- parse_elements fuel' (skip_ws rest) ;;
          Ok (fst v :: fst r, snd r)
      | String "]" rest => Ok ([fst v], rest)
      | _ => Raise JSONDecodeError
      end
  end

with parse_members (fuel : nat) (s : string) (acc : list (string * pyval))
  {struct fuel} : result (list (string * pyval) * string) :=
  match fuel with
  | O => Raise JSONDecodeError
  | S fuel' =>
      match s with
      | String c rest =>
          if Ascii.eqb c dquote then
            k <- scan_string rest ;;
            match skip_ws (snd k) with
            | String ":" rest1 =>
                v <- parse_value fuel' (skip_ws rest1) ;;
                let acc' := dict_set acc (fst k) (fst v) in
                match skip_ws (snd v) with
                | String "," rest2 => parse_members fuel' (skip_ws rest2) acc'
                | String "}" rest2 => Ok (acc', rest2)
                | _ => Raise JSONDecodeError
                end
            | _ => Raise JSONDecodeError
            end
          else Raise JSONDecodeError
      | EmptyString => Raise JSONDecodeError
      end
  end.

Definition json_loads (s : string) : result pyval :=
  r <- parse_value (S (S (2 * String.length s))) (skip_ws s) ;;
  match skip_ws (snd r) with
  | EmptyString => Ok (fst r)
  | _ => Raise JSONDecodeError
  end.

(** Base64: the encoding Pub/Sub applies to the message data, and
    [base64.b64decode] with its default (non-strict) scan. *)
Definition b64_char (n : Z) : ascii :=
  if n <? 26 then chr (65 + n)
  else if n <? 52 then chr (71 + n)
  else if n <? 62 then chr (n - 4)
  else if n =? 62 then "+"%char
  else "/"%char.

Definition b64_index (c : ascii) : option Z :=
  let n := code c in
  if (65 <=? n) && (n <=? 90) then Some (n - 65)
  else if (97 <=? n) && (n <=? 122) then Some (n - 71)
  else if (48 <=? n) && (n <=? 57) then Some (n + 4)
  else if n =? 43 then Some 62
  else if n =? 47 then Some 63
  else None.

Fixpoint b64encode (b : string) : string :=
  match b with
  | EmptyString => EmptyString
  | String x EmptyString =>
      String (b64_char (code x / 4))
        (String (b64_char (code x mod 4 * 16)) "==")
  | String x (String y EmptyString) =>
      String (b64_char (code x / 4))
        (String (b64_char (code x mod 4 * 16 + code y / 16))
           (String (b64_char (code y mod 16 * 4)) "="))
  | String x (String y (String z rest)) =>
      String (b64_char (code x / 4))
        (String (b64_char (code x mod 4 * 16 + code y / 16))
           (String (b64_char (code y mod 16 * 4 + code z / 64))
              (String (b64_char (code z mod 64)) (b64encode rest))))
  end.

(** [binascii.a2b_base64]: characters outside the alphabet are skipped,
    a complete padding ends the scan, and an incomplete last group is an
    error. *)
Fixpoint a2b_base64 (s : string) (quad_pos : nat) (leftchar : Z) (pads : Z)
  : result string :=
  match s with
  | EmptyString =>
      match quad_pos with
      | O => Ok EmptyString
      | _ => Raise ValueError
      end
  | String c rest =>
      if Ascii.eqb c "=" then
        if (2 <=? quad_pos)%nat then
          if 4 <=? Z.of_nat quad_pos + (pads + 1) then Ok EmptyString
          else a2b_base64 rest quad_pos leftchar (pads + 1)
        else a2b_base64 rest quad_pos leftchar pads
      else
        match b64_index c with
        | None => a2b_base64 rest quad_pos leftchar pads
        | Some v =>
            match quad_pos with
            | O => a2b_base64 rest 1 v 0
            | 1%nat =>
                tl <- a2b_base64 rest 2 (v mod 16) 0 ;;
                Ok (String (chr (leftchar * 4 + v / 16)) tl)
            | 2%nat =>
                tl <- a2b_base64 rest 3 (v mod 4) 0 ;;
                Ok (String (chr (leftchar * 16 + v / 4)) tl)
            | _ =>
                tl <- a2b_base64 rest 0 0 0 ;;
                Ok (String (chr (leftchar * 64 + v)) tl)
            end
        end
  end.

Definition is_ascii (s : string) : bool :=
  all_chars (fun c => code c <? 128) s.

(** [base64.b64decode(v)] for the value found in the event. *)
Definition b64decode (v : pyval) : result string :=
  match v with
  | PStr s => if is_ascii s then a2b_base64 s 0 0 0 else Raise ValueError
  | _ => Raise TypeError
  end.

(** The Pub/Sub event that carries a published message: its data is the
    Base64 text of the message bytes. *)
Definition pubsub_event (message_bytes : string) : pyval :=
  PDict [("message", PDict [("data", PStr (b64encode message_bytes))])].

(** The first three lines of [process_product]: the offset an event
    carries. *)
Definition event_offset (cloud_event_data : pyval) : result Z :=
  message <- subscript cloud_event_data "message" ;;
  encoded <- subscript message "data" ;;
  raw <- b64decode encoded ;;
  text <- utf8_decode raw ;;
  data <- json_loads text ;;
  o <- subscript data "offset" ;;
  py_int o.

(** ** The outside world

    Every call that leaves the function is an event of a trace (newest
    first).  What the network answers and whether SendGrid accepts a mail
    is decided by a [world], which sees the trace so far; credentials, URLs
    and headers are left out of the requests. *)

Inductive request : Type :=
| GetProducts (limit offset : Z)
| ProductSet (synchronous : bool) (input : shopify_product)
| ProductOperation (operation_id : pyval)
| ProductCreateMedia (alt : string) (originalSource productId : pyval).

(** [json_body] is what [response.json()] returns; [None] when it
    raises. *)
Record response := {
  status_code : Z;
  json_body : option pyval
}.

Inductive reply : Type :=
| Responds (r : response)
| Unreachable.

Inductive log_line : Type :=
| FetchError (status : Z)
| ProductToBeSynced
| ShopifyResponse
| ImageError
| ImagePostFailed
| ImageException (e : exn)
| RecordError (e : exn)
| EmailSent
| EmailError.

Inductive event : Type :=
| Requested (rq : request) (rp : reply)
| Slept (seconds : Z)
| Published (message : string)
| Mailed (delivered : bool)
| Printed (line : log_line).

Definition trace := list event.

Record world := {
  net : trace -> request -> reply;
  sendgrid : trace -> bool
}.

(** A call returns, raises, or is still inside the polling loop when the
    fuel given to that loop is used up. *)
Inductive outcome (A : Type) : Type :=
| Returned (a : A) (t : trace)
| Raised (e : exn) (t : trace)
| Pending (t : trace).
Arguments Returned {A} a t.
Arguments Raised {A} e t.
Arguments Pending {A} t.

Definition io (A : Type) : Type := trace -> outcome A.

Definition ret {A} (a : A) : io A := fun t => Returned a t.

Definition io_bind {A B} (m : io A) (k : A -> io B) : io B :=
  fun t =>
    match m t with
    | Returned a t' => k a t'
    | Raised e t' => Raised e t'
    | Pending t' => Pending t'
    end.

Notation "x <~ e ;; k" := (io_bind e (fun x => k))
  (at level 61, e at next level, right associativity).

Definition lift {A} (r : result A) : io A :=
  fun t =>
    match r with
    | Ok a => Returned a t
    | Raise e => Raised e t
    end.

Definition emit (e : event) : io unit := fun t => Returned tt (e :: t).

(** [try: m  except Exception as e: handler e]. *)
Definition try_except {A} (m : io A) (handler : exn -> io A) : io A :=
  fun t =>
    match m t with
    | Raised e t' => handler e t'
    | o => o
    end.

(** [requests.get] and [requests.post]. *)
Definition send (w : world) (rq : request) : io response :=
  fun t =>
    match net w t rq with
    | Responds r => Returned r (Requested rq (Responds r) :: t)
    | Unreachable => Raised RequestException (Requested rq Unreachable :: t)
    end.

Definition json (r : response) : io pyval :=
  lift (match json_body r with
        | Some v => Ok v
        | None => Raise JSONDecodeError
        end).

Fixpoint for_each {A} (l : list A) (body : A -> io unit) : io unit :=
  match l with
  | [] => ret tt
  | a :: rest => _ <~ body a ;; for_each rest body
  end.

(** [v[k1][k2]...]. *)
Fixpoint path (v : pyval) (ks : list string) : result pyval :=
  match ks with
  | [] => Ok v
  | k :: rest => x <- subscript v k ;; path x rest
  end.

Fixpoint is_substring (p s : string) : bool :=
  String.prefix p s ||
  match s with
  | EmptyString => false
  | String _ rest => is_substring p rest
  end.

(** [k in v] for a string [k]. *)
Definition py_contains (v : pyval) (k : string) : result bool :=
  match v with
  | PDict d => Ok (match dict_get d k with Some _ => true | None => false end)
  | PList l => Ok (existsb (fun x => py_eq_atom x (AStr k)) l)
  | PStr s => Ok (is_substring k s)
  | _ => Raise TypeError
  end.

(** The media calls, whose text is the same in both files. *)
Definition attach_image (w : world) (product_id img : pyval) : io unit :=
  url <~ lift (subscript img "url") ;;
  image_response <~ send w (ProductCreateMedia "Image" url product_id) ;;
  response_data <~ json image_response ;;
  has_errors <~ lift (py_contains response_data "errors") ;;
  if has_errors then
    _ <~ lift (subscript response_data "errors") ;;
    emit (Printed ImageError)
  else if negb (status_code image_response =? 200) then
    emit (Printed ImagePostFailed)
  else ret tt.

Definition attach_images (w : world) (ciq_product product_id : pyval)
  : io unit :=
  main_image <~ lift (subscript ciq_product "main_image") ;;
  _ <~ (if truthy main_image
        then _ <~ send w (ProductCreateMedia "Main Image" main_image
                            product_id) ;;
             ret tt
        else ret tt) ;;
  images <~ lift (subscript ciq_product "images") ;;
  if truthy images
  then imgs <~ lift (py_iter images) ;;
       for_each imgs (attach_image w product_id)
  else ret tt.

(** [send_completion_email]: the mail is handed to SendGrid inside a
    [try], so the call always returns. *)
Definition send_completion_email (w : world) : io unit :=
  fun t =>
    let delivered := sendgrid w t in
    Returned tt
      (Printed (if delivered then EmailSent else EmailError)
       :: Mailed delivered :: t).

Definition publish_offset (offset : Z) : io unit :=
  message_bytes <~ lift (offset_bytes offset) ;;
  emit (Published message_bytes).

(** ** [src/main.py] *)

Module Main.

Definition description_html (ciq_product : pyval) : result pyval :=
  d <- py_get ciq_product "description_sale" PNone ;;
  if negb (truthy d) then Ok (PStr EmptyString)
  else py_get ciq_product "description_sale" (PStr EmptyString).

Definition map_catalogiq_to_shopify (set_order : pyset -> list atom)
    (ciq_product : pyval) : result shopify_product :=
  vs <- product_variants ciq_product ;;
  option_names <- collect_option_names vs [] ;;
  vs2 <- product_variants ciq_product ;;
  shopify_variants <- mapM (map_variant (set_order option_names)) vs2 ;;
  product_options <- build_product_options set_order option_names vs ;;
  name <- subscript ciq_product "name" ;;
  descr <- description_html ciq_product ;;
  ms <- build_metafields ciq_product ;;
  Ok {| title := name;
        vendor := "Vendor Name";
        descriptionHtml := descr;
        productOptions := product_options;
        variants := shopify_variants;
        metafields := ms |}.

(** Poll the [productSetOperation] until it is complete.  [fuel] bounds
    the number of status queries the model follows. *)
Fixpoint check_operation_status (w : world) (fuel : nat)
    (operation_id : pyval) : io (pyval * pyval * pyval) :=
  match fuel with
  | O => fun t => Pending t
  | S fuel' =>
      response <~ send w (ProductOperation operation_id) ;;
      status_data <~ json response ;;
      status <~ lift (path status_data
                        ["data"; "productOperation"; "status"]) ;;
      if py_eq_atom status (AStr "COMPLETE") then
        product <~ lift (path status_data
                           ["data"; "productOperation"; "product"]) ;;
        product_id <~ lift (match product with
                            | PNone => Ok PNone
                            | _ => py_get product "id" PNone
                            end) ;;
        user_errors <~ lift (path status_data
                               ["data"; "productOperation"; "userErrors"]) ;;
        ret (status, product_id, user_errors)
      else
        _ <~ emit (Slept 2) ;;
        check_operation_status w fuel' operation_id
  end.

Definition sync_products_to_shopify (w : world)
    (set_order : pyset -> list atom) (fuel : nat) (ciq_product : pyval)
  : io pyval :=
  mapped_product <~ lift (map_catalogiq_to_shopify set_order ciq_product) ;;
  response <~ send w (ProductSet false mapped_product) ;;
  new_prod_response_json <~ json response ;;
  operation_id <~ lift (path new_prod_response_json
                          ["data"; "productSet"; "productSetOperation";
                           "id"]) ;;
  polled <~ check_operation_status w fuel operation_id ;;
  let product_id := snd (fst polled) in
  _ <~ try_except
         (if truthy product_id
          then attach_images w ciq_product product_id
          else ret tt)
         (fun e => emit (Printed (ImageException e))) ;;
  json response.

Definition sync_record (w : world) (set_order : pyset -> list atom)
    (fuel : nat) (product : pyval) : io unit :=
  try_except
    (_ <~ sync_products_to_shopify w set_order fuel product ;; ret tt)
    (fun e => emit (Printed (RecordError e))).

(** [offset] is written in decimal into the URL of the fetch.  It stands
    for an integer of at most 4300 digits, as every offset is that
    [process_product] passes on from [int]: writing it does not fail, and
    the request is kept as [GetProducts limit offset]. *)
Definition sync_products (w : world) (set_order : pyset -> list atom)
    (fuel : nat) (offset : Z) : io pyval :=
  let limit := 1 in
  response_catalogiq <~ send w (GetProducts limit offset) ;;
  if negb (status_code response_catalogiq =? 200) then
    _ <~ emit (Printed (FetchError (status_code response_catalogiq))) ;;
    ret PNone
  else
    product_data <~ json response_catalogiq ;;
    products <~ lift (subscript product_data "results") ;;
    if negb (truthy products) then
      _ <~ send_completion_email w ;;
      ret (PStr "Sync Complete!")
    else
      page <~ lift (py_iter products) ;;
      _ <~ for_each page (sync_record w set_order fuel) ;;
      _ <~ publish_offset (offset + 1) ;;
      ret (PStr "Product Complete!").

Definition process_product (w : world) (set_order : pyset -> list atom)
    (fuel : nat) (cloud_event_data : pyval) : io unit :=
  offset <~ lift (event_offset cloud_event_data) ;;
  _ <~ sync_products w set_order fuel offset ;;
  ret tt.

End Main.


(** ** [src/mian.py] *)

Module Mian.

Definition description_html (ciq_product : pyval) : result pyval :=
  py_get ciq_product "description_sale" (PStr EmptyString).

Definition map_catalogiq_to_shopify (set_order : pyset -> list atom)
    (ciq_product : pyval) : result shopify_product :=
  vs <- product_variants ciq_product ;;
  option_names <- collect_option_names vs [] ;;
  vv <- subscript ciq_product "variants" ;;
  sliced <- py_slice_to 99 vv ;;
  vs99 <- py_iter sliced ;;
  shopify_variants <- mapM (map_variant (set_order option_names)) vs99 ;;
  product_options <- build_product_options set_order option_names vs ;;
  name <- subscript ciq_product "name" ;;
  descr <- description_html ciq_product ;;
  ms <- build_metafields ciq_product ;;
  Ok {| title := name;
        vendor := "Vendor Name";
        descriptionHtml := descr;
        productOptions := product_options;
        variants := shopify_variants;
        metafields := ms |}.

Definition sync_products_to_shopify (w : world)
    (set_order : pyset -> list atom) (ciq_product : pyval) : io pyval :=
  mapped_product <~ lift (map_catalogiq_to_shopify set_order ciq_product) ;;
  _ <~ emit (Printed ProductToBeSynced) ;;
  response <~ send w (ProductSet true mapped_product) ;;
  prod_response_json <~ json response ;;
  _ <~ try_except
         (product_id <~ lift (path prod_response_json
                                ["data"; "productSet"; "product"; "id"]) ;;
          attach_images w ciq_product product_id)
         (fun e => emit (Printed (ImageException e))) ;;
  json response.

(** The loop of [sync_products] and what follows it: no [try] around a
    record. *)
Definition sync_page (w : world) (set_order : pyset -> list atom)
    (offset : Z) (page : list pyval) : io pyval :=
  _ <~ for_each page
         (fun product =>
            response_shopify <~ sync_products_to_shopify w set_order
                                  product ;;
            if truthy response_shopify
            then emit (Printed ShopifyResponse)
            else ret tt) ;;
  _ <~ publish_offset (offset + 1) ;;
  ret (PStr "Product Complete!").

(** [sync_products] from the fetch on, for an [offset] of at most 4300
    digits as in [main.py]. *)
Definition sync_products_from_fetch (w : world)
    (set_order : pyset -> list atom) (offset : Z) : io pyval :=
  let limit := 1 in
  response_catalogiq <~ send w (GetProducts limit offset) ;;
  if negb (status_code response_catalogiq =? 200) then
    _ <~ emit (Printed (FetchError (status_code response_catalogiq))) ;;
    ret PNone
  else
    product_data <~ json response_catalogiq ;;
    products <~ lift (subscript product_data "results") ;;
    if negb (truthy products) then
      _ <~ send_completion_email w ;;
      ret (PStr "Sync Complete!")
    else
      page <~ lift (py_iter products) ;;
      sync_page w set_order offset page.

(** [shopify_headers] reads [access_token], a name that is bound nowhere
    in the file (the token was stored in [shopify_access_token]): the
    function raises before it fetches. *)
Definition sync_products (w : world) (set_order : pyset -> list atom)
    (offset : Z) : io pyval :=
  _ <~ lift (Raise NameError : result unit) ;;
  sync_products_from_fetch w set_order offset.

Definition process_product (w : world) (set_order : pyset -> list atom)
    (cloud_event_data : pyval) : io unit :=
  offset <~ lift (event_offset cloud_event_data) ;;
  _ <~ sync_products w set_order offset ;;
  ret tt.

End Mian.

(** ** Reading a source product

    The vocabulary in which the properties of the mapper are stated: what a
    variant's attributes say, independently of how the mapper walks them. *)

Definition attribute_named (attribute : pyval) (a : atom) : Prop :=
  exists n, subscript attribute "name" = Ok n /\ py_eq_atom n a = true.

(** The variant has an attribute named [a]. *)
Definition variant_names_axis (variant : pyval) (a : atom) : Prop :=
  exists attrs attribute,
    variant_attributes variant = Ok attrs /\ In attribute attrs /\
    attribute_named attribute a.

(** The variant has an attribute named [a] whose value is [v]. *)
Definition variant_assigns (variant : pyval) (a : atom) (v : pyval) : Prop :=
  exists attrs attribute,
    variant_attributes variant = Ok attrs /\ In attribute attrs /\
    attribute_named attribute a /\ subscript attribute "value" = Ok v.

(** The first attribute of the variant named [a] has value [v]. *)
Definition variant_first_assigns (variant : pyval) (a : atom) (v : pyval)
  : Prop :=
  exists attrs pre attribute post,
    variant_attributes variant = Ok attrs /\
    attrs = pre ++ attribute :: post /\
    (forall x, In x pre -> ~ attribute_named x a) /\
    attribute_named attribute a /\ subscript attribute "value" = Ok v.

(** The mapped variant has an [optionValues] entry for axis [a]. *)
Definition has_entry (sv : shopify_variant) (a : atom) : Prop :=
  exists ov, In ov (optionValues sv) /\ atom_eq (optionName ov) a.

(** The mapped product has a [productOptions] entry for axis [a]. *)
Definition has_axis (out : shopify_product) (a : atom) : Prop :=
  exists po, In po (productOptions out) /\ atom_eq (po_name po) a.

(** Every field the mapper indexes is there, what it iterates is iterable
    and what it puts into a set is hashable. *)
Definition has_key (v : pyval) (k : string) : bool := is_ok (subscript v k).

Definition iterable (v : pyval) : bool := is_ok (py_iter v).

Definition items (v : pyval) : list pyval :=
  match py_iter v with
  | Ok l => l
  | Raise _ => []
  end.

Definition hashable_at (v : pyval) (k : string) : bool :=
  match subscript v k with
  | Ok x => is_ok (as_hashable x)
  | Raise _ => false
  end.

Definition wf_variant_attribute (attribute : pyval) : bool :=
  hashable_at attribute "name" && hashable_at attribute "value".

Definition wf_variant (variant : pyval) : bool :=
  match subscript variant "attributes" with
  | Ok av => iterable av && forallb wf_variant_attribute (items av)
  | Raise _ => false
  end && has_key variant "default_code".

Definition wf_product_attribute (attribute : pyval) : bool :=
  has_key attribute "category" && has_key attribute "description" &&
  has_key attribute "name" && has_key attribute "value".

Definition well_formed (ciq_product : pyval) : bool :=
  match subscript ciq_product "variants",
        subscript ciq_product "attributes" with
  | Ok vv, Ok pa =>
      iterable vv && forallb wf_variant (items vv) &&
      has_key ciq_product "name" &&
      iterable pa && forallb wf_product_attribute (items pa)
  | _, _ => false
  end.

(** The same conditions, as propositions about one attribute and one
    variant. *)
Definition good_attribute (attribute : pyval) : Prop :=
  exists n h val hv,
    subscript attribute "name" = Ok n /\ as_hashable n = Ok h /\
    subscript attribute "value" = Ok val /\ as_hashable val = Ok hv.

Definition good_variant (variant : pyval) : Prop :=
  exists attrs code,
    variant_attributes variant = Ok attrs /\
    Forall good_attribute attrs /\
    subscript variant "default_code" = Ok code.

Definition good_product_attribute (attribute : pyval) : Prop :=
  exists c d n v,
    subscript attribute "category" = Ok c /\
    subscript attribute "description" = Ok d /\
    subscript attribute "name" = Ok n /\
    subscript attribute "value" = Ok v.

(** Two readings of the spec that the code does not meet, kept to be
    refuted on concrete products. *)

(** "An entry for axis A if and only if V has an attribute named A." *)
Definition entries_iff_attributes (set_order : pyset -> list atom)
    (ciq_product : pyval) : Prop :=
  forall vs out,
    Main.map_catalogiq_to_shopify set_order ciq_product = Ok out ->
    product_variants ciq_product = Ok vs ->
    Forall2 (fun v sv => forall a, has_entry sv a <-> variant_names_axis v a)
            vs (variants out).


(** Sample products. *)
Definition sample_attribute (n : string) (v : pyval) : pyval :=
  PDict [("name", PStr n); ("value", v)].

Definition sample_variant (code : string) (attrs : list pyval) : pyval :=
  PDict [("default_code", PStr code); ("attributes", PList attrs)].

Definition sample_product (vs : list pyval) : pyval :=
  PDict [("name", PStr "Lamp"); ("variants", PList vs);
         ("attributes", PList [])].

(** End-to-end scenario 1 of the spec plus a third variant. *)
Definition lamp_sizes_variants : list pyval :=
  [sample_variant "L-S" [sample_attribute "Size" (PStr "S")];
   sample_variant "L-M" [sample_attribute "Size" (PStr "M")];
   sample_variant "L-S2" [sample_attribute "Size" (PStr "S")]].

Definition lamp_sizes : pyval := sample_product lamp_sizes_variants.

(** A variant that names the axis Finish with an empty value. *)
Definition lamp_blank_finish : pyval :=
  sample_product
    [sample_variant "L-1" [sample_attribute "Finish" (PStr EmptyString)]].


Definition insertion_order (s : pyset) : list atom := s.

(** "Axis values are drawn only from the first 99 variants" in the mapper
    that truncates. *)
Definition values_from_first_99 (set_order : pyset -> list atom)
    (ciq_product : pyval) : Prop :=
  forall out vs,
    Mian.map_catalogiq_to_shopify set_order ciq_product = Ok out ->
    product_variants ciq_product = Ok vs ->
    forall po x,
      In po (productOptions out) -> In x (po_values po) ->
      exists v val, In v (firstn 99 vs) /\
                    variant_assigns v (po_name po) val /\
                    as_hashable val = Ok x.

(** A product whose description is JSON [null]. *)
Definition lamp_null_description : pyval :=
  PDict [("name", PStr "Lamp"); ("description_sale", PNone);
         ("variants", PList []); ("attributes", PList [])].

(** 99 variants of size S followed by one of size XL. *)
Definition hundred_variants : list pyval :=
  repeat (sample_variant "L-S" [sample_attribute "Size" (PStr "S")]) 99
  ++ [sample_variant "L-XL" [sample_attribute "Size" (PStr "XL")]].

Definition lamp_hundred : pyval := sample_product hundred_variants.

(** ** Reading a trace *)

(** The payloads submitted to [productSet], the messages published and the
    number of completion mails, oldest first. *)
Fixpoint submissions (t : trace) : list shopify_product :=
  match t with
  | [] => []
  | Requested (ProductSet _ input) _ :: rest => submissions rest ++ [input]
  | _ :: rest => submissions rest
  end.

Fixpoint published (t : trace) : list string :=
  match t with
  | [] => []
  | Published message :: rest => published rest ++ [message]
  | _ :: rest => published rest
  end.

Fixpoint mails (t : trace) : nat :=
  match t with
  | [] => O
  | Mailed _ :: rest => S (mails rest)
  | _ :: rest => mails rest
  end.

(** ** Reading a status response *)

Definition operation_field (data : pyval) (field : string) : result pyval :=
  path data ["data"; "productOperation"; field].

(** The reply is a status response whose status is not COMPLETE. *)
Definition reports_incomplete (rp : reply) : Prop :=
  exists r data status,
    rp = Responds r /\ json_body r = Some data /\
    operation_field data "status" = Ok status /\
    status <> PStr "COMPLETE".

(** The reply is a status response whose status is COMPLETE, with the
    product id it carries ([None] when its product is [None]) and its
    user errors. *)
Definition reports_complete (rp : reply) (product_id errors : pyval) : Prop :=
  exists r data product,
    rp = Responds r /\ json_body r = Some data /\
    operation_field data "status" = Ok (PStr "COMPLETE") /\
    operation_field data "product" = Ok product /\
    (product = PNone /\ product_id = PNone \/
     product <> PNone /\ py_get product "id" PNone = Ok product_id) /\
    operation_field data "userErrors" = Ok errors.

(** [waits w id k t t']: starting from trace [t], the next [k] status
    queries are answered "not COMPLETE", each followed by a sleep of two
    seconds, and lead to trace [t']. *)
Inductive waits (w : world) (id : pyval) : nat -> trace -> trace -> Prop :=
| waits_O t : waits w id O t t
| waits_S k t r t' :
    net w t (ProductOperation id) = Responds r ->
    reports_incomplete (Responds r) ->
    waits w id k (Slept 2 :: Requested (ProductOperation id) (Responds r) :: t)
          t' ->
    waits w id (S k) t t'.

(** ** Reading an outcome *)

Definition outcome_trace {A} (o : outcome A) : trace :=
  match o with
  | Returned _ t | Raised _ t | Pending t => t
  end.

Definition finished {A} (o : outcome A) : Prop :=
  match o with
  | Pending _ => False
  | _ => True
  end.

(** The events [new] hold no submission, no publication and no mail. *)
Definition quiet (new : trace) : Prop :=
  submissions new = [] /\ published new = [] /\ mails new = O.

(** An action that only adds quiet events. *)
Definition silent {A} (m : io A) : Prop :=
  forall t, exists new, outcome_trace (m t) = new ++ t /\ quiet new.

(** An action that never waits in the polling loop. *)
Definition finishes {A} (m : io A) : Prop := forall t, finished (m t).

Definition is_submission (rq : request) : bool :=
  match rq with
  | ProductSet _ _ => true
  | _ => false
  end.

(** What [sync_products_to_shopify] of [main.py] does once the payload is
    submitted: it polls and attaches media. *)
Definition after_submission (w : world) (fuel : nat) (ciq_product : pyval)
    (response : response) : io pyval :=
  new_prod_response_json <~ json response ;;
  operation_id <~ lift (path new_prod_response_json
                          ["data"; "productSet"; "productSetOperation";
                           "id"]) ;;
  polled <~ Main.check_operation_status w fuel operation_id ;;
  let product_id := snd (fst polled) in
  _ <~ try_except
         (if truthy product_id
          then attach_images w ciq_product product_id
          else ret tt)
         (fun e => emit (Printed (ImageException e))) ;;
  json response.

(** The payloads of the records of a page that the mapper accepts. *)
Definition mapped_payloads (set_order : pyset -> list atom)
    (page : list pyval) : list shopify_product :=
  flat_map (fun product =>
              match Main.map_catalogiq_to_shopify set_order product with
              | Ok mapped => [mapped]
              | Raise _ => []
              end) page.

(** ** Sample worlds *)

Definition respond (status : Z) (body : pyval) : reply :=
  Responds {| status_code := status; json_body := Some body |}.

Definition status_response (status : string) (product : pyval) : pyval :=
  PDict [("data",
          PDict [("productOperation",
                  PDict [("status", PStr status); ("product", product);
                         ("userErrors", PList [])])])].

Definition sample_product_id : pyval := PStr "gid://shopify/Product/1".

Definition sample_operation_id : pyval :=
  PStr "gid://shopify/ProductSetOperation/1704073".

Definition product_set_response : pyval :=
  PDict [("data",
          PDict [("productSet",
                  PDict [("product", PDict [("id", sample_product_id)]);
                         ("productSetOperation",
                          PDict [("id", sample_operation_id)])])])].

Fixpoint status_queries (t : trace) : nat :=
  match t with
  | [] => O
  | Requested (ProductOperation _) _ :: rest => S (status_queries rest)
  | _ :: rest => status_queries rest
  end.

(** A shop in which an operation is RUNNING for two queries and COMPLETE
    from the third on, and a catalog that serves [page]. *)
Definition shop_world (page : pyval) : world :=
  {| net := fun t rq =>
       match rq with
       | GetProducts _ _ => respond 200 (PDict [("results", page)])
       | ProductSet _ _ => respond 200 product_set_response
       | ProductOperation _ =>
           if (status_queries t <? 2)%nat
           then respond 200 (status_response "RUNNING" PNone)
           else respond 200
                  (status_response "COMPLETE"
                     (PDict [("id", sample_product_id)]))
       | ProductCreateMedia _ _ _ => respond 200 (PDict [])
       end;
     sendgrid := fun _ => true |}.

(** A shop in which the operation stays RUNNING. *)
Definition stuck_world : world :=
  {| net := fun _ _ => respond 200 (status_response "RUNNING" PNone);
     sendgrid := fun _ => true |}.

(** A catalog that answers 500. *)
Definition failing_catalog : world :=
  {| net := fun _ _ =>
       Responds {| status_code := 500; json_body := None |};
     sendgrid := fun _ => true |}.

(** A record without [name], and a complete one. *)
Definition lamp_without_name : pyval :=
  PDict [("variants", PList []); ("attributes", PList [])].

Definition lamp_complete : pyval :=
  PDict [("name", PStr "Lamp");
         ("description_sale", PStr "A lamp");
         ("main_image", PStr "https://img/lamp.png");
         ("images", PList [PDict [("url", PStr "https://img/lamp-2.png")]]);
         ("variants",
          PList [sample_variant "L-S" [sample_attribute "Size" (PStr "S")]]);
         ("attributes",
          PList [PDict [("category", PStr "Light"); ("description", PStr "Watt");
                        ("name", PStr "power"); ("value", PStr "40")]])].

Definition two_records : pyval := PList [lamp_without_name; lamp_complete].

(** The text of the offset message for the digits [s]. *)
Definition offset_text (s : string) : string :=
  String "{" (String dquote ("offset" ++ String dquote (": " ++
    String dquote (s ++ String dquote "}"))))%string.

(** The message for the offset [n]: the text [{"offset": "<n>"}] with [n]
    in decimal. *)
Definition offset_message (n : Z) : string := offset_text (decimal n).

(** "The message produced by [publish_offset n], delivered back as a
    Pub/Sub event, parses to exactly [n]." *)
Definition offset_round_trips (n : Z) : Prop :=
  forall t, exists message,
    publish_offset n t = Returned tt (Published message :: t) /\
    event_offset (pubsub_event message) = Ok n.

(** A reply whose status field is COMPLETE. *)
Definition says_complete (rp : reply) : Prop :=
  exists r data,
    rp = Responds r /\ json_body r = Some data /\
    operation_field data "status" = Ok (PStr "COMPLETE").

(** "If no query ever reports COMPLETE, the poll loop never terminates":
    whatever number of queries is followed, the call is still polling. *)
Definition polls_forever_unless_complete (w : world) (id : pyval) : Prop :=
  (forall t, ~ says_complete (net w t (ProductOperation id))) ->
  forall fuel t, exists t',
    Main.check_operation_status w fuel id t = Pending t'.

(** A shop that answers every request with a GraphQL error and no
    [data]. *)
Definition throttled_shop : world :=
  {| net := fun _ _ =>
       respond 200
         (PDict [("errors", PList [PDict [("message", PStr "Throttled")]])]);
     sendgrid := fun _ => true |}.

(** ** More vocabulary for traces *)

(** The media requests of a trace, oldest first, as (alt, source, product
    id). *)
Fixpoint media_requests (t : trace) : list (string * pyval * pyval) :=
  match t with
  | [] => []
  | Requested (ProductCreateMedia alt src pid) _ :: rest =>
      media_requests rest ++ [(alt, src, pid)]
  | _ :: rest => media_requests rest
  end.

(** The seconds spent in [time.sleep]. *)
Fixpoint seconds_slept (t : trace) : Z :=
  match t with
  | [] => 0
  | Slept n :: rest => n + seconds_slept rest
  | _ :: rest => seconds_slept rest
  end.

(** An action all of whose events satisfy [P]. *)
Definition confined {A} (P : event -> Prop) (m : io A) : Prop :=
  forall t, exists new, outcome_trace (m t) = new ++ t /\ Forall P new.

(** The events of polling the operation [id]: its status queries and
    sleeps of two seconds. *)
Definition poll_event (id : pyval) (e : event) : Prop :=
  match e with
  | Slept n => n = 2
  | Requested (ProductOperation i) _ => i = id
  | _ => False
  end.

(** The events of attaching media to the product [pid]: media requests
    for that product and log lines. *)
Definition media_event (pid : pyval) (e : event) : Prop :=
  match e with
  | Requested (ProductCreateMedia _ _ p) _ => p = pid
  | Printed _ => True
  | _ => False
  end.

(** Every media request of the world [w] for the product [pid] is
    answered by a JSON object. *)
Definition media_answered (w : world) (pid : pyval) : Prop :=
  forall t alt src,
    exists r d,
      net w t (ProductCreateMedia alt src pid) = Responds r /\
      json_body r = Some (PDict d).

(** The body of the loop of [sync_products] in [mian.py]. *)
Definition mian_record (w : world) (set_order : pyset -> list atom)
    (product : pyval) : io unit :=
  response_shopify <~ Mian.sync_products_to_shopify w set_order product ;;
  if truthy response_shopify
  then emit (Printed ShopifyResponse)
  else ret tt.

(** ** [clean_and_convert_to_float]

    The function has the same text in both files.  Floating-point values
    are not computed: the result is kept as the argument [float] was given.
    [float_text_ok] is the grammar of [float] on the strings the function
    hands to it, which hold digits and dots only: at most one dot and at
    least one digit. *)

Inductive pyfloat : Type :=
| FloatOfInt (n : Z)
| FloatOfText (s : string)
| FloatZero.

Inductive float_outcome : Type :=
| FloatValue (f : pyfloat)
| FloatValueError
| FloatOverflowError.

(** The characters [[^0-9.]] does not match. *)
Definition is_dot (c : ascii) : bool := Ascii.eqb c ".".

Definition kept (c : ascii) : bool := is_digit c || is_dot c.

(** [re.sub(r'[^0-9.]', '', s)]. *)
Fixpoint cleaned (s : string) : string :=
  match s with
  | EmptyString => EmptyString
  | String c rest => if kept c then String c (cleaned rest) else cleaned rest
  end.

Definition float_text_ok (s : string) : bool :=
  let int_part := fst (span_digits s) in
  match snd (span_digits s) with
  | EmptyString => negb (String.eqb int_part EmptyString)
  | String c frac =>
      is_dot c &&
      String.eqb (snd (span_digits frac)) EmptyString &&
      negb (String.eqb int_part EmptyString &&
            String.eqb (fst (span_digits frac)) EmptyString)
  end.

(** [float(n)] raises [OverflowError] from this magnitude on: the integers
    that round to 2^1024. *)
Definition float_overflow : Z := 2 ^ 1024 - 2 ^ 970.

Definition clean_and_convert_to_float (input_value : pyval) : float_outcome :=
  match input_value with
  | PBool b => FloatValue (FloatOfInt (if b then 1 else 0))
  | PInt n =>
      if Z.abs n <? float_overflow then FloatValue (FloatOfInt n)
      else FloatOverflowError
  | PStr s =>
      let cleaned_string := cleaned s in
      if String.eqb cleaned_string EmptyString then FloatValue FloatZero
      else if float_text_ok cleaned_string
           then FloatValue (FloatOfText cleaned_string)
           else FloatValueError
  | _ => FloatValue FloatZero
  end.

Fixpoint count_chars (p : ascii -> bool) (s : string) : nat :=
  match s with
  | EmptyString => O
  | String c rest => ((if p c then 1 else 0) + count_chars p rest)%nat
  end.

Definition dots (s : string) : nat := count_chars is_dot s.

Definition digits (s : string) : nat := count_chars is_digit s.

(** A second iteration order for sets: newest element first. *)
Definition reverse_order (s : pyset) : list atom := rev s.

(** A product with two axes, for which the two orders differ. *)
Definition lamp_two_axes : pyval :=
  sample_product
    [sample_variant "L-S-R"
       [sample_attribute "Size" (PStr "S");
        sample_attribute "Color" (PStr "Red");
        sample_attribute "Size" (PStr "M")];
     sample_variant "L-M-B"
       [sample_attribute "Color" (PStr "Blue");
        sample_attribute "Size" (PStr "M")]].

(** A shop whose status responses are COMPLETE, with a product, and have
    no [userErrors]. *)
Definition shop_without_user_errors : world :=
  {| net := fun _ _ =>
       respond 200
         (PDict [("data",
                  PDict [("productOperation",
                          PDict [("status", PStr "COMPLETE");
                                 ("product",
                                  PDict [("id", sample_product_id)])])])]);
     sendgrid := fun _ => true |}.

(** * Properties *)

(** ** The error monad *)

Lemma bind_ok {A B} (r : result A) (k : A -> result B) (b : B) :
  bind r k = Ok b -> exists a, r = Ok a /\ k a = Ok b.
Proof.
  destruct r as [a|e]; simpl; intros H; [eauto | discriminate].
Qed.

Ltac inv_bind H :=
  let a := fresh "x" in
  let Ha := fresh "E" in
  apply bind_ok in H; destruct H as (a & Ha & H).

Ltac inv_ok H := injection H as H; subst.

Lemma mapM_ok {A B} (f : A -> result B) (l : list A) (l' : list B) :
  mapM f l = Ok l' -> Forall2 (fun a b => f a = Ok b) l l'.
Proof.
  revert l'; induction l as [|a l IH]; simpl; intros l' H.
  - inv_ok H. constructor.
  - inv_bind H. inv_bind H. inv_ok H. constructor; auto.
Qed.

Lemma mapM_total {A B} (f : A -> result B) (l : list A) :
  (forall a, In a l -> exists b, f a = Ok b) -> exists l', mapM f l = Ok l'.
Proof.
  induction l as [|a l IH]; simpl; intros H; [eauto|].
  destruct (H a) as (b & Hb); auto.
  destruct IH as (l' & Hl'); [intros; apply H; auto|].
  rewrite Hb, Hl'. simpl. eauto.
Qed.

Lemma mapM_fails {A B} (f : A -> result B) (l : list A) (a : A) :
  In a l -> is_ok (f a) = false -> is_ok (mapM f l) = false.
Proof.
  induction l as [|a' l IH]; simpl; [tauto|].
  intros [->|Hin] Hf.
  - destruct (f a); [discriminate | reflexivity].
  - destruct (f a'); simpl; auto.
    specialize (IH Hin Hf). destruct (mapM f l); [discriminate | reflexivity].
Qed.

Lemma Forall2_In_l {A B} (R : A -> B -> Prop) l l' a :
  Forall2 R l l' -> In a l -> exists b, In b l' /\ R a b.
Proof.
  induction 1; simpl; [tauto|]. intros [->|Hin]; eauto.
  destruct (IHForall2 Hin) as (b0 & ? & ?); eauto.
Qed.

Lemma Forall2_In_r {A B} (R : A -> B -> Prop) l l' b :
  Forall2 R l l' -> In b l' -> exists a, In a l /\ R a b.
Proof.
  induction 1; simpl; [tauto|]. intros [->|Hin]; eauto.
  destruct (IHForall2 Hin) as (a0 & ? & ?); eauto.
Qed.

Lemma Forall2_impl_In {A B} (R Q : A -> B -> Prop) l l' :
  Forall2 R l l' ->
  (forall a b, In a l -> In b l' -> R a b -> Q a b) ->
  Forall2 Q l l'.
Proof.
  induction 1; intros HQ; constructor.
  - apply HQ; simpl; auto.
  - apply IHForall2. intros; apply HQ; simpl; auto.
Qed.

(** ** Python equality on hashable values is an equivalence *)

Lemma atom_eqb_key a b : atom_eqb a b = true <-> atom_key a = atom_key b.
Proof.
  unfold atom_eqb.
  destruct (atom_key a) eqn:Ea, (atom_key b) eqn:Eb; split; intros H;
    try discriminate; try reflexivity;
    try (destruct a; simpl in Ea; discriminate);
    try (destruct b; simpl in Eb; discriminate).
  - apply Z.eqb_eq in H. congruence.
  - inversion H. apply Z.eqb_refl.
  - apply String.eqb_eq in H. congruence.
  - inversion H. apply String.eqb_refl.
Qed.

Lemma atom_eqb_refl a : atom_eqb a a = true.
Proof. apply atom_eqb_key. reflexivity. Qed.

Lemma atom_eqb_sym a b : atom_eqb a b = atom_eqb b a.
Proof.
  destruct (atom_eqb a b) eqn:E1, (atom_eqb b a) eqn:E2; auto.
  - apply atom_eqb_key in E1. symmetry in E1. apply atom_eqb_key in E1. congruence.
  - apply atom_eqb_key in E2. symmetry in E2. apply atom_eqb_key in E2. congruence.
Qed.

Lemma atom_eqb_trans a b c :
  atom_eqb a b = true -> atom_eqb b c = true -> atom_eqb a c = true.
Proof.
  rewrite !atom_eqb_key. congruence.
Qed.

Lemma atom_eqb_congr a b c :
  atom_eqb a b = true -> atom_eqb a c = atom_eqb b c.
Proof.
  intros H. destruct (atom_eqb b c) eqn:E.
  - eapply atom_eqb_trans; eauto.
  - destruct (atom_eqb a c) eqn:E'; auto.
    rewrite atom_eqb_sym in H.
    rewrite <- E. symmetry. eapply atom_eqb_trans; eauto.
Qed.

#[local] Instance atom_eq_Equivalence : Equivalence atom_eq.
Proof.
  split.
  - intros a. apply atom_eqb_refl.
  - intros a b H. unfold atom_eq. rewrite atom_eqb_sym. exact H.
  - intros a b c. apply atom_eqb_trans.
Qed.

(** ** Sets *)

Lemma set_mem_InA a s : set_mem a s = true <-> InA atom_eq a s.
Proof.
  unfold set_mem. rewrite existsb_exists, InA_alt.
  split; intros (x & H1 & H2); exists x; split; auto.
Qed.

Lemma set_mem_app a s t : set_mem a (s ++ t) = set_mem a s || set_mem a t.
Proof. apply existsb_app. Qed.

Lemma set_mem_add x a s :
  set_mem x (set_add a s) = set_mem x s || atom_eqb x a.
Proof.
  unfold set_add. destruct (set_mem a s) eqn:E.
  - destruct (atom_eqb x a) eqn:Ex; [|now rewrite orb_false_r].
    rewrite orb_true_r. unfold set_mem in *.
    apply existsb_exists in E. destruct E as (y & Hy & Hay).
    apply existsb_exists. exists y. split; auto.
    eapply atom_eqb_trans; eauto.
  - rewrite set_mem_app. simpl. now rewrite orb_false_r.
Qed.

Lemma set_add_In x a s : In x (set_add a s) -> In x s \/ x = a.
Proof.
  unfold set_add. destruct (set_mem a s); auto.
  rewrite in_app_iff. simpl. intuition.
Qed.

Lemma NoDupA_snoc a s :
  NoDupA atom_eq s -> ~ InA atom_eq a s -> NoDupA atom_eq (s ++ [a]).
Proof.
  intros Hs Ha. apply NoDupA_app; auto with typeclass_instances.
  - constructor; [|constructor]. intros H. inversion H.
  - intros x Hx Hx'. inversion Hx' as [? ? Heq|? ? Hnil]; subst; [|inversion Hnil].
    apply Ha. eapply InA_eqA; eauto with typeclass_instances.
Qed.

Lemma set_add_NoDupA a s : NoDupA atom_eq s -> NoDupA atom_eq (set_add a s).
Proof.
  intros Hs. unfold set_add. destruct (set_mem a s) eqn:E; auto.
  apply NoDupA_snoc; auto. rewrite <- set_mem_InA. congruence.
Qed.

Lemma fold_set_add_spec l : forall s,
  NoDupA atom_eq s ->
  let s' := fold_left (fun s a => set_add a s) l s in
  NoDupA atom_eq s' /\
  (forall x, In x s' -> In x s \/ In x l) /\
  (forall x, set_mem x s' = set_mem x s || set_mem x l).
Proof.
  induction l as [|a l IH]; simpl; intros s Hs.
  - repeat split; auto. intros; now rewrite orb_false_r.
  - destruct (IH (set_add a s) (set_add_NoDupA a s Hs)) as (H1 & H2 & H3).
    repeat split; auto.
    + intros x Hx. apply H2 in Hx. destruct Hx as [Hx|Hx]; auto.
      apply set_add_In in Hx. intuition.
    + intros x. rewrite H3, set_mem_add.
      unfold set_mem at 4. simpl. fold (set_mem x l).
      now rewrite orb_assoc.
Qed.

Lemma set_of_list_spec l :
  NoDupA atom_eq (set_of_list l) /\
  (forall x, In x (set_of_list l) -> In x l) /\
  (forall x, set_mem x (set_of_list l) = set_mem x l).
Proof.
  destruct (fold_set_add_spec l [] (NoDupA_nil _)) as (H1 & H2 & H3).
  repeat split; auto.
  intros x Hx. destruct (H2 x Hx) as [[]|]; auto.
Qed.

Lemma Permutation_InA a (l l' : list atom) :
  Permutation l l' -> InA atom_eq a l -> InA atom_eq a l'.
Proof.
  intros HP. rewrite !InA_alt. intros (y & Hy & Hin).
  exists y. split; auto. eapply Permutation_in; eauto.
Qed.

Lemma Permutation_NoDupA (l l' : list atom) :
  Permutation l l' -> NoDupA atom_eq l -> NoDupA atom_eq l'.
Proof.
  induction 1; intros HN; auto.
  - inversion HN; subst. constructor; auto.
    intros Hin. apply (Permutation_InA _ _ _ (Permutation_sym H)) in Hin. auto.
  - inversion HN as [|? ? Hy HN']; subst.
    inversion HN' as [|? ? Hx HN'']; subst.
    constructor.
    + intros Hin. inversion Hin; subst; auto.
      apply Hy. left. symmetry. assumption.
    + constructor; auto.
Qed.

Lemma Permutation_set_mem a (l l' : list atom) :
  Permutation l l' -> set_mem a l = set_mem a l'.
Proof.
  induction 1; simpl; auto.
  - unfold set_mem in *. simpl. now rewrite IHPermutation.
  - unfold set_mem. simpl. rewrite !orb_assoc. f_equal. apply orb_comm.
  - congruence.
Qed.

(** ** The loops of the mapper *)

Lemma py_eq_atom_hashable n h a :
  as_hashable n = Ok h -> py_eq_atom n a = atom_eqb h a.
Proof. unfold py_eq_atom. now intros ->. Qed.

Lemma py_eq_atom_true n a :
  py_eq_atom n a = true -> exists h, as_hashable n = Ok h /\ atom_eqb h a = true.
Proof.
  unfold py_eq_atom. destruct (as_hashable n); [eauto | discriminate].
Qed.

Lemma py_eq_atom_congr n a b :
  atom_eqb a b = true -> py_eq_atom n a = py_eq_atom n b.
Proof.
  intros H. unfold py_eq_atom. destruct (as_hashable n); auto.
  rewrite (atom_eqb_sym a0 a), (atom_eqb_sym a0 b).
  now apply atom_eqb_congr.
Qed.

Lemma attribute_named_congr x a b :
  atom_eqb a b = true -> attribute_named x a -> attribute_named x b.
Proof.
  intros H (n & Hn & E). exists n. split; auto.
  now rewrite <- (py_eq_atom_congr n a b H).
Qed.

Lemma add_attribute_names_spec attrs : forall s s',
  add_attribute_names attrs s = Ok s' ->
  NoDupA atom_eq s ->
  NoDupA atom_eq s' /\
  (forall a, set_mem a s' = true <->
             set_mem a s = true \/
             exists attribute, In attribute attrs /\ attribute_named attribute a).
Proof.
  induction attrs as [|x attrs IH]; simpl; intros s s' H Hs.
  - inv_ok H. split; auto. intros a. split; auto.
    intros [?|(? & [] & _)]; auto.
  - inv_bind H. inv_bind H.
    destruct (IH _ _ H (set_add_NoDupA _ _ Hs)) as (H1 & H2).
    split; auto. intros a. rewrite H2, set_mem_add, orb_true_iff.
    split.
    + intros [[?|Ha]|(y & Hy & Hn)]; auto.
      * right. exists x. split; auto. exists x0. split; auto.
        rewrite (py_eq_atom_hashable _ _ _ E0), atom_eqb_sym. exact Ha.
      * right. exists y. auto.
    + intros [?|(y & [<-|Hy] & Hn)]; auto.
      * left. right. destruct Hn as (n & Hn & Ha).
        rewrite E in Hn. inv_ok Hn.
        rewrite (py_eq_atom_hashable _ _ _ E0), atom_eqb_sym in Ha. exact Ha.
      * right. exists y. auto.
Qed.

Lemma collect_option_names_spec vs : forall s s',
  collect_option_names vs s = Ok s' ->
  NoDupA atom_eq s ->
  NoDupA atom_eq s' /\
  (forall a, set_mem a s' = true <->
             set_mem a s = true \/
             exists v, In v vs /\ variant_names_axis v a).
Proof.
  induction vs as [|v vs IH]; simpl; intros s s' H Hs.
  - inv_ok H. split; auto. intros a. split; auto.
    intros [?|(? & [] & _)]; auto.
  - inv_bind H. inv_bind H.
    destruct (add_attribute_names_spec _ _ _ E0 Hs) as (N1 & M1).
    destruct (IH _ _ H N1) as (N2 & M2).
    split; auto. intros a. rewrite M2, M1. split.
    + intros [[?|(y & Hy & Hn)]|(w & Hw & Hn)]; auto.
      * right. exists v. split; auto. exists x, y. auto.
      * right. exists w. auto.
    + intros [?|(w & [<-|Hw] & Hn)]; auto.
      * left. right. destruct Hn as (attrs & y & Ha & Hy & Hn).
        rewrite E in Ha. inv_ok Ha. eauto.
      * right. eauto.
Qed.

Lemma attribute_values_sound attrs a : forall values val,
  attribute_values attrs a = Ok values -> In val values ->
  exists attribute, In attribute attrs /\ attribute_named attribute a /\
                    subscript attribute "value" = Ok val.
Proof.
  induction attrs as [|x attrs IH]; simpl; intros values val H Hin.
  - inv_ok H. destruct Hin.
  - inv_bind H. destruct (py_eq_atom x0 a) eqn:Ea.
    + inv_bind H. inv_bind H. inv_ok H. destruct Hin as [<-|Hin].
      * exists x. repeat split; auto. exists x0. auto.
      * destruct (IH _ _ E1 Hin) as (y & ? & ? & ?). exists y. auto.
    + destruct (IH _ _ H Hin) as (y & ? & ? & ?). exists y. auto.
Qed.

Lemma attribute_values_complete attrs a : forall values attribute,
  attribute_values attrs a = Ok values -> In attribute attrs ->
  attribute_named attribute a ->
  exists val, subscript attribute "value" = Ok val /\ In val values.
Proof.
  induction attrs as [|x attrs IH]; simpl; intros values y H Hin Hn.
  - destruct Hin.
  - inv_bind H. destruct (py_eq_atom x0 a) eqn:Ea.
    + inv_bind H. inv_bind H. inv_ok H. destruct Hin as [<-|Hin].
      * exists x1. simpl; auto.
      * destruct (IH _ _ E1 Hin Hn) as (val & ? & ?). exists val. simpl; auto.
    + destruct Hin as [<-|Hin].
      * destruct Hn as (n & Hn & He). rewrite E in Hn. inv_ok Hn. congruence.
      * eauto.
Qed.

Lemma axis_values_sound vs a : forall values val,
  axis_values vs a = Ok values -> In val values ->
  exists v, In v vs /\ variant_assigns v a val.
Proof.
  induction vs as [|v vs IH]; simpl; intros values val H Hin.
  - inv_ok H. destruct Hin.
  - inv_bind H. inv_bind H. inv_bind H. inv_ok H.
    apply in_app_or in Hin. destruct Hin as [Hin|Hin].
    + destruct (attribute_values_sound _ _ _ _ E0 Hin) as (y & ? & ? & ?).
      exists v. split; auto. exists x, y. auto.
    + destruct (IH _ _ E1 Hin) as (w & ? & ?). exists w. auto.
Qed.

Lemma axis_values_complete vs a : forall values v val,
  axis_values vs a = Ok values -> In v vs -> variant_assigns v a val ->
  In val values.
Proof.
  induction vs as [|w vs IH]; simpl; intros values v val H Hin Ha.
  - destruct Hin.
  - inv_bind H. inv_bind H. inv_bind H. inv_ok H.
    apply in_or_app. destruct Hin as [<-|Hin].
    + left. destruct Ha as (attrs & y & Hattrs & Hy & Hn & Hv).
      rewrite E in Hattrs. inv_ok Hattrs.
      destruct (attribute_values_complete _ _ _ _ E0 Hy Hn) as (val' & Hv' & ?).
      congruence.
    + right. eauto.
Qed.

Section MapperLoopFacts.

Variable set_order : pyset -> list atom.
Hypothesis set_order_perm : forall s, Permutation (set_order s) s.

Lemma unique_values_spec values uniq :
  unique_values set_order values = Ok uniq ->
  NoDupA atom_eq uniq /\
  (forall x, In x uniq ->
             exists val, In val values /\ as_hashable val = Ok x) /\
  (forall val, In val values -> exists h, as_hashable val = Ok h).
Proof.
  unfold unique_values. intros H. inv_bind H. inv_ok H.
  destruct (set_of_list_spec x) as (N & I & _).
  apply mapM_ok in E. repeat split.
  - apply (Permutation_NoDupA (set_of_list x));
      [apply Permutation_sym, set_order_perm | exact N].
  - intros a Ha. apply (Permutation_in _ (set_order_perm _)) in Ha.
    apply I in Ha. destruct (Forall2_In_r _ _ _ _ E Ha) as (val & ? & ?).
    eauto.
  - intros val Hval. destruct (Forall2_In_l _ _ _ _ E Hval) as (h & ? & ?).
    eauto.
Qed.

Lemma build_product_options_spec names vs pos :
  build_product_options set_order names vs = Ok pos ->
  map po_name pos = set_order names /\
  (forall po, In po pos -> build_option set_order vs (po_name po) = Ok po).
Proof.
  unfold build_product_options. generalize (set_order names) as l.
  intros l H. apply mapM_ok in H.
  induction H as [|a po l l' Ha Hrest IH]; simpl.
  { split; auto. intros ? []. }
  destruct IH as (IH1 & IH2).
  assert (Hn : po_name po = a).
  { unfold build_option in Ha. inv_bind Ha. inv_bind Ha. now inv_ok Ha. }
  split; [congruence|].
  intros po' [<-|Hin]; auto. congruence.
Qed.

End MapperLoopFacts.

(** ** The mapper of [main.py] *)

Lemma main_map_inv set_order ciq_product out :
  Main.map_catalogiq_to_shopify set_order ciq_product = Ok out ->
  exists vs names,
    product_variants ciq_product = Ok vs /\
    collect_option_names vs [] = Ok names /\
    mapM (map_variant (set_order names)) vs = Ok (variants out) /\
    build_product_options set_order names vs = Ok (productOptions out) /\
    subscript ciq_product "name" = Ok (title out) /\
    Main.description_html ciq_product = Ok (descriptionHtml out) /\
    build_metafields ciq_product = Ok (metafields out).
Proof.
  unfold Main.map_catalogiq_to_shopify. intros H.
  inv_bind H. inv_bind H. inv_bind H. inv_bind H. inv_bind H.
  inv_bind H. inv_bind H. inv_bind H. inv_ok H. simpl.
  rewrite E in E1. inv_ok E1.
  exists x1, x0. repeat split; auto.
Qed.

Section MainMapper.

Variable set_order : pyset -> list atom.
Hypothesis set_order_perm : forall s, Permutation (set_order s) s.

Lemma option_axes_spec vs names pos :
  collect_option_names vs [] = Ok names ->
  build_product_options set_order names vs = Ok pos ->
  NoDupA atom_eq (map po_name pos) /\
  (forall a, (exists po, In po pos /\ atom_eq (po_name po) a) <->
             (exists v, In v vs /\ variant_names_axis v a)).
Proof.
  intros Hc Hb.
  destruct (collect_option_names_spec _ _ _ Hc (NoDupA_nil _)) as (N & M).
  destruct (build_product_options_spec set_order _ _ _ Hb) as (Hn & _).
  split.
  - rewrite Hn.
    apply (Permutation_NoDupA names);
      [apply Permutation_sym, set_order_perm | exact N].
  - intros a.
    assert (Hm : set_mem a (map po_name pos) = true <->
                 exists v, In v vs /\ variant_names_axis v a).
    { rewrite Hn, (Permutation_set_mem a _ _ (set_order_perm names)), M.
      simpl. intuition discriminate. }
    rewrite <- Hm. unfold set_mem. rewrite existsb_exists. split.
    + intros (po & Hin & He). exists (po_name po). split.
      * now apply in_map.
      * unfold atom_eq in He. now rewrite atom_eqb_sym.
    + intros (x & Hin & He). apply in_map_iff in Hin.
      destruct Hin as (po & <- & Hin). exists po. split; auto.
      unfold atom_eq. now rewrite atom_eqb_sym.
Qed.

Lemma option_values_spec vs po :
  build_option set_order vs (po_name po) = Ok po ->
  NoDupA atom_eq (po_values po) /\
  (forall x, In x (po_values po) ->
     exists v val, In v vs /\ variant_assigns v (po_name po) val /\
                   as_hashable val = Ok x).
Proof.
  unfold build_option. intros H. inv_bind H. inv_bind H.
  assert (Hv : po_values po = x0).
  { injection H as H. rewrite <- H. reflexivity. }
  rewrite Hv. clear H.
  destruct (unique_values_spec set_order set_order_perm _ _ E0) as (N & S & _).
  split; auto. intros a Ha. destruct (S a Ha) as (val & Hval & Hh).
  destruct (axis_values_sound _ _ _ _ E Hval) as (v & Hv1 & Hv2).
  exists v, val. auto.
Qed.

(** C1.  For a product with at least one variant that the mapper of
    [main.py] accepts, [productOptions] holds exactly one entry per
    distinct attribute name occurring in the variants' attributes (no two
    entries carry equal names, and a name has an entry if and only if some
    variant has an attribute of that name); the [values] of each entry
    hold no two equal values, and every one of them is the value some
    variant gives to an attribute of that name. *)
Theorem C1_product_options ciq_product vs out :
  Main.map_catalogiq_to_shopify set_order ciq_product = Ok out ->
  product_variants ciq_product = Ok vs ->
  vs <> [] ->
  NoDupA atom_eq (map po_name (productOptions out)) /\
  (forall a, has_axis out a <-> exists v, In v vs /\ variant_names_axis v a) /\
  (forall po, In po (productOptions out) ->
     NoDupA atom_eq (po_values po) /\
     forall x, In x (po_values po) ->
       exists v val, In v vs /\ variant_assigns v (po_name po) val /\
                     as_hashable val = Ok x).
Proof.
  intros Hmap Hvs _.
  destruct (main_map_inv _ _ _ Hmap)
    as (vs' & names & Hvs' & Hc & _ & Hb & _).
  rewrite Hvs in Hvs'. inv_ok Hvs'.
  destruct (option_axes_spec _ _ _ Hc Hb) as (N & M).
  split; [exact N|]. split; [exact M|].
  intros po Hpo.
  destruct (build_product_options_spec set_order _ _ _ Hb) as (_ & Hpos).
  apply option_values_spec. auto.
Qed.

End MainMapper.

(** ** Sparse option values *)

Lemma first_value_found attrs a : forall val,
  first_value attrs a = Ok val ->
  (exists pre attribute post,
      attrs = pre ++ attribute :: post /\
      (forall x, In x pre -> ~ attribute_named x a) /\
      attribute_named attribute a /\ subscript attribute "value" = Ok val) \/
  (val = PNone /\ forall x, In x attrs -> ~ attribute_named x a).
Proof.
  induction attrs as [|y attrs IH]; simpl; intros val H.
  - inv_ok H. right. split; auto.
  - inv_bind H. destruct (py_eq_atom x a) eqn:Ea.
    + left. exists [], y, attrs.
      split; [reflexivity|]. split; [intros ? []|].
      split; [exists x; auto | exact H].
    + assert (Hy : ~ attribute_named y a).
      { intros (n & Hn & He). rewrite E in Hn. inv_ok Hn. congruence. }
      destruct (IH _ H) as [(pre & z & post & -> & Hpre & Hz & Hv)|(-> & Hnone)].
      * left. exists (y :: pre), z, post. repeat split; auto.
        intros w [<-|Hw]; auto.
      * right. split; auto. intros w [<-|Hw]; auto.
Qed.

Lemma first_value_unique pre : forall attribute post a val val',
  first_value (pre ++ attribute :: post) a = Ok val ->
  (forall x, In x pre -> ~ attribute_named x a) ->
  attribute_named attribute a -> subscript attribute "value" = Ok val' ->
  val = val'.
Proof.
  induction pre as [|y pre IH]; simpl; intros z post a val val' H Hpre Hz Hv.
  - inv_bind H. destruct Hz as (n & Hn & He). rewrite E in Hn. inv_ok Hn.
    rewrite He in H. congruence.
  - inv_bind H. destruct (py_eq_atom x a) eqn:Ea.
    + exfalso. apply (Hpre y); auto. exists x. auto.
    + eapply IH; eauto.
Qed.

Lemma first_value_congr attrs a b :
  atom_eqb a b = true -> first_value attrs a = first_value attrs b.
Proof.
  intros H. induction attrs as [|y attrs IH]; simpl; auto.
  destruct (subscript y "name"); simpl; auto.
  rewrite (py_eq_atom_congr _ _ _ H), IH. reflexivity.
Qed.

Lemma variant_option_values_spec v names : forall ovs,
  variant_option_values v names = Ok ovs ->
  (forall ov, In ov ovs ->
     In (optionName ov) names /\ truthy (ov_name ov) = true /\
     exists attrs, variant_attributes v = Ok attrs /\
                   first_value attrs (optionName ov) = Ok (ov_name ov)) /\
  (forall a, In a names ->
     exists attrs val,
       variant_attributes v = Ok attrs /\ first_value attrs a = Ok val /\
       (truthy val = true ->
        In {| optionName := a; ov_name := val |} ovs)).
Proof.
  induction names as [|n names IH]; simpl; intros ovs H.
  - inv_ok H. split; [intros ? []|intros ? []].
  - inv_bind H. inv_bind H. inv_bind H. inv_ok H.
    destruct (IH _ E1) as (S & C). split.
    + intros ov Hov.
      assert (Hcase : (ov = {| optionName := n; ov_name := x0 |} /\
                       truthy x0 = true) \/ In ov x1).
      { destruct (truthy x0) eqn:Et; auto.
        destruct Hov as [<-|?]; auto. }
      destruct Hcase as [(-> & Ht)|Hin]; simpl.
      * repeat split; auto. exists x. auto.
      * destruct (S _ Hin) as (? & ? & ?). auto.
    + intros a [<-|Ha].
      * exists x, x0. repeat split; auto. intros ->. simpl. auto.
      * destruct (C _ Ha) as (attrs & val & ? & ? & Hin).
        exists attrs, val. repeat split; auto.
        intros Ht. specialize (Hin Ht). destruct (truthy x0); simpl; auto.
Qed.

Lemma truthy_not_none val : truthy val = true -> val <> PNone.
Proof. intros H ->. discriminate. Qed.

Section MainVariants.

Variable set_order : pyset -> list atom.
Hypothesis set_order_perm : forall s, Permutation (set_order s) s.

Lemma map_variant_entries vs names v sv :
  collect_option_names vs [] = Ok names ->
  In v vs ->
  map_variant (set_order names) v = Ok sv ->
  forall a, has_entry sv a <->
            exists val, variant_first_assigns v a val /\ truthy val = true.
Proof.
  intros Hc Hv Hm a. unfold map_variant in Hm.
  inv_bind Hm. inv_bind Hm. inv_ok Hm. unfold has_entry. simpl.
  destruct (variant_option_values_spec _ _ _ E) as (S & C).
  split.
  - intros (ov & Hov & Ha). destruct (S _ Hov) as (_ & Ht & attrs & Hat & Hf).
    exists (ov_name ov). split; auto.
    rewrite (first_value_congr _ _ _ Ha) in Hf.
    destruct (first_value_found _ _ _ Hf)
      as [(pre & z & post & -> & Hpre & Hz & Hval)|(Hn & _)].
    + exists (pre ++ z :: post), pre, z, post. auto.
    + now apply truthy_not_none in Ht.
  - intros (val & (attrs & pre & z & post & Hat & -> & Hpre & Hz & Hval) & Ht).
    destruct (collect_option_names_spec _ _ _ Hc (NoDupA_nil _)) as (_ & M).
    assert (Hmem : set_mem a names = true).
    { apply M. right. exists v. split; auto.
      exists (pre ++ z :: post), z. repeat split; auto.
      apply in_or_app. simpl. auto. }
    rewrite (Permutation_set_mem a _ _ (Permutation_sym (set_order_perm names)))
      in Hmem.
    apply existsb_exists in Hmem. destruct Hmem as (a' & Ha' & He).
    destruct (C _ Ha') as (attrs & val' & Hat' & Hf & Hin).
    rewrite Hat in Hat'. inv_ok Hat'.
    rewrite <- (first_value_congr _ _ _ He) in Hf.
    assert (val' = val) by (eapply first_value_unique; eauto). subst val'.
    exists {| optionName := a'; ov_name := val |}. split; auto.
    simpl. unfold atom_eq. now rewrite atom_eqb_sym.
Qed.

(** C2 (amended).  For every variant V of a product that the mapper of
    [main.py] accepts, the mapped variant has an [optionValues] entry for
    axis A if and only if the first attribute of V named A carries a
    truthy value; in particular an entry for A is there only if V has an
    attribute named A. *)
Theorem C2_option_values_sparse ciq_product vs out :
  Main.map_catalogiq_to_shopify set_order ciq_product = Ok out ->
  product_variants ciq_product = Ok vs ->
  Forall2
    (fun v sv =>
       (forall a, has_entry sv a <->
                  exists val, variant_first_assigns v a val /\
                              truthy val = true) /\
       (forall a, has_entry sv a -> variant_names_axis v a))
    vs (variants out).
Proof.
  intros Hmap Hvs.
  destruct (main_map_inv _ _ _ Hmap)
    as (vs' & names & Hvs' & Hc & Hm & _).
  rewrite Hvs in Hvs'. inv_ok Hvs'.
  apply mapM_ok in Hm.
  apply (Forall2_impl_In _ _ _ _ Hm). intros v sv Hin _ Hv.
  pose proof (map_variant_entries _ _ _ _ Hc Hin Hv) as Hent.
  split; auto.
  intros a Ha. apply Hent in Ha.
  destruct Ha as (val & (attrs & pre & z & post & Hat & -> & _ & Hz & _) & _).
  exists (pre ++ z :: post), z. repeat split; auto.
  apply in_or_app. simpl. auto.
Qed.

End MainVariants.

Lemma insertion_order_perm s : Permutation (insertion_order s) s.
Proof. apply Permutation_refl. Qed.

Lemma C1_product_options_witness :
  exists out,
    Main.map_catalogiq_to_shopify insertion_order lamp_sizes = Ok out /\
    NoDupA atom_eq (map po_name (productOptions out)) /\
    (forall a, has_axis out a <->
               exists v, In v lamp_sizes_variants /\ variant_names_axis v a) /\
    (forall po, In po (productOptions out) ->
       NoDupA atom_eq (po_values po) /\
       forall x, In x (po_values po) ->
         exists v val, In v lamp_sizes_variants /\
                       variant_assigns v (po_name po) val /\
                       as_hashable val = Ok x).
Proof.
  eexists. split; [reflexivity|].
  apply (C1_product_options insertion_order insertion_order_perm lamp_sizes).
  - reflexivity.
  - reflexivity.
  - discriminate.
Defined.

Lemma C2_option_values_sparse_witness :
  Forall2
    (fun v sv =>
       (forall a, has_entry sv a <->
                  exists val, variant_first_assigns v a val /\
                              truthy val = true) /\
       (forall a, has_entry sv a -> variant_names_axis v a))
    [sample_variant "L-1" [sample_attribute "Finish" (PStr EmptyString)]]
    [{| sku := PStr "L-1"; optionValues := [] |}].
Proof.
  apply (C2_option_values_sparse insertion_order insertion_order_perm
           lamp_blank_finish _
           {| title := PStr "Lamp"; vendor := "Vendor Name";
              descriptionHtml := PStr EmptyString;
              productOptions :=
                [{| po_name := AStr "Finish"; po_values := [AStr EmptyString] |}];
              variants := [{| sku := PStr "L-1"; optionValues := [] |}];
              metafields := [] |}).
  - reflexivity.
  - reflexivity.
Defined.

(** C2, as stated, fails: the variant has an attribute named Finish, its
    value is the empty string, and the mapped variant has no entry for
    Finish. *)
Lemma C2_counterexample :
  ~ entries_iff_attributes insertion_order lamp_blank_finish.
Proof.
  intros H.
  specialize (H _ _ eq_refl eq_refl). simpl in H.
  inversion H as [|v sv l l' Hv _]; subst.
  destruct (Hv (AStr "Finish")) as (_ & Hback).
  destruct Hback as (ov & [] & _).
  exists [sample_attribute "Finish" (PStr EmptyString)], (sample_attribute "Finish" (PStr EmptyString)).
  repeat split; simpl; auto.
  exists (PStr "Finish"). split; reflexivity.
Qed.


(** ** When the mapper succeeds *)

Lemma is_ok_true {A} (r : result A) : is_ok r = true <-> exists a, r = Ok a.
Proof.
  destruct r; simpl; split; eauto; try discriminate.
  intros (? & ?). discriminate.
Qed.

Lemma has_key_true v k : has_key v k = true <-> exists x, subscript v k = Ok x.
Proof. apply is_ok_true. Qed.

Lemma hashable_at_true v k :
  hashable_at v k = true <->
  exists x h, subscript v k = Ok x /\ as_hashable x = Ok h.
Proof.
  unfold hashable_at. destruct (subscript v k) as [x|e].
  - rewrite is_ok_true. split.
    + intros (h & Hh). eauto.
    + intros (x' & h & Hx & Hh). inv_ok Hx. eauto.
  - split; [discriminate|]. intros (? & ? & ? & _). discriminate.
Qed.

Lemma iterable_items v : iterable v = true <-> py_iter v = Ok (items v).
Proof.
  unfold iterable, items. destruct (py_iter v); simpl; split; auto; discriminate.
Qed.

Lemma py_iter_items v l : py_iter v = Ok l -> iterable v = true /\ items v = l.
Proof. unfold iterable, items. intros ->. auto. Qed.

Lemma wf_variant_attribute_good x :
  wf_variant_attribute x = true <-> good_attribute x.
Proof.
  unfold wf_variant_attribute, good_attribute.
  rewrite andb_true_iff, !hashable_at_true. split.
  - intros ((n & h & ? & ?) & (val & hv & ? & ?)). exists n, h, val, hv. auto.
  - intros (n & h & val & hv & ? & ? & ? & ?).
    split; [exists n, h | exists val, hv]; auto.
Qed.

Lemma wf_variant_good v : wf_variant v = true <-> good_variant v.
Proof.
  unfold wf_variant, good_variant, variant_attributes.
  rewrite andb_true_iff, has_key_true.
  destruct (subscript v "attributes") as [av|e]; simpl.
  - rewrite andb_true_iff, forallb_forall. split.
    + intros ((Hi & Hall) & (code & Hc)).
      apply iterable_items in Hi. exists (items av), code.
      repeat split; auto. apply Forall_forall. intros x Hx.
      apply wf_variant_attribute_good. auto.
    + intros (attrs & code & Hi & Hall & Hc).
      apply py_iter_items in Hi. destruct Hi as (Hi & <-).
      repeat split; eauto. intros x Hx.
      apply wf_variant_attribute_good.
      rewrite Forall_forall in Hall. auto.
  - split; [intros (? & ?); discriminate|].
    intros (? & ? & ? & _). discriminate.
Qed.

Lemma wf_product_attribute_good x :
  wf_product_attribute x = true <-> good_product_attribute x.
Proof.
  unfold wf_product_attribute, good_product_attribute.
  rewrite !andb_true_iff, !has_key_true. split.
  - intros ((((c & ?) & (d & ?)) & (n & ?)) & (v & ?)). exists c, d, n, v. auto.
  - intros (c & d & n & v & ? & ? & ? & ?).
    repeat split; eauto.
Qed.

(** *** A well-formed product is accepted *)

Lemma add_attribute_names_total attrs : forall s,
  Forall good_attribute attrs -> exists s', add_attribute_names attrs s = Ok s'.
Proof.
  induction attrs as [|x attrs IH]; simpl; intros s H; [eauto|].
  inversion H as [|? ? (n & h & val & hv & Hn & Hh & _) Hrest]; subst.
  rewrite Hn. simpl. rewrite Hh. simpl. auto.
Qed.

Lemma collect_option_names_total vs : forall s,
  Forall good_variant vs -> exists s', collect_option_names vs s = Ok s'.
Proof.
  induction vs as [|v vs IH]; simpl; intros s H; [eauto|].
  inversion H as [|? ? (attrs & code & Ha & Hall & _) Hrest]; subst.
  rewrite Ha. simpl.
  destruct (add_attribute_names_total attrs s Hall) as (s1 & ->). simpl. auto.
Qed.

Lemma first_value_total attrs a :
  Forall good_attribute attrs -> exists val, first_value attrs a = Ok val.
Proof.
  induction 1 as [|x attrs (n & h & val & hv & Hn & _ & Hv & _) _ IH]; simpl;
    [eauto|].
  rewrite Hn. simpl. destruct (py_eq_atom n a); eauto.
Qed.

Lemma map_variant_total names v :
  good_variant v -> exists sv, map_variant names v = Ok sv.
Proof.
  intros (attrs & code & Ha & Hall & Hc). unfold map_variant.
  assert (Hov : exists ovs, variant_option_values v names = Ok ovs).
  { induction names as [|a names (ovs & IH)]; simpl; [eauto|].
    rewrite Ha. simpl.
    destruct (first_value_total attrs a Hall) as (val & ->). simpl.
    rewrite IH. simpl. eauto. }
  destruct Hov as (ovs & ->). simpl. rewrite Hc. simpl. eauto.
Qed.

Lemma attribute_values_total attrs a :
  Forall good_attribute attrs -> exists values, attribute_values attrs a = Ok values.
Proof.
  induction 1 as [|x attrs (n & h & val & hv & Hn & _ & Hv & _) _ (values & IH)];
    simpl; [eauto|].
  rewrite Hn. simpl. destruct (py_eq_atom n a); eauto.
  rewrite Hv, IH. simpl. eauto.
Qed.

Lemma axis_values_total vs a :
  Forall good_variant vs -> exists values, axis_values vs a = Ok values.
Proof.
  induction 1 as [|v vs (attrs & code & Ha & Hall & _) _ (values & IH)];
    simpl; [eauto|].
  rewrite Ha. simpl.
  destruct (attribute_values_total attrs a Hall) as (here & ->). simpl.
  rewrite IH. simpl. eauto.
Qed.

Lemma build_option_total set_order vs a :
  Forall good_variant vs -> exists po, build_option set_order vs a = Ok po.
Proof.
  intros Hall. unfold build_option, unique_values.
  destruct (axis_values_total vs a Hall) as (values & Hv). rewrite Hv. simpl.
  destruct (mapM_total as_hashable values) as (hs & ->); [|simpl; eauto].
  intros val Hval.
  destruct (axis_values_sound _ _ _ _ Hv Hval)
    as (v & Hin & attrs & x & Hat & Hx & _ & Hval').
  rewrite Forall_forall in Hall.
  destruct (Hall v Hin) as (attrs' & _ & Hat' & Hgood & _).
  rewrite Hat in Hat'. inv_ok Hat'.
  rewrite Forall_forall in Hgood.
  destruct (Hgood x Hx) as (_ & _ & val' & hv & _ & _ & Hv1 & Hv2).
  rewrite Hval' in Hv1. inv_ok Hv1. eauto.
Qed.

Lemma items_truthy v x : In x (items v) -> truthy v = true.
Proof.
  unfold items. destruct v as [| | |s|l|d]; simpl; try tauto.
  - destruct s; simpl; tauto.
  - destruct l; simpl; tauto.
  - destruct d; simpl; tauto.
Qed.

Lemma build_metafields_total ciq_product pa :
  subscript ciq_product "attributes" = Ok pa ->
  iterable pa = true ->
  (forall x, In x (items pa) -> good_product_attribute x) ->
  exists ms, build_metafields ciq_product = Ok ms.
Proof.
  intros Hpa Hi Hall. unfold build_metafields.
  rewrite Hpa. simpl. apply iterable_items in Hi. rewrite Hi. simpl.
  destruct (mapM_total (build_metafield ciq_product) (items pa)) as (ms & ->);
    [|simpl; eauto].
  intros x Hx. unfold build_metafield. rewrite Hpa. simpl.
  rewrite (items_truthy _ _ Hx).
  destruct (Hall x Hx) as (c & d & n & v & -> & -> & -> & ->). simpl. eauto.
Qed.

Lemma description_html_total ciq_product pa :
  subscript ciq_product "attributes" = Ok pa ->
  exists d, Main.description_html ciq_product = Ok d.
Proof.
  unfold Main.description_html, py_get, subscript.
  destruct ciq_product; try discriminate. intros _.
  destruct (dict_get d "description_sale"); simpl.
  - destruct (negb (truthy p)); eauto.
  - eauto.
Qed.

Lemma well_formed_accepted set_order ciq_product :
  well_formed ciq_product = true ->
  exists out, Main.map_catalogiq_to_shopify set_order ciq_product = Ok out.
Proof.
  unfold well_formed.
  destruct (subscript ciq_product "variants") as [vv|] eqn:Hvv; [|discriminate].
  destruct (subscript ciq_product "attributes") as [pa|] eqn:Hpa; [|discriminate].
  rewrite !andb_true_iff, !forallb_forall, has_key_true.
  intros ((((Hi & Hvs) & (name & Hname)) & Hpi) & Hpas).
  assert (Hgood : Forall good_variant (items vv)).
  { apply Forall_forall. intros v Hv. apply wf_variant_good. auto. }
  unfold Main.map_catalogiq_to_shopify, product_variants.
  rewrite Hvv. simpl. apply iterable_items in Hi. rewrite Hi. simpl.
  destruct (collect_option_names_total (items vv) [] Hgood) as (names & ->).
  simpl.
  destruct (mapM_total (map_variant (set_order names)) (items vv)) as (svs & ->).
  { intros v Hv. apply map_variant_total. rewrite Forall_forall in Hgood. auto. }
  simpl. unfold build_product_options.
  destruct (mapM_total (build_option set_order (items vv)) (set_order names))
    as (pos & ->).
  { intros a _. now apply build_option_total. }
  simpl. rewrite Hname. simpl.
  destruct (description_html_total _ _ Hpa) as (d & ->). simpl.
  destruct (build_metafields_total _ _ Hpa Hpi) as (ms & ->).
  { intros x Hx. apply wf_product_attribute_good. auto. }
  simpl. eauto.
Qed.

(** *** An accepted product is well formed *)

Lemma add_attribute_names_reads attrs : forall s s',
  add_attribute_names attrs s = Ok s' ->
  forall x, In x attrs ->
    exists n h, subscript x "name" = Ok n /\ as_hashable n = Ok h.
Proof.
  induction attrs as [|y attrs IH]; simpl; intros s s' H x Hx; [tauto|].
  inv_bind H. inv_bind H. destruct Hx as [<-|Hx]; eauto.
Qed.

Lemma collect_option_names_reads vs : forall s s',
  collect_option_names vs s = Ok s' ->
  forall v, In v vs ->
    exists attrs, variant_attributes v = Ok attrs /\
      forall x, In x attrs ->
        exists n h, subscript x "name" = Ok n /\ as_hashable n = Ok h.
Proof.
  induction vs as [|w vs IH]; simpl; intros s s' H v Hv; [tauto|].
  inv_bind H. inv_bind H. destruct Hv as [<-|Hv]; eauto.
  exists x. split; auto. eapply add_attribute_names_reads; eauto.
Qed.

Lemma axis_values_reads vs a : forall values v attrs x,
  axis_values vs a = Ok values -> In v vs ->
  variant_attributes v = Ok attrs -> In x attrs -> attribute_named x a ->
  exists val, subscript x "value" = Ok val /\ In val values.
Proof.
  induction vs as [|w vs IH]; simpl; intros values v attrs x H Hv Ha Hx Hn;
    [tauto|].
  inv_bind H. inv_bind H. inv_bind H. inv_ok H.
  destruct Hv as [<-|Hv].
  - rewrite E in Ha. inv_ok Ha.
    destruct (attribute_values_complete _ _ _ _ E0 Hx Hn) as (val & ? & ?).
    exists val. split; auto. apply in_or_app. auto.
  - destruct (IH _ _ _ _ E1 Hv Ha Hx Hn) as (val & ? & ?).
    exists val. split; auto. apply in_or_app. auto.
Qed.

Lemma build_metafields_reads ciq_product ms :
  build_metafields ciq_product = Ok ms ->
  exists pa, subscript ciq_product "attributes" = Ok pa /\
             iterable pa = true /\
             forall x, In x (items pa) -> good_product_attribute x.
Proof.
  unfold build_metafields. intros H. inv_bind H. inv_bind H. inv_bind H.
  exists x. apply py_iter_items in E0. destruct E0 as (Hi & <-).
  repeat split; auto. intros y Hy.
  apply mapM_ok in E1. destruct (Forall2_In_l _ _ _ _ E1 Hy) as (m & _ & Hm).
  unfold build_metafield in Hm. rewrite E in Hm. simpl in Hm.
  rewrite (items_truthy _ _ Hy) in Hm.
  inv_bind Hm. inv_bind Hm. inv_bind Hm. inv_bind Hm.
  unfold good_product_attribute. do 4 eexists. repeat split; eassumption.
Qed.

Section MainTotality.

Variable set_order : pyset -> list atom.
Hypothesis set_order_perm : forall s, Permutation (set_order s) s.

Lemma accepted_variants_good vs names svs pos :
  collect_option_names vs [] = Ok names ->
  mapM (map_variant (set_order names)) vs = Ok svs ->
  build_product_options set_order names vs = Ok pos ->
  forall v, In v vs -> good_variant v.
Proof.
  intros Hc Hm Hb v Hv.
  destruct (collect_option_names_reads _ _ _ Hc v Hv) as (attrs & Ha & Hnames).
  apply mapM_ok in Hm. destruct (Forall2_In_l _ _ _ _ Hm Hv) as (sv & _ & Hsv).
  unfold map_variant in Hsv. inv_bind Hsv. inv_bind Hsv.
  exists attrs, x0. repeat split; auto.
  apply Forall_forall. intros y Hy.
  destruct (Hnames y Hy) as (n & h & Hn & Hh).
  assert (Hnamed : attribute_named y h).
  { exists n. split; auto.
    rewrite (py_eq_atom_hashable _ _ _ Hh). apply atom_eqb_refl. }
  destruct (collect_option_names_spec _ _ _ Hc (NoDupA_nil _)) as (_ & M).
  assert (Hmem : set_mem h names = true).
  { apply M. right. exists v. split; auto. exists attrs, y. auto. }
  rewrite (Permutation_set_mem h _ _ (Permutation_sym (set_order_perm names)))
    in Hmem.
  apply existsb_exists in Hmem. destruct Hmem as (a & Hin & He).
  unfold build_product_options in Hb. apply mapM_ok in Hb.
  destruct (Forall2_In_l _ _ _ _ Hb Hin) as (po & _ & Hpo).
  unfold build_option in Hpo. inv_bind Hpo. inv_bind Hpo.
  destruct (axis_values_reads _ _ _ _ _ _ E1 Hv Ha Hy
              (attribute_named_congr _ _ _ He Hnamed)) as (val & Hval & Hin').
  destruct (unique_values_spec set_order set_order_perm _ _ E2)
    as (_ & _ & Hhash).
  destruct (Hhash val Hin') as (hv & Hhv).
  exists n, h, val, hv. auto.
Qed.

Lemma accepted_well_formed ciq_product out :
  Main.map_catalogiq_to_shopify set_order ciq_product = Ok out ->
  well_formed ciq_product = true.
Proof.
  intros Hmap.
  destruct (main_map_inv _ _ _ Hmap)
    as (vs & names & Hvs & Hc & Hm & Hb & Hname & _ & Hms).
  unfold product_variants in Hvs. inv_bind Hvs.
  apply py_iter_items in Hvs. destruct Hvs as (Hi & <-).
  destruct (build_metafields_reads _ _ Hms) as (pa & Hpa & Hpi & Hall).
  unfold well_formed. rewrite E, Hpa.
  rewrite !andb_true_iff, !forallb_forall, has_key_true.
  repeat split; eauto.
  - intros v Hv. apply wf_variant_good.
    eapply accepted_variants_good; eauto.
  - intros y Hy. apply wf_product_attribute_good. auto.
Qed.


End MainTotality.


(** ** The description *)

(** In [main.py] a description that is absent ([get] answers [None]) or
    falsy is mapped to the empty string. *)
Lemma main_description_defaults set_order ciq_product out d :
  Main.map_catalogiq_to_shopify set_order ciq_product = Ok out ->
  py_get ciq_product "description_sale" PNone = Ok d ->
  truthy d = false ->
  descriptionHtml out = PStr EmptyString.
Proof.
  intros Hmap Hd Ht.
  destruct (main_map_inv _ _ _ Hmap) as (_ & _ & _ & _ & _ & _ & _ & Hdesc & _).
  unfold Main.description_html in Hdesc. rewrite Hd in Hdesc. simpl in Hdesc.
  rewrite Ht in Hdesc. simpl in Hdesc. now inv_ok Hdesc.
Qed.

(** C4.  The mapper of [mian.py] hands a present but falsy description
    through: for a product whose [description_sale] is [null] the mapped
    [descriptionHtml] is [None], not the empty string. *)
Theorem C4_mian_keeps_null_description :
  exists out,
    Mian.map_catalogiq_to_shopify insertion_order lamp_null_description = Ok out /\
    py_get lamp_null_description "description_sale" PNone = Ok PNone /\
    truthy PNone = false /\
    descriptionHtml out = PNone /\
    descriptionHtml out <> PStr EmptyString.
Proof.
  eexists. split; [reflexivity|]. simpl. repeat split. discriminate.
Qed.

(** ** Truncation to 99 variants *)

Lemma mapM_firstn {A B} (f : A -> result B) n : forall l l',
  mapM f l = Ok l' -> mapM f (firstn n l) = Ok (firstn n l').
Proof.
  induction n as [|n IH]; intros l l' H; [reflexivity|].
  destruct l as [|a l]; simpl in *.
  - inv_ok H. reflexivity.
  - inv_bind H. inv_bind H. inv_ok H. rewrite E. simpl.
    rewrite (IH _ _ E0). reflexivity.
Qed.

Lemma mapM_length {A B} (f : A -> result B) l l' :
  mapM f l = Ok l' -> length l' = length l.
Proof.
  intros H. apply mapM_ok in H. symmetry. eapply Forall2_length; eauto.
Qed.

(** C9 (amended).  On a product whose [variants] is a list and that the
    mapper of [main.py] accepts, [main.py] maps every variant, and the
    mapper of [mian.py] truncates the emitted variants only: its variants
    are the first 99 of those of [main.py], while its option axes and their
    values are aggregated from all the variants and are those of
    [main.py], as are the title and the metafields. *)
Theorem C9_truncation_only_emitted_variants set_order ciq_product vs out :
  Main.map_catalogiq_to_shopify set_order ciq_product = Ok out ->
  subscript ciq_product "variants" = Ok (PList vs) ->
  length (variants out) = length vs /\
  exists out',
    Mian.map_catalogiq_to_shopify set_order ciq_product = Ok out' /\
    variants out' = firstn 99 (variants out) /\
    productOptions out' = productOptions out /\
    title out' = title out /\
    metafields out' = metafields out.
Proof.
  intros Hmap Hvs.
  destruct (main_map_inv _ _ _ Hmap)
    as (vs' & names & Hvs' & Hc & Hm & Hb & Hname & Hdesc & Hms).
  assert (Hpv : product_variants ciq_product = Ok vs).
  { unfold product_variants. rewrite Hvs. reflexivity. }
  rewrite Hpv in Hvs'. inv_ok Hvs'.
  split; [eapply mapM_length; eauto|].
  assert (Hd : exists d, Mian.description_html ciq_product = Ok d).
  { unfold Mian.description_html, py_get.
    destruct ciq_product; try discriminate.
    destruct (dict_get d "description_sale"); eauto. }
  destruct Hd as (d & Hd).
  unfold Mian.map_catalogiq_to_shopify.
  rewrite Hpv. cbn [bind]. rewrite Hc. cbn [bind]. rewrite Hvs.
  cbn [bind py_slice_to py_iter].
  rewrite (mapM_firstn _ 99 _ _ Hm). cbn [bind].
  rewrite Hb. cbn [bind]. rewrite Hname. cbn [bind]. rewrite Hd. cbn [bind].
  rewrite Hms. cbn [bind].
  eexists. split; [reflexivity|]. cbn [variants productOptions title metafields].
  auto.
Qed.

Lemma C9_truncation_only_emitted_variants_witness :
  exists out out',
    Main.map_catalogiq_to_shopify insertion_order lamp_hundred = Ok out /\
    length (variants out) = 100%nat /\
    Mian.map_catalogiq_to_shopify insertion_order lamp_hundred = Ok out' /\
    variants out' = firstn 99 (variants out) /\
    productOptions out' = productOptions out.
Proof.
  destruct (C9_truncation_only_emitted_variants insertion_order lamp_hundred
              hundred_variants
              {| title := PStr "Lamp"; vendor := "Vendor Name";
                 descriptionHtml := PStr EmptyString;
                 productOptions :=
                   [{| po_name := AStr "Size";
                       po_values := [AStr "S"; AStr "XL"] |}];
                 variants :=
                   repeat {| sku := PStr "L-S";
                             optionValues :=
                               [{| optionName := AStr "Size";
                                   ov_name := PStr "S" |}] |} 99
                   ++ [{| sku := PStr "L-XL";
                          optionValues :=
                            [{| optionName := AStr "Size";
                                ov_name := PStr "XL" |}] |}];
                 metafields := [] |})
    as (Hlen & out' & Hmian & Hv & Hpo & _).
  - vm_compute. reflexivity.
  - reflexivity.
  - eexists. exists out'. split; [vm_compute; reflexivity|].
    split; [exact Hlen|]. split; [exact Hmian|]. split; [exact Hv | exact Hpo].
Defined.

(** C9, as stated, fails: with 99 variants of size S followed by one of
    size XL, the mapper that truncates emits 99 variants and still lists XL
    among the values of Size. *)
Lemma C9_counterexample :
  ~ values_from_first_99 insertion_order lamp_hundred.
Proof.
  intros H.
  assert (Hmap : Mian.map_catalogiq_to_shopify insertion_order lamp_hundred
                 = Ok {| title := PStr "Lamp"; vendor := "Vendor Name";
                         descriptionHtml := PStr EmptyString;
                         productOptions :=
                           [{| po_name := AStr "Size";
                               po_values := [AStr "S"; AStr "XL"] |}];
                         variants :=
                           repeat {| sku := PStr "L-S";
                                     optionValues :=
                                       [{| optionName := AStr "Size";
                                           ov_name := PStr "S" |}] |} 99;
                         metafields := [] |})
    by (vm_compute; reflexivity).
  specialize (H _ hundred_variants Hmap eq_refl
                {| po_name := AStr "Size"; po_values := [AStr "S"; AStr "XL"] |}
                (AStr "XL")).
  destruct H as (v & val & Hv & Hassign & Hx); simpl; auto.
  assert (Hfirst : firstn 99 hundred_variants
                   = repeat (sample_variant "L-S"
                               [sample_attribute "Size" (PStr "S")]) 99)
    by (vm_compute; reflexivity).
  rewrite Hfirst in Hv. apply repeat_spec in Hv. subst v.
  destruct Hassign as (attrs & attribute & Hattrs & Hin & _ & Hval).
  inv_ok Hattrs. destruct Hin as [<-|[]].
  inv_ok Hval. discriminate Hx.
Qed.

(** ** The offset codec *)

(** *** [int(str(n))] *)

Lemma all_chars_app p s t :
  all_chars p (s ++ t)%string = all_chars p s && all_chars p t.
Proof.
  induction s as [|c s IH]; simpl; auto. now rewrite IH, andb_assoc.
Qed.

Lemma all_chars_impl (p q : ascii -> bool) s :
  (forall c, p c = true -> q c = true) ->
  all_chars p s = true -> all_chars q s = true.
Proof.
  intros H. induction s as [|c s IH]; simpl; auto.
  rewrite !andb_true_iff. intros (? & ?). auto.
Qed.

Lemma digits_of_uint d : all_chars is_digit (NilEmpty.string_of_uint d) = true.
Proof. induction d; simpl; auto. Qed.

Lemma string_of_uint_nonnil d :
  d <> Decimal.Nil -> NilZero.string_of_uint d = NilEmpty.string_of_uint d.
Proof. destruct d; auto. congruence. Qed.

Lemma lstrip_digits s :
  all_chars is_digit s = true -> lstrip s = s.
Proof.
  destruct s as [|c s]; simpl; auto. rewrite andb_true_iff. intros (Hc & _).
  assert (Hs : is_space c = false).
  { unfold is_digit, is_space in *. lia. }
  now rewrite Hs.
Qed.

Lemma rstrip_no_space s :
  all_chars (fun c => negb (is_space c)) s = true -> rstrip s = s.
Proof.
  induction s as [|c s IH]; simpl; auto.
  rewrite andb_true_iff, negb_true_iff. intros (Hc & Hs).
  rewrite (IH Hs). destruct s; [now rewrite Hc | reflexivity].
Qed.

Lemma digit_not_space c : is_digit c = true -> negb (is_space c) = true.
Proof. unfold is_digit, is_space. lia. Qed.

Lemma plain_digits_digits s : forall b,
  all_chars is_digit s = true -> (s <> EmptyString \/ b = true) ->
  plain_digits s b = Some s.
Proof.
  induction s as [|c s IH]; simpl; intros b Hd Hb.
  - destruct Hb as [Hb| ->]; [congruence | reflexivity].
  - apply andb_true_iff in Hd. destruct Hd as (Hc & Hs).
    rewrite Hc, (IH true Hs); auto.
Qed.

Lemma uint_string_nonempty d :
  d <> Decimal.Nil -> NilEmpty.string_of_uint d <> EmptyString.
Proof. destruct d; simpl; congruence. Qed.

Lemma int_of_digits d :
  d <> Decimal.Nil ->
  Z.of_nat (String.length (NilEmpty.string_of_uint d)) <= max_str_digits ->
  py_int_of_str (NilEmpty.string_of_uint d) = Ok (Z.of_uint d) /\
  py_int_of_str (String "-" (NilEmpty.string_of_uint d)) = Ok (- Z.of_uint d).
Proof.
  intros Hd Hlen.
  pose proof (digits_of_uint d) as Hdig.
  pose proof (uint_string_nonempty d Hd) as Hne.
  assert (Hns : all_chars (fun c => negb (is_space c))
                  (NilEmpty.string_of_uint d) = true).
  { eapply all_chars_impl; [apply digit_not_space | exact Hdig]. }
  assert (Hu : NilZero.uint_of_string (NilEmpty.string_of_uint d) = Some d).
  { rewrite <- (string_of_uint_nonnil d Hd). now apply NilZero.usu. }
  assert (Hlim : (max_str_digits
                  <? Z.of_nat (String.length (NilEmpty.string_of_uint d)))
                 = false) by now apply Z.ltb_ge.
  split; unfold py_int_of_str.
  - rewrite (lstrip_digits _ Hdig), (rstrip_no_space _ Hns).
    assert (Hsign :
      match NilEmpty.string_of_uint d with
      | String "-" rest => (true, rest)
      | String "+" rest => (false, rest)
      | _ => (false, NilEmpty.string_of_uint d)
      end = (false, NilEmpty.string_of_uint d)).
    { destruct d; try reflexivity. }
    rewrite Hsign, (plain_digits_digits _ false Hdig (or_introl Hne)), Hlim, Hu.
    reflexivity.
  - assert (Hl : lstrip (String "-" (NilEmpty.string_of_uint d))
                 = String "-" (NilEmpty.string_of_uint d)) by reflexivity.
    rewrite Hl.
    assert (Hr : rstrip (String "-" (NilEmpty.string_of_uint d))
                 = String "-" (NilEmpty.string_of_uint d)).
    { apply rstrip_no_space. simpl. exact Hns. }
    rewrite Hr, (plain_digits_digits _ false Hdig (or_introl Hne)), Hlim, Hu.
    reflexivity.
Qed.

Lemma decimal_pos p :
  decimal (Z.pos p) = NilEmpty.string_of_uint (Pos.to_uint p) /\
  decimal (Z.neg p) = String "-" (NilEmpty.string_of_uint (Pos.to_uint p)).
Proof.
  unfold decimal. simpl.
  now rewrite (string_of_uint_nonnil _ (Unsigned.to_uint_nonnil p)).
Qed.

Lemma digit_count_pos p :
  digit_count (Z.pos p)
  = Z.of_nat (String.length (NilEmpty.string_of_uint (Pos.to_uint p))) /\
  digit_count (Z.neg p) = digit_count (Z.pos p).
Proof.
  unfold digit_count. cbn [Z.abs].
  destruct (decimal_pos p) as (-> & _). split; reflexivity.
Qed.

(** [int(str(n)) == n] as long as [n] is within the digit limit. *)
Lemma int_of_decimal n :
  digit_count n <= max_str_digits -> py_int_of_str (decimal n) = Ok n.
Proof.
  destruct n as [|p|p]; intros Hlen.
  - reflexivity.
  - destruct (digit_count_pos p) as (Hc & _). rewrite Hc in Hlen.
    destruct (decimal_pos p) as (-> & _).
    destruct (int_of_digits _ (Unsigned.to_uint_nonnil p) Hlen) as (-> & _).
    unfold Z.of_uint. now rewrite DecimalPos.Unsigned.of_to.
  - destruct (digit_count_pos p) as (Hc & Hn). rewrite Hn, Hc in Hlen.
    destruct (decimal_pos p) as (_ & ->).
    destruct (int_of_digits _ (Unsigned.to_uint_nonnil p) Hlen) as (_ & ->).
    unfold Z.of_uint. now rewrite DecimalPos.Unsigned.of_to.
Qed.

Lemma py_str_of_int_cases n :
  (digit_count n <= max_str_digits -> py_str_of_int n = Ok (decimal n)) /\
  (max_str_digits < digit_count n -> py_str_of_int n = Raise ValueError).
Proof.
  unfold py_str_of_int. split; intros H.
  - apply Z.leb_le in H. now rewrite H.
  - apply Z.leb_gt in H. now rewrite H.
Qed.

(** The characters of [str(n)] are digits or the minus sign, all plain. *)
Lemma digit_plain c : is_digit c = true -> plain_char c = true.
Proof.
  intros H. unfold plain_char.
  assert (Hq : Ascii.eqb c dquote = false).
  { apply Ascii.eqb_neq. intros ->. discriminate H. }
  assert (Hb : Ascii.eqb c "\" = false).
  { apply Ascii.eqb_neq. intros ->. discriminate H. }
  rewrite Hq, Hb. unfold is_digit in H. simpl. lia.
Qed.

Lemma decimal_plain n : all_chars plain_char (decimal n) = true.
Proof.
  destruct n as [|p|p].
  - reflexivity.
  - destruct (decimal_pos p) as (-> & _).
    eapply all_chars_impl; [apply digit_plain | apply digits_of_uint].
  - destruct (decimal_pos p) as (_ & ->). simpl.
    eapply all_chars_impl; [apply digit_plain | apply digits_of_uint].
Qed.

(** *** The digit limit in numbers: [n] has at most [k] digits when
    [|n| < 10 ^ k] *)

Lemma length_string_of_uint d :
  String.length (NilEmpty.string_of_uint d) = Decimal.nb_digits d.
Proof. induction d; simpl; auto. Qed.

Lemma pow10_succ k : 10 ^ Z.of_nat (S k) = 10 * 10 ^ Z.of_nat k.
Proof. rewrite Nat2Z.inj_succ, Z.pow_succ_r; lia. Qed.

Lemma of_lu_upper d :
  Z.of_N (DecimalPos.Unsigned.of_lu d) < 10 ^ Z.of_nat (Decimal.nb_digits d).
Proof.
  induction d; cbn [DecimalPos.Unsigned.of_lu Decimal.nb_digits];
    rewrite ?pow10_succ; lia.
Qed.

Lemma of_lu_lower d :
  DecimalFacts.nztail d = d -> d <> Decimal.Nil ->
  10 ^ Z.of_nat (Nat.pred (Decimal.nb_digits d))
  <= Z.of_N (DecimalPos.Unsigned.of_lu d).
Proof.
  assert (Hstep : forall u,
    (DecimalFacts.nztail u = u -> u <> Decimal.Nil ->
     10 ^ Z.of_nat (Nat.pred (Decimal.nb_digits u)) <= Z.of_N (DecimalPos.Unsigned.of_lu u)) ->
    DecimalFacts.nztail u = u -> u <> Decimal.Nil ->
    10 ^ Z.of_nat (Decimal.nb_digits u) <= 10 * Z.of_N (DecimalPos.Unsigned.of_lu u)).
  { intros u IH Hn Hu. specialize (IH Hn Hu).
    destruct u; try congruence; cbn [Decimal.nb_digits Nat.pred] in *;
      rewrite pow10_succ; lia. }
  induction d; intros Hn Hd; try congruence;
    cbn [DecimalFacts.nztail] in Hn;
    cbn [DecimalPos.Unsigned.of_lu Decimal.nb_digits Nat.pred].
  1:{ assert (Hne : d <> Decimal.Nil) by (intros ->; discriminate Hn).
      assert (E : DecimalFacts.nztail d = d)
        by (destruct (DecimalFacts.nztail d); try discriminate;
            now injection Hn).
      pose proof (Hstep d IHd E Hne). lia. }
  all: injection Hn as Hn;
    (destruct d as [| | | | | | | | | |];
     [cbn; lia | ..]);
    pose proof (Hstep _ IHd Hn ltac:(discriminate)); lia.
Qed.

Lemma to_little_uint_normal p :
  DecimalFacts.nztail (Pos.to_little_uint p) = Pos.to_little_uint p /\
  Pos.to_little_uint p <> Decimal.Nil /\
  DecimalPos.Unsigned.of_lu (Pos.to_little_uint p) = N.pos p.
Proof.
  assert (Hv : DecimalPos.Unsigned.of_lu (Pos.to_little_uint p) = N.pos p).
  { rewrite <- (DecimalPos.Unsigned.of_to p). unfold Pos.to_uint.
    now rewrite DecimalPos.Unsigned.of_lu_rev. }
  pose proof (DecimalPos.Unsigned.to_of_lu (Pos.to_little_uint p)) as H.
  rewrite Hv in H. cbn [DecimalPos.Unsigned.to_lu] in H. unfold DecimalFacts.lnorm in H.
  destruct (DecimalFacts.nztail (Pos.to_little_uint p)) eqn:E;
    [exfalso; rewrite H in Hv; discriminate Hv | ..];
    (split; [exact (eq_sym H)|]); (split; [|exact Hv]);
    rewrite H; discriminate.
Qed.

Lemma nb_digits_pos p k :
  (1 <= k)%nat ->
  (Decimal.nb_digits (Pos.to_uint p) <= k)%nat <-> Z.pos p < 10 ^ Z.of_nat k.
Proof.
  intros Hk. unfold Pos.to_uint. rewrite DecimalFacts.nb_digits_rev.
  destruct (to_little_uint_normal p) as (Hn & Hd & Hv).
  pose proof (of_lu_upper (Pos.to_little_uint p)) as Hup.
  pose proof (of_lu_lower _ Hn Hd) as Hlo.
  rewrite Hv in Hup, Hlo. cbn [Z.of_N] in Hup, Hlo.
  set (m := Decimal.nb_digits (Pos.to_little_uint p)) in *.
  split; intros H.
  - eapply Z.lt_le_trans; [exact Hup|].
    apply Z.pow_le_mono_r; lia.
  - destruct (Nat.le_gt_cases m k) as [|Hgt]; auto. exfalso.
    assert (10 ^ Z.of_nat k <= 10 ^ Z.of_nat (Nat.pred m))
      by (apply Z.pow_le_mono_r; lia).
    lia.
Qed.

Lemma digit_count_le n k :
  1 <= k -> (digit_count n <= k <-> Z.abs n < 10 ^ k).
Proof.
  intros Hk. destruct n as [|p|p].
  - split; intros _.
    + apply Z.pow_pos_nonneg; lia.
    + change (digit_count 0) with 1. exact Hk.
  - destruct (digit_count_pos p) as (-> & _).
    rewrite length_string_of_uint. cbn [Z.abs].
    rewrite <- (Z2Nat.id k) by lia.
    rewrite <- (nb_digits_pos p (Z.to_nat k)) by lia. lia.
  - destruct (digit_count_pos p) as (Hc & ->). rewrite Hc.
    rewrite length_string_of_uint. cbn [Z.abs].
    rewrite <- (Z2Nat.id k) by lia.
    rewrite <- (nb_digits_pos p (Z.to_nat k)) by lia. lia.
Qed.

Lemma within_digit_limit n :
  Z.abs n < 10 ^ max_str_digits -> digit_count n <= max_str_digits.
Proof. apply digit_count_le. unfold max_str_digits. lia. Qed.

Lemma beyond_digit_limit n :
  10 ^ max_str_digits <= Z.abs n -> max_str_digits < digit_count n.
Proof.
  intros H. apply Z.nle_gt. intros Hle.
  apply digit_count_le in Hle; [lia | unfold max_str_digits; lia].
Qed.

(** *** [json.loads(json.dumps(...))] on the offset message *)

Lemma code_range c : 0 <= code c < 256.
Proof.
  unfold code. pose proof (N_ascii_bounded c). lia.
Qed.

Lemma chr_code c : chr (code c) = c.
Proof.
  unfold chr, code. rewrite N2Z.id. apply ascii_N_embedding.
Qed.

Lemma plain_char_spec c :
  plain_char c = true ->
  32 <= code c <= 126 /\ Ascii.eqb c dquote = false /\ Ascii.eqb c "\" = false.
Proof.
  unfold plain_char. rewrite !andb_true_iff, !negb_true_iff.
  intros (((H1 & H2) & H3) & H4). repeat split; try assumption; lia.
Qed.

Lemma json_escape_plain c :
  plain_char c = true -> json_escape c = String c EmptyString.
Proof.
  intros H. apply plain_char_spec in H. destruct H as (Hr & Hq & Hb).
  unfold json_escape. rewrite Hq, Hb.
  replace (code c =? 10) with false by lia.
  replace (code c =? 13) with false by lia.
  replace (code c =? 9) with false by lia.
  replace (code c =? 8) with false by lia.
  replace (code c =? 12) with false by lia.
  replace ((32 <=? code c) && (code c <=? 126)) with true by lia.
  reflexivity.
Qed.

Lemma json_quote_body_plain s :
  all_chars plain_char s = true -> json_quote_body s = s.
Proof.
  induction s as [|c s IH]; simpl; auto.
  rewrite andb_true_iff. intros (Hc & Hs).
  now rewrite (json_escape_plain c Hc), (IH Hs).
Qed.

Lemma string_app_nil (s : string) : (s ++ EmptyString)%string = s.
Proof. induction s; simpl; congruence. Qed.

Lemma string_app_assoc (a b c : string) :
  ((a ++ b) ++ c)%string = (a ++ (b ++ c))%string.
Proof. induction a; simpl; congruence. Qed.

Lemma json_dumps_offset s :
  all_chars plain_char s = true ->
  json_dumps (PDict [("offset", PStr s)]) = Ok (offset_text s).
Proof.
  intros H. cbn. rewrite (json_quote_body_plain s H).
  rewrite string_app_nil, string_app_assoc. reflexivity.
Qed.

Lemma scan_string_plain s rest :
  all_chars plain_char s = true ->
  scan_string (s ++ String dquote rest) = Ok (s, rest).
Proof.
  induction s as [|c s IH]; intros H.
  - reflexivity.
  - simpl in H. apply andb_true_iff in H. destruct H as (Hc & Hs).
    apply plain_char_spec in Hc. destruct Hc as (Hr & Hq & Hb).
    change ((String c s ++ String dquote rest)%string)
      with (String c (s ++ String dquote rest)).
    cbn [scan_string]. rewrite Hq, Hb.
    replace (code c <? 32) with false by lia.
    rewrite (IH Hs). reflexivity.
Qed.

Lemma json_loads_offset s :
  all_chars plain_char s = true ->
  json_loads (offset_text s) = Ok (PDict [("offset", PStr s)]).
Proof.
  intros H. unfold json_loads.
  destruct (2 * String.length (offset_text s))%nat as [|f] eqn:Hf;
    [simpl in Hf; lia|].
  unfold offset_text. cbn.
  rewrite (scan_string_plain s _ H). reflexivity.
Qed.

(** *** UTF-8 on ASCII text *)

Lemma utf8_encode_ascii s : is_ascii s = true -> utf8_encode s = s.
Proof.
  unfold is_ascii. induction s as [|c s IH]; simpl; auto.
  rewrite andb_true_iff. intros (Hc & Hs). now rewrite Hc, (IH Hs).
Qed.

Lemma utf8_decode_ascii s : is_ascii s = true -> utf8_decode s = Ok s.
Proof.
  unfold is_ascii. induction s as [|c s IH]; simpl; auto.
  rewrite andb_true_iff. intros (Hc & Hs). now rewrite Hc, (IH Hs).
Qed.

Lemma plain_is_ascii s : all_chars plain_char s = true -> is_ascii s = true.
Proof.
  apply all_chars_impl. intros c Hc. apply plain_char_spec in Hc. lia.
Qed.

Lemma offset_text_ascii s :
  all_chars plain_char s = true -> is_ascii (offset_text s) = true.
Proof.
  intros H. apply plain_is_ascii in H. unfold is_ascii in *.
  unfold offset_text. cbn. rewrite all_chars_app, H. reflexivity.
Qed.

(** *** Base64 *)

Lemma b64_sextet n :
  0 <= n < 64 ->
  b64_index (b64_char n) = Some n /\
  Ascii.eqb (b64_char n) "=" = false /\
  (code (b64_char n) <? 128) = true.
Proof.
  intros H.
  assert (Hk : exists k, (k < 64)%nat /\ n = Z.of_nat k).
  { exists (Z.to_nat n). split; lia. }
  destruct Hk as (k & Hk & ->). clear H.
  do 64 (destruct k as [|k]; [repeat split; reflexivity|]).
  lia.
Qed.

Lemma a2b_char n rest q l p :
  0 <= n < 64 ->
  a2b_base64 (String (b64_char n) rest) q l p =
  match q with
  | O => a2b_base64 rest 1 n 0
  | 1%nat =>
      tl <- a2b_base64 rest 2 (n mod 16) 0 ;;
      Ok (String (chr (l * 4 + n / 16)) tl)
  | 2%nat =>
      tl <- a2b_base64 rest 3 (n mod 4) 0 ;;
      Ok (String (chr (l * 16 + n / 4)) tl)
  | _ =>
      tl <- a2b_base64 rest 0 0 0 ;;
      Ok (String (chr (l * 64 + n)) tl)
  end.
Proof.
  intros H. destruct (b64_sextet n H) as (Hi & He & _).
  cbn [a2b_base64]. rewrite He, Hi. reflexivity.
Qed.

Lemma string_triples (P : string -> Prop) :
  P EmptyString ->
  (forall x, P (String x EmptyString)) ->
  (forall x y, P (String x (String y EmptyString))) ->
  (forall x y z rest, P rest -> P (String x (String y (String z rest)))) ->
  forall s, P s.
Proof.
  intros H0 H1 H2 H3 s.
  assert (H : P s /\ (forall a, P (String a s)) /\
              (forall a b, P (String a (String b s)))).
  { induction s as [|c s (IH0 & IH1 & IH2)]; auto. }
  apply H.
Qed.

Ltac sextets x y z :=
  pose proof (code_range x); pose proof (code_range y);
  pose proof (code_range z).

Ltac sextet_arith := Z.div_mod_to_equations; lia.

Ltac byte_eq x :=
  transitivity (chr (code x)); [f_equal; sextet_arith | apply chr_code].

Lemma b64_roundtrip b : a2b_base64 (b64encode b) 0 0 0 = Ok b.
Proof.
  induction b as [|x|x y|x y z rest IH] using string_triples.
  - reflexivity.
  - sextets x x x. cbn [b64encode].
    rewrite a2b_char by sextet_arith. rewrite a2b_char by sextet_arith.
    cbn. f_equal. f_equal.
    byte_eq x.
  - sextets x y y. cbn [b64encode].
    rewrite a2b_char by sextet_arith. rewrite a2b_char by sextet_arith.
    rewrite a2b_char by sextet_arith.
    cbn. f_equal. f_equal; [|f_equal].
    + byte_eq x.
    + byte_eq y.
  - sextets x y z. cbn [b64encode].
    rewrite a2b_char by sextet_arith. rewrite a2b_char by sextet_arith.
    rewrite a2b_char by sextet_arith. rewrite a2b_char by sextet_arith.
    rewrite IH. cbn [bind]. f_equal. f_equal; [|f_equal; [|f_equal]].
    + byte_eq x.
    + byte_eq y.
    + byte_eq z.
Qed.

Lemma b64encode_ascii b : is_ascii (b64encode b) = true.
Proof.
  unfold is_ascii.
  induction b as [|x|x y|x y z rest IH] using string_triples.
  - reflexivity.
  - sextets x x x. cbn [b64encode all_chars].
    rewrite !(fun n H => proj2 (proj2 (b64_sextet n H))) by sextet_arith.
    reflexivity.
  - sextets x y y. cbn [b64encode all_chars].
    rewrite !(fun n H => proj2 (proj2 (b64_sextet n H))) by sextet_arith.
    reflexivity.
  - sextets x y z. cbn [b64encode all_chars].
    rewrite !(fun n H => proj2 (proj2 (b64_sextet n H))) by sextet_arith.
    exact IH.
Qed.

Lemma b64decode_encode b : b64decode (PStr (b64encode b)) = Ok b.
Proof.
  unfold b64decode. rewrite b64encode_ascii. apply b64_roundtrip.
Qed.

(** *** The round trip *)

Lemma offset_bytes_cases n :
  (Z.abs n < 10 ^ max_str_digits ->
   offset_bytes n = Ok (offset_message n)) /\
  (10 ^ max_str_digits <= Z.abs n -> offset_bytes n = Raise ValueError).
Proof.
  destruct (py_str_of_int_cases n) as (Hok & Hbig).
  unfold offset_bytes. split; intros H.
  - rewrite (Hok (within_digit_limit n H)). cbn [bind].
    rewrite (json_dumps_offset _ (decimal_plain n)). cbn [bind].
    rewrite (utf8_encode_ascii _ (offset_text_ascii _ (decimal_plain n))).
    reflexivity.
  - now rewrite (Hbig (beyond_digit_limit n H)).
Qed.

(** [publish_offset] publishes the message of its offset, unless the
    offset is beyond the digit limit of [str]: then it raises and nothing
    is published. *)
Lemma publish_offset_cases n t :
  (Z.abs n < 10 ^ max_str_digits ->
   publish_offset n t = Returned tt (Published (offset_message n) :: t)) /\
  (10 ^ max_str_digits <= Z.abs n ->
   publish_offset n t = Raised ValueError t).
Proof.
  destruct (offset_bytes_cases n) as (Hok & Hbig).
  unfold publish_offset, io_bind, lift, emit. split; intros H.
  - now rewrite (Hok H).
  - now rewrite (Hbig H).
Qed.

Lemma event_offset_published n :
  Z.abs n < 10 ^ max_str_digits ->
  event_offset (pubsub_event (offset_message n)) = Ok n.
Proof.
  intros Hlen. apply within_digit_limit in Hlen.
  pose proof (decimal_plain n) as Hplain.
  unfold event_offset, pubsub_event, offset_message.
  remember (offset_text (decimal n)) as msg eqn:Hmsg.
  cbn [subscript dict_get String.eqb Ascii.eqb Bool.eqb bind].
  rewrite b64decode_encode. cbn [bind]. subst msg.
  rewrite (utf8_decode_ascii _ (offset_text_ascii _ Hplain)). cbn [bind].
  rewrite (json_loads_offset _ Hplain).
  cbn [subscript dict_get String.eqb Ascii.eqb Bool.eqb bind py_int].
  now apply int_of_decimal.
Qed.

(** C10.  For every integer [n] of at most 4300 decimal digits, the
    message that [publish_offset n] publishes is the text
    [{"offset": "<n>"}] with [n] in decimal; delivered as a Pub/Sub event
    (its data in Base64) it is decoded by [process_product] to exactly
    [n], so that the invocation it triggers is [sync_products n].  For an
    [n] of more digits [str] raises [ValueError] and nothing is
    published. *)
Theorem C10_offset_round_trip n :
  (Z.abs n < 10 ^ max_str_digits ->
   (forall t,
      publish_offset n t = Returned tt (Published (offset_message n) :: t)) /\
   event_offset (pubsub_event (offset_message n)) = Ok n /\
   (forall w set_order fuel t,
      Main.process_product w set_order fuel (pubsub_event (offset_message n)) t
      = (_ <~ Main.sync_products w set_order fuel n ;; ret tt) t)) /\
  (10 ^ max_str_digits <= Z.abs n ->
   forall t, publish_offset n t = Raised ValueError t).
Proof.
  split.
  - intros Hlen. split; [|split].
    + intros t. now apply publish_offset_cases.
    + now apply event_offset_published.
    + intros w set_order fuel t. unfold Main.process_product.
      unfold io_bind at 1. now rewrite (event_offset_published n Hlen).
  - intros Hbig t. now apply publish_offset_cases.
Qed.

Lemma C10_offset_round_trip_witness :
  (publish_offset 120 [] = Returned tt [Published (offset_text "120")] /\
   event_offset (pubsub_event (offset_text "120")) = Ok 120) /\
  publish_offset (10 ^ 4300) [] = Raised ValueError [].
Proof.
  split.
  - destruct (C10_offset_round_trip 120) as (Hok & _).
    destruct Hok as (Hpub & Hdecode & _); [now vm_compute|].
    split; [apply Hpub | exact Hdecode].
  - destruct (C10_offset_round_trip (10 ^ 4300)) as (_ & Hbig).
    apply Hbig. vm_compute. discriminate.
Defined.

(** C10, as stated, fails: [10 ^ 4300] is a non-negative integer, and
    [publish_offset] raises on it instead of publishing a message. *)
Lemma C10_counterexample :
  ~ offset_round_trips (10 ^ max_str_digits).
Proof.
  intros H. destruct (H []) as (message & Hpub & _).
  destruct (publish_offset_cases (10 ^ max_str_digits) []) as (_ & Hbig).
  assert (Hlarge : 10 ^ max_str_digits <= Z.abs (10 ^ max_str_digits)).
  { rewrite Z.abs_eq; [apply Z.le_refl|]. apply Z.pow_nonneg. lia. }
  pose proof (eq_trans (eq_sym (Hbig Hlarge)) Hpub) as Habs.
  discriminate Habs.
Qed.

(** ** The orchestrator of [main.py] *)

Lemma send_responds w rq t r :
  net w t rq = Responds r ->
  send w rq t = Returned r (Requested rq (Responds r) :: t).
Proof. unfold send. now intros ->. Qed.

(** C5.  When the catalog answers the fetch with a status other than 200,
    [sync_products] of [main.py] logs the failure and returns [None]: the
    fetch is the only request made, nothing is submitted, no offset is
    published and no completion mail is sent. *)
Theorem C5_fetch_failure_stops w set_order fuel offset t r :
  net w t (GetProducts 1 offset) = Responds r ->
  status_code r <> 200 ->
  exists new,
    Main.sync_products w set_order fuel offset t = Returned PNone (new ++ t) /\
    new = [Printed (FetchError (status_code r));
           Requested (GetProducts 1 offset) (Responds r)] /\
    submissions new = [] /\ published new = [] /\ mails new = O.
Proof.
  intros Hnet Hstatus. eexists. split; [|repeat split].
  unfold Main.sync_products, io_bind.
  rewrite (send_responds _ _ _ _ Hnet).
  apply Z.eqb_neq in Hstatus. rewrite Hstatus. reflexivity.
Qed.

(** C6.  When the fetch succeeds and the page of results is empty,
    [sync_products] of [main.py] sends the completion mail once and
    returns: nothing is submitted and no offset is published. *)
Theorem C6_empty_page_completes w set_order fuel offset t r data :
  net w t (GetProducts 1 offset) = Responds r ->
  status_code r = 200 ->
  json_body r = Some data ->
  subscript data "results" = Ok (PList []) ->
  exists new,
    Main.sync_products w set_order fuel offset t
    = Returned (PStr "Sync Complete!") (new ++ t) /\
    mails new = 1%nat /\ published new = [] /\ submissions new = [].
Proof.
  intros Hnet Hstatus Hbody Hres.
  exists [Printed (if sendgrid w (Requested (GetProducts 1 offset) (Responds r) :: t)
                   then EmailSent else EmailError);
          Mailed (sendgrid w (Requested (GetProducts 1 offset) (Responds r) :: t));
          Requested (GetProducts 1 offset) (Responds r)].
  split; [|repeat split].
  unfold Main.sync_products, io_bind.
  rewrite (send_responds _ _ _ _ Hnet), Hstatus. simpl.
  unfold json, lift. rewrite Hbody, Hres. reflexivity.
Qed.

(** ** The poller *)

Lemma py_eq_atom_str v s : py_eq_atom v (AStr s) = true <-> v = PStr s.
Proof.
  unfold py_eq_atom. destruct v as [|b|z|s'|l|d]; simpl; split;
    try discriminate; try (destruct b; discriminate).
  - unfold atom_eqb. simpl. intros H. apply String.eqb_eq in H. congruence.
  - intros [= ->]. unfold atom_eqb. simpl. apply String.eqb_refl.
Qed.

Lemma py_eq_atom_str_false v s : v <> PStr s -> py_eq_atom v (AStr s) = false.
Proof.
  intros H. destruct (py_eq_atom v (AStr s)) eqn:E; auto.
  apply py_eq_atom_str in E. contradiction.
Qed.

Lemma poll_step_incomplete w fuel id t r :
  net w t (ProductOperation id) = Responds r ->
  reports_incomplete (Responds r) ->
  Main.check_operation_status w (S fuel) id t
  = Main.check_operation_status w fuel id
      (Slept 2 :: Requested (ProductOperation id) (Responds r) :: t).
Proof.
  intros Hnet (r' & data & status & Hr & Hbody & Hstatus & Hne).
  inv_ok Hr. unfold operation_field in Hstatus.
  cbn [Main.check_operation_status]. unfold io_bind at 1.
  rewrite (send_responds _ _ _ _ Hnet).
  unfold json, lift, io_bind. rewrite Hbody, Hstatus.
  rewrite (py_eq_atom_str_false _ _ Hne). reflexivity.
Qed.

Lemma poll_step_complete w fuel id t r product_id errors :
  net w t (ProductOperation id) = Responds r ->
  reports_complete (Responds r) product_id errors ->
  Main.check_operation_status w (S fuel) id t
  = Returned (PStr "COMPLETE", product_id, errors)
      (Requested (ProductOperation id) (Responds r) :: t).
Proof.
  intros Hnet (r' & data & product & Hr & Hbody & Hstatus & Hprod & Hid & Herr).
  inv_ok Hr. unfold operation_field in *.
  cbn [Main.check_operation_status]. unfold io_bind at 1.
  rewrite (send_responds _ _ _ _ Hnet).
  unfold json, lift, io_bind. rewrite Hbody, Hstatus.
  assert (Hc : py_eq_atom (PStr "COMPLETE") (AStr "COMPLETE") = true)
    by reflexivity.
  rewrite Hc, Hprod.
  destruct Hid as [(-> & ->)|(Hne & Hid)].
  - rewrite Herr. reflexivity.
  - destruct product; try contradiction; rewrite Hid, Herr; reflexivity.
Qed.

(** A status query that fails ends the poll with its exception. *)
Lemma poll_query_failure_propagates w fuel id t :
  net w t (ProductOperation id) = Unreachable ->
  Main.check_operation_status w (S fuel) id t
  = Raised RequestException (Requested (ProductOperation id) Unreachable :: t).
Proof.
  intros Hnet. cbn [Main.check_operation_status]. unfold io_bind at 1.
  unfold send. now rewrite Hnet.
Qed.

Lemma poll_returns_only_complete w fuel : forall id t res t',
  Main.check_operation_status w fuel id t = Returned res t' ->
  exists t0 r,
    t' = Requested (ProductOperation id) (Responds r) :: t0 /\
    net w t0 (ProductOperation id) = Responds r /\
    fst (fst res) = PStr "COMPLETE" /\
    reports_complete (Responds r) (snd (fst res)) (snd res).
Proof.
  induction fuel as [|fuel IH]; intros id t res t' H; [discriminate|].
  cbn [Main.check_operation_status] in H. unfold io_bind at 1 in H.
  unfold send in H.
  destruct (net w t (ProductOperation id)) as [r|] eqn:Hnet; [|discriminate].
  unfold json, lift, io_bind in H.
  destruct (json_body r) as [data|] eqn:Hbody; [|discriminate].
  destruct (path data ["data"; "productOperation"; "status"])
    as [status|] eqn:Hstatus; [|discriminate].
  destruct (py_eq_atom status (AStr "COMPLETE")) eqn:Hc.
  - apply py_eq_atom_str in Hc. subst status.
    destruct (path data ["data"; "productOperation"; "product"])
      as [product|] eqn:Hprod; [|discriminate].
    destruct (match product with
              | PNone => Ok PNone
              | _ => py_get product "id" PNone
              end) as [pid|] eqn:Hpid; [|discriminate].
    destruct (path data ["data"; "productOperation"; "userErrors"])
      as [errors|] eqn:Herr; [|discriminate].
    unfold ret in H. injection H as <- <-.
    exists t, r. repeat split; auto.
    exists r, data, product. repeat split; auto.
    destruct product; try (right; split; [discriminate | exact Hpid]).
    left. inv_ok Hpid. auto.
  - unfold emit in H. apply IH in H.
    destruct H as (t0 & r0 & -> & ? & ? & ?). exists t0, r0. auto.
Qed.

(** A status query that is answered neither by a well-formed status
    response of another status nor by a well-formed COMPLETE response ends
    the poll with an exception, that query being its last event. *)
Lemma poll_step_malformed w fuel id t :
  ~ reports_incomplete (net w t (ProductOperation id)) ->
  (forall product_id errors,
     ~ reports_complete (net w t (ProductOperation id)) product_id errors) ->
  exists e,
    Main.check_operation_status w (S fuel) id t
    = Raised e (Requested (ProductOperation id)
                  (net w t (ProductOperation id)) :: t).
Proof.
  intros Hinc Hcomp. cbn [Main.check_operation_status].
  unfold io_bind, send, json, lift, ret, emit.
  destruct (net w t (ProductOperation id)) as [r|] eqn:Hnet;
    [|eexists; reflexivity].
  destruct (json_body r) as [data|] eqn:Hbody; [|eexists; reflexivity].
  destruct (path data ["data"; "productOperation"; "status"])
    as [status|] eqn:Hstatus; [|eexists; reflexivity].
  destruct (py_eq_atom status (AStr "COMPLETE")) eqn:Hc.
  - apply py_eq_atom_str in Hc. subst status.
    destruct (path data ["data"; "productOperation"; "product"])
      as [product|] eqn:Hprod; [|eexists; reflexivity].
    destruct (match product with
              | PNone => Ok PNone
              | _ => py_get product "id" PNone
              end) as [pid|] eqn:Hpid; [|eexists; reflexivity].
    destruct (path data ["data"; "productOperation"; "userErrors"])
      as [errors|] eqn:Herr; [|eexists; reflexivity].
    exfalso. apply (Hcomp pid errors).
    exists r, data, product. repeat split; auto.
    destruct product; try (right; split; [discriminate | exact Hpid]).
    left. inv_ok Hpid. auto.
  - exfalso. apply Hinc. exists r, data, status. repeat split; auto.
    intros ->. discriminate Hc.
Qed.

(** C8.  [check_operation_status] returns at the first status query that
    reports COMPLETE, with ["COMPLETE"], the product id of that response
    ([None] when its product is [None]) and its user errors; whenever it
    returns, its last query reported COMPLETE; as long as the queries are
    answered by status responses of another status it keeps polling:
    whatever number of queries is followed, it is still waiting after
    them; and a query answered by anything else (a failed request, a body
    that is not JSON or has no [data.productOperation.status], a COMPLETE
    body without [product] or [userErrors]) ends the call at once with an
    exception. *)
Theorem C8_poll_until_complete w id :
  (forall k t t' r product_id errors fuel,
      waits w id k t t' ->
      net w t' (ProductOperation id) = Responds r ->
      reports_complete (Responds r) product_id errors ->
      (k < fuel)%nat ->
      Main.check_operation_status w fuel id t
      = Returned (PStr "COMPLETE", product_id, errors)
          (Requested (ProductOperation id) (Responds r) :: t')) /\
  (forall r data product_id errors,
      reports_complete (Responds r) product_id errors ->
      json_body r = Some data ->
      operation_field data "product" = Ok PNone ->
      product_id = PNone) /\
  (forall fuel t res t',
      Main.check_operation_status w fuel id t = Returned res t' ->
      exists t0 r,
        t' = Requested (ProductOperation id) (Responds r) :: t0 /\
        net w t0 (ProductOperation id) = Responds r /\
        fst (fst res) = PStr "COMPLETE" /\
        reports_complete (Responds r) (snd (fst res)) (snd res)) /\
  (forall t,
      (forall k t', waits w id k t t' ->
                    reports_incomplete (net w t' (ProductOperation id))) ->
      forall fuel, exists t',
        waits w id fuel t t' /\
        Main.check_operation_status w fuel id t = Pending t') /\
  (forall k t t' fuel,
      waits w id k t t' ->
      ~ reports_incomplete (net w t' (ProductOperation id)) ->
      (forall product_id errors,
         ~ reports_complete (net w t' (ProductOperation id))
             product_id errors) ->
      (k < fuel)%nat ->
      exists e,
        Main.check_operation_status w fuel id t
        = Raised e (Requested (ProductOperation id)
                      (net w t' (ProductOperation id)) :: t')).
Proof.
  split; [|split; [|split; [|split]]].
  - intros k t t' r product_id errors fuel Hw. revert fuel.
    induction Hw as [t|k t r0 t' Hnet0 Hinc Hw IH]; intros fuel Hnet Hc Hlt.
    + destruct fuel as [|fuel]; [lia|]. now apply poll_step_complete.
    + destruct fuel as [|fuel]; [lia|].
      rewrite (poll_step_incomplete _ _ _ _ _ Hnet0 Hinc).
      apply IH; auto. lia.
  - intros r data product_id errors
           (r' & data' & product & Hr & Hbody & _ & Hprod & Hid & _) Hdata Hnone.
    inv_ok Hr. rewrite Hbody in Hdata. inv_ok Hdata.
    rewrite Hprod in Hnone. inv_ok Hnone.
    destruct Hid as [(_ & ->)|(Hne & _)]; [reflexivity | contradiction].
  - intros fuel t res t'. apply poll_returns_only_complete.
  - intros t Hall fuel. revert t Hall.
    induction fuel as [|fuel IH]; intros t Hall.
    + exists t. split; [constructor | reflexivity].
    + pose proof (Hall O t (waits_O _ _ _)) as Hinc.
      destruct Hinc as (r & data & status & Hnet & Hrest).
      assert (Hinc : reports_incomplete (Responds r)).
      { exists r, data, status. split; auto. }
      destruct (IH (Slept 2 :: Requested (ProductOperation id) (Responds r) :: t))
        as (t' & Hw & Hp).
      { intros k t' Hw. apply (Hall (S k)). econstructor; eauto. }
      exists t'. split.
      * econstructor; eauto.
      * rewrite (poll_step_incomplete _ _ _ _ _ Hnet Hinc). exact Hp.
  - intros k t t' fuel Hw. revert fuel.
    induction Hw as [t|k t r0 t' Hnet0 Hinc0 Hw IH]; intros fuel Hinc Hcomp Hlt.
    + destruct fuel as [|fuel]; [lia|]. now apply poll_step_malformed.
    + destruct fuel as [|fuel]; [lia|].
      rewrite (poll_step_incomplete _ _ _ _ _ Hnet0 Hinc0).
      apply IH; auto. lia.
Qed.

Lemma C5_fetch_failure_stops_witness :
  exists new,
    Main.sync_products failing_catalog insertion_order 3 7 [] = Returned PNone (new ++ []) /\
    new = [Printed (FetchError 500);
           Requested (GetProducts 1 7)
             (Responds {| status_code := 500; json_body := None |})] /\
    submissions new = [] /\ published new = [] /\ mails new = O.
Proof.
  apply (C5_fetch_failure_stops failing_catalog insertion_order 3 7 []
           {| status_code := 500; json_body := None |}).
  - reflexivity.
  - simpl. lia.
Defined.

Lemma C6_empty_page_completes_witness :
  exists new,
    Main.sync_products (shop_world (PList [])) insertion_order 3 7 []
    = Returned (PStr "Sync Complete!") (new ++ []) /\
    mails new = 1%nat /\ published new = [] /\ submissions new = [].
Proof.
  apply (C6_empty_page_completes (shop_world (PList [])) insertion_order 3 7 []
           {| status_code := 200;
              json_body := Some (PDict [("results", PList [])]) |}
           (PDict [("results", PList [])])); reflexivity.
Defined.

Ltac running_reply :=
  do 3 eexists;
  split; [reflexivity|]; split; [reflexivity|];
  split; [reflexivity | discriminate].

Lemma throttled_not_complete t id :
  ~ says_complete (net throttled_shop t (ProductOperation id)).
Proof.
  intros (r & data & Hr & Hbody & Hstatus).
  cbn in Hr. injection Hr as <-. cbn in Hbody. injection Hbody as <-.
  vm_compute in Hstatus. discriminate Hstatus.
Qed.

Lemma throttled_not_incomplete t id :
  ~ reports_incomplete (net throttled_shop t (ProductOperation id)).
Proof.
  intros (r & data & status & Hr & Hbody & Hstatus & _).
  cbn in Hr. injection Hr as <-. cbn in Hbody. injection Hbody as <-.
  vm_compute in Hstatus. discriminate Hstatus.
Qed.

Lemma reports_complete_says rp product_id errors :
  reports_complete rp product_id errors -> says_complete rp.
Proof.
  intros (r & data & product & Hr & Hbody & Hstatus & _).
  exists r, data. auto.
Qed.

Lemma C8_poll_until_complete_witness :
  (exists t',
     Main.check_operation_status (shop_world (PList [])) 5 sample_operation_id []
     = Returned (PStr "COMPLETE", sample_product_id, PList []) t' /\
     status_queries t' = 3%nat) /\
  (exists t',
     Main.check_operation_status stuck_world 9 sample_operation_id []
     = Pending t' /\ status_queries t' = 9%nat) /\
  (exists e,
     Main.check_operation_status throttled_shop 9 sample_operation_id []
     = Raised e [Requested (ProductOperation sample_operation_id)
                   (net throttled_shop [] (ProductOperation sample_operation_id))]).
Proof.
  destruct (C8_poll_until_complete (shop_world (PList [])) sample_operation_id)
    as (Hreturns & _).
  destruct (C8_poll_until_complete stuck_world sample_operation_id)
    as (_ & _ & _ & Hwaits & _).
  destruct (C8_poll_until_complete throttled_shop sample_operation_id)
    as (_ & _ & _ & _ & Hraises).
  split; [|split].
  - eexists. split.
    + apply (Hreturns 2%nat).
      * eapply waits_S; [reflexivity| |].
        { running_reply. }
        eapply waits_S; [reflexivity| |].
        { running_reply. }
        apply waits_O.
      * reflexivity.
      * do 3 eexists. split; [reflexivity|]. split; [reflexivity|].
        split; [reflexivity|]. split; [reflexivity|].
        split; [right; split; [discriminate | reflexivity] | reflexivity].
      * lia.
    + reflexivity.
  - destruct (Hwaits []) with (fuel := 9%nat) as (t' & _ & Hp).
    + intros k t' _. running_reply.
    + exists t'. split; [exact Hp|].
      vm_compute in Hp. injection Hp as <-. reflexivity.
  - apply (Hraises O [] [] 9%nat).
    + apply waits_O.
    + apply throttled_not_incomplete.
    + intros product_id errors Hc.
      exact (throttled_not_complete _ _ (reports_complete_says _ _ _ Hc)).
    + lia.
Defined.

(** C8, as stated, fails: the shop answers every status query with a
    GraphQL error, so that no query reports COMPLETE, and the poll ends at
    its first query, with [KeyError]. *)
Lemma C8_counterexample :
  ~ polls_forever_unless_complete throttled_shop sample_operation_id.
Proof.
  intros H.
  destruct (H (fun t => throttled_not_complete t sample_operation_id)
              1%nat []) as (t' & Hp).
  vm_compute in Hp. discriminate Hp.
Qed.

(** ** Containment of per-record failures *)

Lemma submissions_app a b : submissions (a ++ b) = submissions b ++ submissions a.
Proof.
  induction a as [|e a IH]; simpl; [now rewrite app_nil_r|].
  destruct e as [rq rp| | | |]; auto.
  destruct rq; auto. now rewrite IH, app_assoc.
Qed.

Lemma published_app a b : published (a ++ b) = published b ++ published a.
Proof.
  induction a as [|e a IH]; simpl; [now rewrite app_nil_r|].
  destruct e; auto. now rewrite IH, app_assoc.
Qed.

Lemma mails_app a b : mails (a ++ b) = (mails a + mails b)%nat.
Proof.
  induction a as [|e a IH]; simpl; auto. destruct e; simpl; auto.
Qed.

Lemma quiet_nil : quiet [].
Proof. repeat split. Qed.

Lemma quiet_app a b : quiet a -> quiet b -> quiet (a ++ b).
Proof.
  intros (S1 & P1 & M1) (S2 & P2 & M2). unfold quiet.
  now rewrite submissions_app, published_app, mails_app, S1, S2, P1, P2, M1, M2.
Qed.

Lemma silent_ret {A} (a : A) : silent (ret a).
Proof. intros t. exists []. split; [reflexivity | apply quiet_nil]. Qed.

Lemma silent_lift {A} (r : result A) : silent (lift r).
Proof.
  intros t. exists []. split; [|apply quiet_nil]. unfold lift. now destruct r.
Qed.

Lemma silent_print line : silent (emit (Printed line)).
Proof. intros t. exists [Printed line]. repeat split. Qed.

Lemma silent_sleep n : silent (emit (Slept n)).
Proof. intros t. exists [Slept n]. repeat split. Qed.

Lemma silent_send w rq : is_submission rq = false -> silent (send w rq).
Proof.
  intros Hrq t. unfold send.
  destruct (net w t rq) as [r|].
  - exists [Requested rq (Responds r)]. split; [reflexivity|].
    destruct rq; try discriminate; repeat split.
  - exists [Requested rq Unreachable]. split; [reflexivity|].
    destruct rq; try discriminate; repeat split.
Qed.

Lemma silent_bind {A B} (m : io A) (k : A -> io B) :
  silent m -> (forall a, silent (k a)) -> silent (io_bind m k).
Proof.
  intros Hm Hk t. destruct (Hm t) as (n1 & E1 & Q1). unfold io_bind.
  destruct (m t) as [a t1|e t1|t1]; simpl in E1; subst t1;
    try (exists n1; split; [reflexivity | assumption]).
  destruct (Hk a (n1 ++ t)) as (n2 & E2 & Q2).
  exists (n2 ++ n1). rewrite E2, app_assoc. split; auto using quiet_app.
Qed.

Lemma silent_try {A} (m : io A) (h : exn -> io A) :
  silent m -> (forall e, silent (h e)) -> silent (try_except m h).
Proof.
  intros Hm Hh t. destruct (Hm t) as (n1 & E1 & Q1). unfold try_except.
  destruct (m t) as [a t1|e t1|t1]; simpl in E1; subst t1;
    try (exists n1; split; [reflexivity | assumption]).
  destruct (Hh e (n1 ++ t)) as (n2 & E2 & Q2).
  exists (n2 ++ n1). rewrite E2, app_assoc. split; auto using quiet_app.
Qed.

Lemma silent_for_each {A} (l : list A) (body : A -> io unit) :
  (forall a, silent (body a)) -> silent (for_each l body).
Proof.
  intros Hb. induction l as [|a l IH]; simpl.
  - apply silent_ret.
  - apply silent_bind; auto.
Qed.

Lemma finishes_ret {A} (a : A) : finishes (ret a).
Proof. intros t. exact I. Qed.

Lemma finishes_lift {A} (r : result A) : finishes (lift r).
Proof. intros t. unfold lift. now destruct r. Qed.

Lemma finishes_emit e : finishes (emit e).
Proof. intros t. exact I. Qed.

Lemma finishes_send w rq : finishes (send w rq).
Proof. intros t. unfold send. now destruct (net w t rq). Qed.

Lemma finishes_bind {A B} (m : io A) (k : A -> io B) :
  finishes m -> (forall a, finishes (k a)) -> finishes (io_bind m k).
Proof.
  intros Hm Hk t. specialize (Hm t). unfold io_bind.
  destruct (m t); auto. apply Hk.
Qed.

Lemma finishes_try {A} (m : io A) (h : exn -> io A) :
  finishes m -> (forall e, finishes (h e)) -> finishes (try_except m h).
Proof.
  intros Hm Hh t. specialize (Hm t). unfold try_except.
  destruct (m t); auto. apply Hh.
Qed.

Lemma finishes_for_each {A} (l : list A) (body : A -> io unit) :
  (forall a, finishes (body a)) -> finishes (for_each l body).
Proof.
  intros Hb. induction l as [|a l IH]; simpl.
  - apply finishes_ret.
  - apply finishes_bind; auto.
Qed.

Ltac calm_step :=
  cbv beta zeta;
  lazymatch goal with
  | |- silent (ret _) => apply silent_ret
  | |- silent (lift _) => apply silent_lift
  | |- silent (json _) => apply silent_lift
  | |- silent (emit (Printed _)) => apply silent_print
  | |- silent (emit (Slept _)) => apply silent_sleep
  | |- silent (send _ _) => apply silent_send; reflexivity
  | |- silent (io_bind _ _) => apply silent_bind; [|intros ?]
  | |- silent (try_except _ _) => apply silent_try; [|intros ?]
  | |- silent (for_each _ _) => apply silent_for_each; intros ?
  | |- silent (if ?b then _ else _) => destruct b
  | |- finishes (ret _) => apply finishes_ret
  | |- finishes (lift _) => apply finishes_lift
  | |- finishes (json _) => apply finishes_lift
  | |- finishes (emit _) => apply finishes_emit
  | |- finishes (send _ _) => apply finishes_send
  | |- finishes (io_bind _ _) => apply finishes_bind; [|intros ?]
  | |- finishes (try_except _ _) => apply finishes_try; [|intros ?]
  | |- finishes (for_each _ _) => apply finishes_for_each; intros ?
  | |- finishes (if ?b then _ else _) => destruct b
  end.

Ltac calm := repeat calm_step.

Lemma silent_attach_images w ciq_product product_id :
  silent (attach_images w ciq_product product_id).
Proof.
  unfold attach_images. calm. unfold attach_image. calm.
Qed.

Lemma finishes_attach_images w ciq_product product_id :
  finishes (attach_images w ciq_product product_id).
Proof.
  unfold attach_images. calm. unfold attach_image. calm.
Qed.

Lemma silent_check_operation_status w fuel id :
  silent (Main.check_operation_status w fuel id).
Proof.
  induction fuel as [|fuel IH]; cbn [Main.check_operation_status].
  - intros t. exists []. split; [reflexivity | apply quiet_nil].
  - calm. exact IH.
Qed.

Section MainPage.

Variable w : world.
Variable set_order : pyset -> list atom.
Variable fuel : nat.

Lemma silent_after_submission ciq_product response :
  silent (after_submission w fuel ciq_product response).
Proof.
  unfold after_submission. calm.
  - apply silent_check_operation_status.
  - apply silent_attach_images.
Qed.

Lemma sync_record_effect product t :
  exists new,
    outcome_trace (Main.sync_record w set_order fuel product t) = new ++ t /\
    submissions new = mapped_payloads set_order [product] /\
    published new = [] /\ mails new = O /\
    (Main.sync_record w set_order fuel product t = Returned tt (new ++ t) \/
     Main.sync_record w set_order fuel product t = Pending (new ++ t)).
Proof.
  unfold Main.sync_record.
  change (Main.sync_products_to_shopify w set_order fuel product)
    with (mapped <~ lift (Main.map_catalogiq_to_shopify set_order product) ;;
          response <~ send w (ProductSet false mapped) ;;
          after_submission w fuel product response).
  unfold mapped_payloads. simpl flat_map. rewrite app_nil_r.
  unfold try_except, io_bind, lift, send, ret, emit.
  destruct (Main.map_catalogiq_to_shopify set_order product) as [mapped|e].
  - destruct (net w t (ProductSet false mapped)) as [r|].
    + destruct (silent_after_submission product r
                  (Requested (ProductSet false mapped) (Responds r) :: t))
        as (n & E & QS & QP & QM).
      destruct (after_submission w fuel product r _) as [a t1|e t1|t1];
        simpl in E; subst t1.
      * exists (n ++ [Requested (ProductSet false mapped) (Responds r)]).
        rewrite <- app_assoc. simpl.
        rewrite submissions_app, published_app, mails_app, QS, QP, QM.
        repeat split; auto.
      * exists (Printed (RecordError e)
                :: n ++ [Requested (ProductSet false mapped) (Responds r)]).
        simpl. rewrite <- app_assoc. simpl.
        rewrite submissions_app, published_app, mails_app, QS, QP, QM.
        repeat split; auto.
      * exists (n ++ [Requested (ProductSet false mapped) (Responds r)]).
        rewrite <- app_assoc. simpl.
        rewrite submissions_app, published_app, mails_app, QS, QP, QM.
        repeat split; auto.
    + exists [Printed (RecordError RequestException);
              Requested (ProductSet false mapped) Unreachable].
      repeat split; auto.
  - exists [Printed (RecordError e)]. repeat split; auto.
Qed.

Hypothesis polls_settle :
  forall id, finishes (Main.check_operation_status w fuel id).

Lemma finishes_sync_record product :
  finishes (Main.sync_record w set_order fuel product).
Proof.
  unfold Main.sync_record, Main.sync_products_to_shopify. calm.
  - apply polls_settle.
  - apply finishes_attach_images.
Qed.

Lemma page_effect page : forall t,
  exists new,
    for_each page (Main.sync_record w set_order fuel) t
    = Returned tt (new ++ t) /\
    submissions new = mapped_payloads set_order page /\
    published new = [] /\ mails new = O.
Proof.
  induction page as [|product page IH]; intros t.
  - exists []. repeat split.
  - simpl for_each. unfold io_bind.
    destruct (sync_record_effect product t) as (n1 & _ & S1 & P1 & M1 & Hout).
    pose proof (finishes_sync_record product t) as Hfin.
    destruct Hout as [Hout|Hout]; rewrite Hout in *; [|destruct Hfin].
    destruct (IH (n1 ++ t)) as (n2 & E2 & S2 & P2 & M2).
    exists (n2 ++ n1). rewrite E2, app_assoc.
    rewrite submissions_app, published_app, mails_app, S1, S2, P1, P2, M1, M2.
    repeat split; auto.
    unfold mapped_payloads. simpl flat_map. now rewrite app_nil_r.
Qed.

Lemma main_page_run offset t r data page :
  net w t (GetProducts 1 offset) = Responds r ->
  status_code r = 200 ->
  json_body r = Some data ->
  subscript data "results" = Ok (PList page) ->
  page <> [] ->
  exists n,
    Main.sync_products w set_order fuel offset t
    = (_ <~ publish_offset (offset + 1) ;; ret (PStr "Product Complete!"))
        (n ++ Requested (GetProducts 1 offset) (Responds r) :: t) /\
    submissions n = mapped_payloads set_order page /\
    published n = [] /\ mails n = O.
Proof.
  intros Hnet Hstatus Hbody Hres Hpage.
  assert (Ht : truthy (PList page) = true)
    by (destruct page; [contradiction | reflexivity]).
  destruct (page_effect page (Requested (GetProducts 1 offset) (Responds r) :: t))
    as (n & E & S1 & P1 & M1).
  exists n. split; [|auto].
  unfold Main.sync_products. unfold io_bind at 1.
  rewrite (send_responds _ _ _ _ Hnet), Hstatus, Z.eqb_refl.
  cbn [negb]. unfold io_bind at 1. unfold json at 1, lift at 1. rewrite Hbody.
  unfold io_bind at 1. unfold lift at 1. rewrite Hres, Ht. cbn [negb].
  unfold io_bind at 1. unfold lift at 1. cbn [py_iter].
  unfold io_bind at 1. rewrite E. reflexivity.
Qed.

(** In [main.py], on a non-empty page and as long as every poll comes to
    an end, a record that fails is logged and skipped: the payloads
    submitted are those of all the records the mapper accepts, in page
    order, and one message carrying [offset + 1] is published (provided
    [str] can write [offset + 1]). *)
Theorem main_page_failures_contained offset t r data page :
  net w t (GetProducts 1 offset) = Responds r ->
  status_code r = 200 ->
  json_body r = Some data ->
  subscript data "results" = Ok (PList page) ->
  page <> [] ->
  Z.abs (offset + 1) < 10 ^ max_str_digits ->
  exists new,
    Main.sync_products w set_order fuel offset t
    = Returned (PStr "Product Complete!") (new ++ t) /\
    published new = [offset_message (offset + 1)] /\
    submissions new = mapped_payloads set_order page /\
    mails new = O.
Proof.
  intros Hnet Hstatus Hbody Hres Hpage Hlen.
  destruct (main_page_run offset t r data page Hnet Hstatus Hbody Hres Hpage)
    as (n & Hrun & S1 & P1 & M1).
  exists (Published (offset_message (offset + 1))
          :: n ++ [Requested (GetProducts 1 offset) (Responds r)]).
  split.
  - rewrite Hrun. unfold io_bind.
    destruct (publish_offset_cases (offset + 1)
                (n ++ Requested (GetProducts 1 offset) (Responds r) :: t))
      as (Hok & _).
    rewrite (Hok Hlen). unfold ret. cbn [app]. rewrite <- app_assoc.
    reflexivity.
  - simpl. rewrite submissions_app, published_app, mails_app, S1, P1, M1.
    repeat split; auto.
Qed.

(** When [offset + 1] is beyond the digit limit of [str], the page is
    processed all the same and [publish_offset] then raises: nothing is
    published. *)
Lemma main_page_offset_too_long offset t r data page :
  net w t (GetProducts 1 offset) = Responds r ->
  status_code r = 200 ->
  json_body r = Some data ->
  subscript data "results" = Ok (PList page) ->
  page <> [] ->
  10 ^ max_str_digits <= Z.abs (offset + 1) ->
  exists new,
    Main.sync_products w set_order fuel offset t
    = Raised ValueError (new ++ t) /\
    published new = [] /\
    submissions new = mapped_payloads set_order page /\
    mails new = O.
Proof.
  intros Hnet Hstatus Hbody Hres Hpage Hlen.
  destruct (main_page_run offset t r data page Hnet Hstatus Hbody Hres Hpage)
    as (n & Hrun & S1 & P1 & M1).
  exists (n ++ [Requested (GetProducts 1 offset) (Responds r)]).
  split.
  - rewrite Hrun. unfold io_bind.
    destruct (publish_offset_cases (offset + 1)
                (n ++ Requested (GetProducts 1 offset) (Responds r) :: t))
      as (_ & Hbig).
    rewrite (Hbig Hlen). rewrite <- app_assoc. reflexivity.
  - rewrite submissions_app, published_app, mails_app, S1, P1, M1.
    repeat split; auto.
Qed.

End MainPage.

Lemma shop_world_complete page id t fuel :
  (2 <= status_queries t)%nat ->
  finished (Main.check_operation_status (shop_world page) (S fuel) id t).
Proof.
  intros H.
  assert (Hnet : net (shop_world page) t (ProductOperation id)
                 = respond 200 (status_response "COMPLETE"
                                  (PDict [("id", sample_product_id)]))).
  { cbn [net shop_world]. apply Nat.ltb_ge in H. now rewrite H. }
  erewrite poll_step_complete; [exact I | exact Hnet |].
  do 3 eexists. split; [reflexivity|]. split; [reflexivity|].
  split; [reflexivity|]. split; [reflexivity|].
  split; [right; split; [discriminate | reflexivity] | reflexivity].
Qed.

Lemma shop_world_running page id t fuel :
  (status_queries t < 2)%nat ->
  Main.check_operation_status (shop_world page) (S fuel) id t
  = Main.check_operation_status (shop_world page) fuel id
      (Slept 2
       :: Requested (ProductOperation id)
            (respond 200 (status_response "RUNNING" PNone)) :: t).
Proof.
  intros H.
  assert (Hnet : net (shop_world page) t (ProductOperation id)
                 = respond 200 (status_response "RUNNING" PNone)).
  { cbn [net shop_world]. apply Nat.ltb_lt in H. now rewrite H. }
  apply poll_step_incomplete; [exact Hnet|].
  do 3 eexists. split; [reflexivity|]. split; [reflexivity|].
  split; [reflexivity | discriminate].
Qed.

Lemma shop_world_polls_settle page id :
  finishes (Main.check_operation_status (shop_world page) 5 id).
Proof.
  intros t.
  destruct (Nat.lt_ge_cases (status_queries t) 2) as [H|H];
    [|now apply shop_world_complete].
  rewrite (shop_world_running _ _ _ _ H).
  destruct (Nat.lt_ge_cases (status_queries t) 1) as [H1|H1].
  - rewrite shop_world_running by (simpl; lia).
    apply shop_world_complete. simpl. lia.
  - apply shop_world_complete. simpl. lia.
Qed.

Lemma main_page_failures_contained_witness :
  exists new,
    Main.sync_products (shop_world two_records) insertion_order 5 7 []
    = Returned (PStr "Product Complete!") (new ++ []) /\
    published new = [offset_message (7 + 1)] /\
    submissions new
    = mapped_payloads insertion_order [lamp_without_name; lamp_complete] /\
    mails new = O.
Proof.
  apply (main_page_failures_contained (shop_world two_records) insertion_order
           5 (shop_world_polls_settle two_records) 7 []
           {| status_code := 200;
              json_body := Some (PDict [("results", two_records)]) |}
           (PDict [("results", two_records)])
           [lamp_without_name; lamp_complete]); try reflexivity.
  discriminate.
Defined.

(** C7.  [sync_products] of [mian.py] does not contain the failure of a
    record.  On a page of two records whose first has no [name]: the
    function as written raises [NameError] before it fetches; and from the
    fetch on, the [KeyError] of the first record leaves the loop, so that
    the second record is never submitted and no offset is published.  On
    the same page [sync_products] of [main.py] logs the error, submits the
    second record and publishes the offset 8. *)
Theorem C7_mian_page_aborts_on_bad_record :
  Mian.sync_products (shop_world two_records) insertion_order 7 []
  = Raised NameError [] /\
  (exists t,
     Mian.sync_products_from_fetch (shop_world two_records) insertion_order 7 []
     = Raised KeyError t /\
     submissions t = [] /\ published t = []) /\
  (exists t mapped,
     Main.sync_products (shop_world two_records) insertion_order 5 7 []
     = Returned (PStr "Product Complete!") t /\
     Main.map_catalogiq_to_shopify insertion_order lamp_complete = Ok mapped /\
     submissions t = [mapped] /\
     published t = [offset_message 8]).
Proof.
  split; [reflexivity|]. split.
  - eexists. split; [vm_compute; reflexivity|]. split; reflexivity.
  - do 2 eexists. split; [vm_compute; reflexivity|].
    split; [vm_compute; reflexivity|]. split; vm_compute; reflexivity.
Qed.

(** * Further properties of the mappers *)

Lemma mian_map_inv set_order ciq_product out :
  Mian.map_catalogiq_to_shopify set_order ciq_product = Ok out ->
  exists vs names vv sliced vs99,
    product_variants ciq_product = Ok vs /\
    collect_option_names vs [] = Ok names /\
    subscript ciq_product "variants" = Ok vv /\
    py_slice_to 99 vv = Ok sliced /\ py_iter sliced = Ok vs99 /\
    mapM (map_variant (set_order names)) vs99 = Ok (variants out) /\
    build_product_options set_order names vs = Ok (productOptions out) /\
    subscript ciq_product "name" = Ok (title out) /\
    Mian.description_html ciq_product = Ok (descriptionHtml out) /\
    build_metafields ciq_product = Ok (metafields out).
Proof.
  unfold Mian.map_catalogiq_to_shopify. intros H.
  apply bind_ok in H. destruct H as (vs & Hvs & H).
  apply bind_ok in H. destruct H as (names & Hc & H).
  apply bind_ok in H. destruct H as (vv & Hvv & H).
  apply bind_ok in H. destruct H as (sliced & Hs & H).
  apply bind_ok in H. destruct H as (vs99 & Hi & H).
  apply bind_ok in H. destruct H as (svs & Hm & H).
  apply bind_ok in H. destruct H as (pos & Hb & H).
  apply bind_ok in H. destruct H as (name & Hn & H).
  apply bind_ok in H. destruct H as (d & Hd & H).
  apply bind_ok in H. destruct H as (ms & Hms & H).
  inv_ok H. simpl. exists vs, names, vv, sliced, vs99. repeat split; auto.
Qed.

Lemma chars_length s : length (chars s) = String.length s.
Proof. induction s; simpl; congruence. Qed.

Lemma substring_length_le n : forall s,
  (String.length (substring 0 n s) <= n)%nat.
Proof.
  induction n as [|n IH]; intros [|c s]; simpl; try lia.
  specialize (IH s). lia.
Qed.

Lemma slice_then_iter n vv sliced vs :
  py_slice_to n vv = Ok sliced -> py_iter sliced = Ok vs ->
  (length vs <= n)%nat /\ forall l, vv = PList l -> vs = firstn n l.
Proof.
  intros Hs Hi. destruct vv; try discriminate; unfold py_slice_to in Hs;
    injection Hs as <-; unfold py_iter in Hi; injection Hi as <-; split.
  - rewrite chars_length. apply substring_length_le.
  - discriminate.
  - apply firstn_le_length.
  - now intros ? [= <-].
Qed.

Lemma Forall2_concat_singletons {A B} (Q : A -> B -> Prop) l ls :
  Forall2 (fun a r => exists b, r = [b] /\ Q a b) l ls ->
  Forall2 Q l (concat ls).
Proof.
  induction 1 as [|a r l ls (b & -> & Hq) _ IH]; simpl; constructor; auto.
Qed.

Lemma build_metafields_projection ciq_product pa ms :
  build_metafields ciq_product = Ok ms ->
  subscript ciq_product "attributes" = Ok pa ->
  Forall2
    (fun a m =>
       subscript a "category" = Ok (namespace m) /\
       subscript a "description" = Ok (description m) /\
       subscript a "name" = Ok (key m) /\
       subscript a "value" = Ok (mf_value m) /\
       mf_type m = "string")
    (items pa) ms.
Proof.
  unfold build_metafields. intros H Hpa.
  rewrite Hpa in H. cbn [bind] in H.
  apply bind_ok in H. destruct H as (attrs & Hi & H).
  apply bind_ok in H. destruct H as (mss & Hm & H). inv_ok H.
  apply py_iter_items in Hi. destruct Hi as (_ & <-).
  apply Forall2_concat_singletons. apply mapM_ok in Hm.
  apply (Forall2_impl_In _ _ _ _ Hm). intros a r Ha _ Hr.
  unfold build_metafield in Hr. rewrite Hpa in Hr. cbn [bind] in Hr.
  rewrite (items_truthy _ _ Ha) in Hr.
  apply bind_ok in Hr. destruct Hr as (c & Hc & Hr).
  apply bind_ok in Hr. destruct Hr as (d & Hd & Hr).
  apply bind_ok in Hr. destruct Hr as (n & Hn & Hr).
  apply bind_ok in Hr. destruct Hr as (v & Hv & Hr).
  inv_ok Hr. eexists. split; [reflexivity|]. simpl. auto.
Qed.

(** X1.  In both files the metafields are a one-to-one projection of the
    product's [attributes], in the same order, nothing filtered out and
    nothing merged: the i-th metafield takes its namespace, description,
    key and value from [category], [description], [name] and [value] of
    the i-th attribute, and its type is ["string"]. *)
Theorem X1_metafields_project_attributes set_order ciq_product out pa :
  Main.map_catalogiq_to_shopify set_order ciq_product = Ok out \/
  Mian.map_catalogiq_to_shopify set_order ciq_product = Ok out ->
  subscript ciq_product "attributes" = Ok pa ->
  length (metafields out) = length (items pa) /\
  Forall2
    (fun a m =>
       subscript a "category" = Ok (namespace m) /\
       subscript a "description" = Ok (description m) /\
       subscript a "name" = Ok (key m) /\
       subscript a "value" = Ok (mf_value m) /\
       mf_type m = "string")
    (items pa) (metafields out).
Proof.
  intros Hmap Hpa.
  assert (Hms : build_metafields ciq_product = Ok (metafields out)).
  { destruct Hmap as [H|H].
    - destruct (main_map_inv _ _ _ H) as (? & ? & ? & ? & ? & ? & ? & ? & Hms).
      exact Hms.
    - destruct (mian_map_inv _ _ _ H)
        as (? & ? & ? & ? & ? & ? & ? & ? & ? & ? & ? & ? & ? & ? & Hms).
      exact Hms. }
  pose proof (build_metafields_projection _ _ _ Hms Hpa) as HF.
  split; [symmetry; eapply Forall2_length; exact HF | exact HF].
Qed.

(** X2.  [main.py] emits one target variant per source variant, in the
    same order, and the [sku] of each is the [default_code] of its source
    variant. *)
Theorem X2_variants_in_order set_order ciq_product vs out :
  Main.map_catalogiq_to_shopify set_order ciq_product = Ok out ->
  product_variants ciq_product = Ok vs ->
  length (variants out) = length vs /\
  Forall2 (fun v sv => subscript v "default_code" = Ok (sku sv))
          vs (variants out).
Proof.
  intros Hmap Hvs.
  destruct (main_map_inv _ _ _ Hmap) as (vs' & names & Hvs' & _ & Hm & _).
  rewrite Hvs in Hvs'. inv_ok Hvs'.
  split; [eapply mapM_length; eauto|].
  apply mapM_ok in Hm. apply (Forall2_impl_In _ _ _ _ Hm).
  intros v sv _ _ Hv. unfold map_variant in Hv.
  apply bind_ok in Hv. destruct Hv as (ovs & _ & Hv).
  apply bind_ok in Hv. destruct Hv as (c & Hc & Hv). now inv_ok Hv.
Qed.

Lemma variant_option_values_NoDupA v names : forall ovs,
  variant_option_values v names = Ok ovs ->
  NoDupA atom_eq names ->
  NoDupA atom_eq (map optionName ovs).
Proof.
  induction names as [|n names IH]; simpl; intros ovs H Hnd.
  - inv_ok H. constructor.
  - apply bind_ok in H. destruct H as (attrs & Ha & H).
    apply bind_ok in H. destruct H as (val & Hval & H).
    apply bind_ok in H. destruct H as (tl & Htl & H). inv_ok H.
    inversion Hnd as [|? ? Hn Hnd']; subst.
    specialize (IH _ Htl Hnd').
    destruct (truthy val); auto. simpl. constructor; auto.
    intros Hin. apply Hn. apply InA_alt in Hin.
    destruct Hin as (y & Hy & Hin). apply in_map_iff in Hin.
    destruct Hin as (ov & <- & Hov).
    destruct (variant_option_values_spec _ _ _ Htl) as (S & _).
    destruct (S _ Hov) as (Hnames & _).
    apply InA_alt. exists (optionName ov). auto.
Qed.

Section VariantEntries.

Variable set_order : pyset -> list atom.
Hypothesis set_order_perm : forall s, Permutation (set_order s) s.

Lemma map_variant_entry_values vs names v sv :
  collect_option_names vs [] = Ok names ->
  map_variant (set_order names) v = Ok sv ->
  NoDupA atom_eq (map optionName (optionValues sv)) /\
  forall ov, In ov (optionValues sv) ->
    truthy (ov_name ov) = true /\
    variant_first_assigns v (optionName ov) (ov_name ov).
Proof.
  intros Hc Hm. unfold map_variant in Hm.
  apply bind_ok in Hm. destruct Hm as (ovs & Hovs & Hm).
  apply bind_ok in Hm. destruct Hm as (c & _ & Hm). inv_ok Hm. simpl.
  split.
  - apply (variant_option_values_NoDupA _ _ _ Hovs).
    destruct (collect_option_names_spec _ _ _ Hc (NoDupA_nil _)) as (N & _).
    apply (Permutation_NoDupA names);
      [apply Permutation_sym, set_order_perm | exact N].
  - intros ov Hov.
    destruct (variant_option_values_spec _ _ _ Hovs) as (S & _).
    destruct (S _ Hov) as (_ & Ht & attrs & Hat & Hf).
    split; auto.
    destruct (first_value_found _ _ _ Hf)
      as [(pre & z & post & -> & Hpre & Hz & Hval)|(Hn & _)].
    + exists (pre ++ z :: post), pre, z, post. auto.
    + now apply truthy_not_none in Ht.
Qed.

(** X3.  In a variant mapped by [main.py] no two [optionValues] entries
    are for the same axis, and the entry for an axis carries the value of
    the first attribute of the source variant that has that name (a later
    attribute of the same name is ignored); that value is truthy. *)
Theorem X3_option_value_is_first_match ciq_product vs out :
  Main.map_catalogiq_to_shopify set_order ciq_product = Ok out ->
  product_variants ciq_product = Ok vs ->
  Forall2
    (fun v sv =>
       NoDupA atom_eq (map optionName (optionValues sv)) /\
       forall ov, In ov (optionValues sv) ->
         truthy (ov_name ov) = true /\
         variant_first_assigns v (optionName ov) (ov_name ov))
    vs (variants out).
Proof.
  intros Hmap Hvs.
  destruct (main_map_inv _ _ _ Hmap) as (vs' & names & Hvs' & Hc & Hm & _).
  rewrite Hvs in Hvs'. inv_ok Hvs'.
  apply mapM_ok in Hm. apply (Forall2_impl_In _ _ _ _ Hm).
  intros v sv _ _ Hv. eapply map_variant_entry_values; eauto.
Qed.

Lemma entries_declared vs vs' names svs pos :
  collect_option_names vs [] = Ok names ->
  (forall v, In v vs' -> In v vs) ->
  mapM (map_variant (set_order names)) vs' = Ok svs ->
  build_product_options set_order names vs = Ok pos ->
  forall sv ov, In sv svs -> In ov (optionValues sv) ->
    exists po x h,
      In po pos /\ po_name po = optionName ov /\
      In x (po_values po) /\
      as_hashable (ov_name ov) = Ok h /\ atom_eq x h.
Proof.
  intros Hc Hincl Hm Hb sv ov Hsv Hov.
  apply mapM_ok in Hm.
  destruct (Forall2_In_r _ _ _ _ Hm Hsv) as (v & Hv & Hmv).
  destruct (map_variant_entry_values _ _ _ _ Hc Hmv) as (_ & Hent).
  destruct (Hent ov Hov) as (_ & attrs & pre & z & post & Hat & -> & _ & Hz & Hval).
  assert (Hname : In (optionName ov) (set_order names)).
  { unfold map_variant in Hmv.
    apply bind_ok in Hmv. destruct Hmv as (ovs & Hovs & Hmv).
    apply bind_ok in Hmv. destruct Hmv as (c & _ & Hmv). inv_ok Hmv.
    destruct (variant_option_values_spec _ _ _ Hovs) as (S & _).
    now destruct (S _ Hov). }
  destruct (build_product_options_spec set_order _ _ _ Hb) as (Hnames & Hpos).
  rewrite <- Hnames in Hname. apply in_map_iff in Hname.
  destruct Hname as (po & Hpn & Hpo).
  specialize (Hpos po Hpo). unfold build_option in Hpos.
  apply bind_ok in Hpos. destruct Hpos as (values & Hvals & Hpos).
  apply bind_ok in Hpos. destruct Hpos as (uniq & Hu & Hpos).
  assert (Huniq : po_values po = uniq).
  { injection Hpos as Hpos. rewrite <- Hpos. reflexivity. }
  assert (Hin : In (ov_name ov) values).
  { eapply axis_values_complete; [exact Hvals | apply Hincl; exact Hv |].
    rewrite Hpn. exists (pre ++ z :: post), z. repeat split; auto.
    apply in_or_app. simpl. auto. }
  unfold unique_values in Hu.
  apply bind_ok in Hu. destruct Hu as (hs & Hhs & Hu). inv_ok Hu.
  apply mapM_ok in Hhs.
  destruct (Forall2_In_l _ _ _ _ Hhs Hin) as (h & Hh & Hhash).
  destruct (set_of_list_spec hs) as (_ & _ & Hmem).
  assert (Hm' : set_mem h (set_order (set_of_list hs)) = true).
  { rewrite (Permutation_set_mem h _ _ (set_order_perm _)), Hmem.
    unfold set_mem. apply existsb_exists. exists h. split; auto.
    apply atom_eqb_refl. }
  apply existsb_exists in Hm'. destruct Hm' as (x & Hx & Hxe).
  exists po, x, h. rewrite Huniq. repeat split; auto.
  unfold atom_eq. now rewrite atom_eqb_sym.
Qed.

(** X4.  In both files every option value a mapped variant uses is
    declared: for each [optionValues] entry there is a [productOptions]
    entry of that axis whose [values] hold a value equal to the entry's. *)
Theorem X4_used_option_values_are_declared ciq_product out :
  Main.map_catalogiq_to_shopify set_order ciq_product = Ok out \/
  (Mian.map_catalogiq_to_shopify set_order ciq_product = Ok out /\
   exists l, subscript ciq_product "variants" = Ok (PList l)) ->
  forall sv ov, In sv (variants out) -> In ov (optionValues sv) ->
    exists po x h,
      In po (productOptions out) /\ po_name po = optionName ov /\
      In x (po_values po) /\
      as_hashable (ov_name ov) = Ok h /\ atom_eq x h.
Proof.
  intros [Hmap|(Hmap & l & Hl)].
  - destruct (main_map_inv _ _ _ Hmap) as (vs & names & _ & Hc & Hm & Hb & _).
    apply (entries_declared vs vs names _ _ Hc); auto.
  - destruct (mian_map_inv _ _ _ Hmap)
      as (vs & names & vv & sliced & vs99 & Hvs & Hc & Hvv & Hs & Hi & Hm & Hb & _).
    rewrite Hl in Hvv. inv_ok Hvv.
    unfold product_variants in Hvs. rewrite Hl in Hvs.
    cbn [bind py_iter] in Hvs. inv_ok Hvs.
    destruct (slice_then_iter _ _ _ _ Hs Hi) as (_ & Hfirst).
    rewrite (Hfirst _ eq_refl) in Hm.
    refine (entries_declared _ _ _ _ _ Hc _ Hm Hb).
    intros v Hv. rewrite <- (firstn_skipn 99). apply in_or_app. left. exact Hv.
Qed.

(** X5.  A product without variants is accepted by [main.py] like any
    other: it is mapped to a payload with no option and no variant. *)
Theorem X5_no_variants_no_options ciq_product out :
  Main.map_catalogiq_to_shopify set_order ciq_product = Ok out ->
  product_variants ciq_product = Ok [] ->
  productOptions out = [] /\ variants out = [].
Proof.
  intros Hmap Hvs.
  destruct (main_map_inv _ _ _ Hmap) as (vs & names & Hvs' & Hc & Hm & Hb & _).
  rewrite Hvs in Hvs'. inv_ok Hvs'. simpl in Hc. inv_ok Hc. simpl in Hm.
  inv_ok Hm. split; auto.
  unfold build_product_options in Hb.
  rewrite (Permutation_nil (Permutation_sym (set_order_perm []))) in Hb.
  simpl in Hb. now inv_ok Hb.
Qed.

End VariantEntries.

(** X6.  In [main.py] a truthy description is handed through unchanged
    and anything else (absent, [None], [False], [0], empty) becomes the
    empty string. *)
Theorem X6_description_passes_or_defaults set_order ciq_product out d :
  Main.map_catalogiq_to_shopify set_order ciq_product = Ok out ->
  py_get ciq_product "description_sale" PNone = Ok d ->
  descriptionHtml out = if truthy d then d else PStr EmptyString.
Proof.
  intros Hmap Hd.
  destruct (main_map_inv _ _ _ Hmap) as (_ & _ & _ & _ & _ & _ & _ & Hdesc & _).
  unfold Main.description_html in Hdesc. rewrite Hd in Hdesc.
  cbn [bind] in Hdesc.
  destruct (truthy d) eqn:Ht; cbn [negb] in Hdesc; [|now inv_ok Hdesc].
  unfold py_get in *. destruct ciq_product; try discriminate.
  destruct (dict_get d0 "description_sale").
  - congruence.
  - inv_ok Hd. discriminate.
Qed.

(** X7.  [mian.py] never emits more than 99 variants; when [variants] is
    a list they are the first 99 source variants (all of them when there
    are fewer), in order, each with its [default_code] as [sku]. *)
Theorem X7_mian_emits_first_99 set_order ciq_product out :
  Mian.map_catalogiq_to_shopify set_order ciq_product = Ok out ->
  (length (variants out) <= 99)%nat /\
  forall l, subscript ciq_product "variants" = Ok (PList l) ->
    length (variants out) = Nat.min 99 (length l) /\
    Forall2 (fun v sv => subscript v "default_code" = Ok (sku sv))
            (firstn 99 l) (variants out).
Proof.
  intros Hmap.
  destruct (mian_map_inv _ _ _ Hmap)
    as (vs & names & vv & sliced & vs99 & _ & _ & Hvv & Hs & Hi & Hm & _).
  pose proof (mapM_length _ _ _ Hm) as Hlen.
  destruct (slice_then_iter _ _ _ _ Hs Hi) as (Hle & Hfirst).
  split; [lia|].
  intros l Hl. rewrite Hl in Hvv. injection Hvv as <-.
  rewrite (Hfirst _ eq_refl) in Hm, Hlen.
  split; [rewrite Hlen; apply length_firstn|].
  apply mapM_ok in Hm. apply (Forall2_impl_In _ _ _ _ Hm).
  intros v sv _ _ Hv. unfold map_variant in Hv.
  apply bind_ok in Hv. destruct Hv as (ovs & _ & Hv).
  apply bind_ok in Hv. destruct Hv as (c & Hc & Hv). now inv_ok Hv.
Qed.

(** ** The order of the sets only permutes the output *)

Lemma variant_option_values_permuted v l l' :
  Permutation l l' ->
  forall ovs, variant_option_values v l = Ok ovs ->
  exists ovs', variant_option_values v l' = Ok ovs' /\ Permutation ovs ovs'.
Proof.
  induction 1 as [|x l l' _ IH|x y l|l l' l'' _ IH1 _ IH2]; intros ovs H.
  - exists ovs. split; auto.
  - simpl in H.
    apply bind_ok in H. destruct H as (attrs & Ha & H).
    apply bind_ok in H. destruct H as (val & Hval & H).
    apply bind_ok in H. destruct H as (tl & Htl & H). inv_ok H.
    destruct (IH _ Htl) as (tl' & Htl' & Hp).
    simpl. rewrite Ha. cbn [bind]. rewrite Hval. cbn [bind].
    rewrite Htl'. cbn [bind]. eexists. split; [reflexivity|].
    destruct (truthy val); auto.
  - simpl in H.
    apply bind_ok in H. destruct H as (attrs & Ha & H).
    apply bind_ok in H. destruct H as (valy & Hvaly & H).
    apply bind_ok in H. destruct H as (tly & Htly & H). inv_ok H.
    apply bind_ok in Htly. destruct Htly as (attrs' & Ha' & Htly).
    apply bind_ok in Htly. destruct Htly as (valx & Hvalx & Htly).
    apply bind_ok in Htly. destruct Htly as (tl & Htl & Htly). inv_ok Htly.
    rewrite Ha in Ha'. inv_ok Ha'.
    simpl. rewrite Ha. cbn [bind]. rewrite Hvalx. cbn [bind].
    rewrite Hvaly. cbn [bind]. rewrite Htl. cbn [bind].
    eexists. split; [reflexivity|].
    destruct (truthy valx), (truthy valy); auto. apply perm_swap.
  - destruct (IH1 _ H) as (o1 & H1 & P1).
    destruct (IH2 _ H1) as (o2 & H2 & P2).
    exists o2. split; auto. eapply Permutation_trans; eauto.
Qed.

Lemma mapM_pointwise {A B} (f g : A -> result B) (R : B -> B -> Prop) l :
  forall r1 r2,
    mapM f l = Ok r1 -> mapM g l = Ok r2 ->
    (forall a b1 b2, In a l -> f a = Ok b1 -> g a = Ok b2 -> R b1 b2) ->
    Forall2 R r1 r2.
Proof.
  induction l as [|a l IH]; simpl; intros r1 r2 H1 H2 HR.
  - inv_ok H1. inv_ok H2. constructor.
  - apply bind_ok in H1. destruct H1 as (b1 & Hb1 & H1).
    apply bind_ok in H1. destruct H1 as (t1 & Ht1 & H1). inv_ok H1.
    apply bind_ok in H2. destruct H2 as (b2 & Hb2 & H2).
    apply bind_ok in H2. destruct H2 as (t2 & Ht2 & H2). inv_ok H2.
    constructor; eauto.
Qed.

Section SetOrderIndependence.

Variables set_order set_order' : pyset -> list atom.
Hypothesis set_order_perm : forall s, Permutation (set_order s) s.
Hypothesis set_order_perm' : forall s, Permutation (set_order' s) s.

Lemma orders_permuted s : Permutation (set_order s) (set_order' s).
Proof.
  eapply Permutation_trans; [apply set_order_perm|].
  apply Permutation_sym, set_order_perm'.
Qed.

(** X8.  The order in which Python iterates over its sets does not change
    what [main.py] accepts, and it changes the payload by reorderings
    only: title, description and metafields are the same, the variants
    are the same up to the order of their [optionValues], the option axes
    are the same up to their order, and so are the values of each axis. *)
Theorem X8_set_order_only_permutes ciq_product out :
  Main.map_catalogiq_to_shopify set_order ciq_product = Ok out ->
  exists out',
    Main.map_catalogiq_to_shopify set_order' ciq_product = Ok out' /\
    title out' = title out /\
    descriptionHtml out' = descriptionHtml out /\
    metafields out' = metafields out /\
    Forall2 (fun sv sv' => sku sv' = sku sv /\
                           Permutation (optionValues sv) (optionValues sv'))
            (variants out) (variants out') /\
    Permutation (map po_name (productOptions out))
                (map po_name (productOptions out')) /\
    (forall po po', In po (productOptions out) ->
                    In po' (productOptions out') ->
                    po_name po = po_name po' ->
                    Permutation (po_values po) (po_values po')).
Proof.
  intros Hmap.
  pose proof (accepted_well_formed set_order set_order_perm _ _ Hmap) as Hwf.
  destruct (well_formed_accepted set_order' _ Hwf) as (out' & Hmap').
  exists out'. split; [exact Hmap'|].
  destruct (main_map_inv _ _ _ Hmap)
    as (vs & names & Hvs & Hc & Hm & Hb & Hn & Hd & Hms).
  destruct (main_map_inv _ _ _ Hmap')
    as (vs' & names' & Hvs' & Hc' & Hm' & Hb' & Hn' & Hd' & Hms').
  rewrite Hvs in Hvs'. inv_ok Hvs'. rewrite Hc in Hc'. inv_ok Hc'.
  repeat split; try congruence.
  - apply (mapM_pointwise _ _ _ _ _ _ Hm Hm'). intros v sv sv' _ H1 H2.
    unfold map_variant in H1, H2.
    apply bind_ok in H1. destruct H1 as (o1 & Ho1 & H1).
    apply bind_ok in H1. destruct H1 as (c1 & Hc1 & H1). inv_ok H1.
    apply bind_ok in H2. destruct H2 as (o2 & Ho2 & H2).
    apply bind_ok in H2. destruct H2 as (c2 & Hc2 & H2). inv_ok H2.
    simpl. split; [congruence|].
    destruct (variant_option_values_permuted v _ _ (orders_permuted names') _ Ho1)
      as (o2' & Ho2' & Hp).
    congruence.
  - destruct (build_product_options_spec _ _ _ _ Hb) as (-> & _).
    destruct (build_product_options_spec _ _ _ _ Hb') as (-> & _).
    apply orders_permuted.
  - intros po po' Hpo Hpo' Hname.
    destruct (build_product_options_spec _ _ _ _ Hb) as (_ & Hbo).
    destruct (build_product_options_spec _ _ _ _ Hb') as (_ & Hbo').
    specialize (Hbo _ Hpo). specialize (Hbo' _ Hpo'). rewrite <- Hname in Hbo'.
    unfold build_option, unique_values in Hbo, Hbo'.
    apply bind_ok in Hbo. destruct Hbo as (values & Hv & Hbo).
    apply bind_ok in Hbo. destruct Hbo as (u & Hu & Hbo).
    apply bind_ok in Hu. destruct Hu as (hs & Hhs & Hu). inv_ok Hu.
    apply bind_ok in Hbo'. destruct Hbo' as (values' & Hv' & Hbo').
    apply bind_ok in Hbo'. destruct Hbo' as (u' & Hu' & Hbo').
    apply bind_ok in Hu'. destruct Hu' as (hs' & Hhs' & Hu'). inv_ok Hu'.
    rewrite Hv in Hv'. inv_ok Hv'. rewrite Hhs in Hhs'. inv_ok Hhs'.
    injection Hbo as Hbo. injection Hbo' as Hbo'.
    rewrite <- Hbo, <- Hbo'. simpl. apply orders_permuted.
Qed.

End SetOrderIndependence.

(** * Further properties of the poller and of the submission *)

Lemma status_queries_app a b :
  status_queries (a ++ b) = (status_queries a + status_queries b)%nat.
Proof.
  induction a as [|e a IH]; simpl; auto.
  destruct e as [rq rp| | | |]; auto. destruct rq; simpl; auto.
Qed.

Lemma seconds_slept_app a b :
  seconds_slept (a ++ b) = seconds_slept a + seconds_slept b.
Proof.
  induction a as [|e a IH]; simpl; auto. destruct e; auto. lia.
Qed.

Lemma media_requests_app a b :
  media_requests (a ++ b) = media_requests b ++ media_requests a.
Proof.
  induction a as [|e a IH]; simpl; [now rewrite app_nil_r|].
  destruct e as [rq rp| | | |]; auto.
  destruct rq; auto. now rewrite IH, app_assoc.
Qed.

Lemma single_query_shape id rp t fuel :
  exists new,
    Requested (ProductOperation id) rp :: t = new ++ t /\
    Forall (poll_event id) new /\
    (1 <= status_queries new <= S fuel)%nat /\
    seconds_slept new = 2 * (Z.of_nat (status_queries new) - 1).
Proof.
  exists [Requested (ProductOperation id) rp].
  split; [reflexivity|]. split; [repeat constructor|]. simpl. lia.
Qed.

(** X9.  Whatever the shop answers, [check_operation_status] does nothing
    but query the status of the operation it was given and sleep two
    seconds: when it returns or raises after [q] queries it has slept
    [2 * (q - 1)] seconds (it does not sleep after the last query), and
    while it is still polling after [q] queries it has slept [2 * q]
    seconds. *)
Theorem X9_poll_trace_shape w id fuel : forall t,
  exists new,
    outcome_trace (Main.check_operation_status w fuel id t) = new ++ t /\
    Forall (poll_event id) new /\
    match Main.check_operation_status w fuel id t with
    | Pending _ =>
        status_queries new = fuel /\
        seconds_slept new = 2 * Z.of_nat fuel
    | _ =>
        (1 <= status_queries new <= fuel)%nat /\
        seconds_slept new = 2 * (Z.of_nat (status_queries new) - 1)
    end.
Proof.
  induction fuel as [|fuel IH]; intros t.
  - exists []. split; [reflexivity|]. split; [constructor|]. split; reflexivity.
  - cbn [Main.check_operation_status].
    unfold io_bind, send, json, lift, ret, emit.
    destruct (net w t (ProductOperation id)) as [r|] eqn:Hnet;
      [|apply single_query_shape].
    pose proof (single_query_shape id (Responds r) t fuel) as Hone.
    destruct (json_body r) as [data|]; [|exact Hone].
    destruct (path data ["data"; "productOperation"; "status"])
      as [status|]; [|exact Hone].
    destruct (py_eq_atom status (AStr "COMPLETE")).
    + destruct (path data ["data"; "productOperation"; "product"])
        as [product|]; [|exact Hone].
      destruct (match product with
                | PNone => Ok PNone
                | _ => py_get product "id" PNone
                end); [|exact Hone].
      destruct (path data ["data"; "productOperation"; "userErrors"]);
        exact Hone.
    + clear Hone.
      destruct (IH (Slept 2 :: Requested (ProductOperation id) (Responds r) :: t))
        as (new & E & F & Hshape).
      exists (new ++ [Slept 2; Requested (ProductOperation id) (Responds r)]).
      rewrite <- app_assoc. split; [exact E|]. split.
      * apply Forall_app. split; [exact F | repeat constructor].
      * rewrite status_queries_app, seconds_slept_app.
        cbn [status_queries seconds_slept].
        destruct (Main.check_operation_status w fuel id _); lia.
Qed.

(** X10.  The poller does not retry a query that goes wrong: when the
    request fails, when the body is not JSON, or when the body has no
    [data.productOperation.status], the call ends at once with that error,
    the failed query being its last event; and when a COMPLETE body has no
    [userErrors] the call ends at once with an error, whatever its
    [product] is: the error of the [userErrors] lookup when [product] is
    [None] or an object. *)
Theorem X10_poll_does_not_retry w fuel id t :
  (net w t (ProductOperation id) = Unreachable ->
   Main.check_operation_status w (S fuel) id t
   = Raised RequestException
       (Requested (ProductOperation id) Unreachable :: t)) /\
  (forall r,
     net w t (ProductOperation id) = Responds r -> json_body r = None ->
     Main.check_operation_status w (S fuel) id t
     = Raised JSONDecodeError
         (Requested (ProductOperation id) (Responds r) :: t)) /\
  (forall r data e,
     net w t (ProductOperation id) = Responds r -> json_body r = Some data ->
     operation_field data "status" = Raise e ->
     Main.check_operation_status w (S fuel) id t
     = Raised e (Requested (ProductOperation id) (Responds r) :: t)) /\
  (forall r data e,
     net w t (ProductOperation id) = Responds r -> json_body r = Some data ->
     operation_field data "status" = Ok (PStr "COMPLETE") ->
     operation_field data "userErrors" = Raise e ->
     exists e',
       Main.check_operation_status w (S fuel) id t
       = Raised e' (Requested (ProductOperation id) (Responds r) :: t) /\
       (forall product,
          operation_field data "product" = Ok product ->
          product = PNone \/ (exists d, product = PDict d) ->
          e' = e)).
Proof.
  unfold operation_field.
  split; [|split; [|split]]; intros; cbn [Main.check_operation_status];
    unfold io_bind, send, json, lift, ret, emit.
  - now rewrite H.
  - now rewrite H, H0.
  - now rewrite H, H0, H1.
  - rewrite H, H0, H1.
    change (py_eq_atom (PStr "COMPLETE") (AStr "COMPLETE")) with true.
    cbv iota.
    destruct (path data ["data"; "productOperation"; "product"])
      as [product|e1]; [|exists e1; split; [reflexivity | discriminate]].
    destruct (match product with
              | PNone => Ok PNone
              | _ => py_get product "id" PNone
              end) as [pid|e2] eqn:Hpid.
    + rewrite H2. exists e. split; [reflexivity | auto].
    + exists e2. split; [reflexivity|].
      intros p [= <-] [->|(d & ->)]; [discriminate Hpid|].
      cbn in Hpid. destruct (dict_get d "id"); discriminate Hpid.
Qed.

(** ** Actions confined to a kind of event *)

Lemma confined_ret {A} P (a : A) : confined P (ret a).
Proof. intros t. exists []. split; [reflexivity | constructor]. Qed.

Lemma confined_lift {A} P (r : result A) : confined P (lift r).
Proof.
  intros t. exists []. split; [|constructor]. unfold lift. now destruct r.
Qed.

Lemma confined_emit (P : event -> Prop) e : P e -> confined P (emit e).
Proof. intros H t. exists [e]. split; [reflexivity | auto]. Qed.

Lemma confined_send (P : event -> Prop) w rq :
  (forall rp, P (Requested rq rp)) -> confined P (send w rq).
Proof.
  intros H t. unfold send. destruct (net w t rq) as [r|].
  - exists [Requested rq (Responds r)]. split; [reflexivity | auto].
  - exists [Requested rq Unreachable]. split; [reflexivity | auto].
Qed.

Lemma confined_bind {A B} P (m : io A) (k : A -> io B) :
  confined P m -> (forall a, confined P (k a)) -> confined P (io_bind m k).
Proof.
  intros Hm Hk t. destruct (Hm t) as (n1 & E1 & F1). unfold io_bind.
  destruct (m t) as [a t1|e t1|t1]; simpl in E1; subst t1;
    try (exists n1; split; [reflexivity | assumption]).
  destruct (Hk a (n1 ++ t)) as (n2 & E2 & F2).
  exists (n2 ++ n1). rewrite E2, app_assoc. split; auto.
  apply Forall_app. auto.
Qed.

Lemma confined_try {A} P (m : io A) (h : exn -> io A) :
  confined P m -> (forall e, confined P (h e)) -> confined P (try_except m h).
Proof.
  intros Hm Hh t. destruct (Hm t) as (n1 & E1 & F1). unfold try_except.
  destruct (m t) as [a t1|e t1|t1]; simpl in E1; subst t1;
    try (exists n1; split; [reflexivity | assumption]).
  destruct (Hh e (n1 ++ t)) as (n2 & E2 & F2).
  exists (n2 ++ n1). rewrite E2, app_assoc. split; auto.
  apply Forall_app. auto.
Qed.

Lemma confined_for_each {A} P (l : list A) (body : A -> io unit) :
  (forall a, confined P (body a)) -> confined P (for_each l body).
Proof.
  intros Hb. induction l as [|a l IH]; simpl.
  - apply confined_ret.
  - apply confined_bind; auto.
Qed.

Ltac confine_step :=
  cbv beta zeta;
  lazymatch goal with
  | |- confined _ (ret _) => apply confined_ret
  | |- confined _ (lift _) => apply confined_lift
  | |- confined _ (json _) => apply confined_lift
  | |- confined _ (emit _) => apply confined_emit; simpl; auto
  | |- confined _ (send _ _) => apply confined_send; intros ?; simpl; auto
  | |- confined _ (io_bind _ _) => apply confined_bind; [|intros ?]
  | |- confined _ (try_except _ _) => apply confined_try; [|intros ?]
  | |- confined _ (for_each _ _) => apply confined_for_each; intros ?
  | |- confined _ (if ?b then _ else _) => destruct b
  end.

Ltac confine := repeat confine_step.

Lemma confined_attach_images w ciq_product pid :
  confined (media_event pid) (attach_images w ciq_product pid).
Proof.
  unfold attach_images. confine. unfold attach_image. confine.
Qed.

Lemma media_event_quiet pid new :
  Forall (media_event pid) new ->
  quiet new /\ status_queries new = O /\
  forall m, In m (media_requests new) -> snd m = pid.
Proof.
  induction 1 as [|e new He _ (Q & S & M)].
  - repeat split; auto. intros ? [].
  - destruct e as [rq rp| | | |]; try destruct rq; try contradiction He;
      simpl in *.
    + subst productId. repeat split; try apply Q; auto.
      intros m Hm. apply in_app_or in Hm. destruct Hm as [Hm|[<-|[]]]; auto.
    + repeat split; try apply Q; auto.
Qed.

(** ** One record *)

Lemma sync_products_to_shopify_steps w set_order fuel ciq_product :
  Main.sync_products_to_shopify w set_order fuel ciq_product
  = (mapped <~ lift (Main.map_catalogiq_to_shopify set_order ciq_product) ;;
     response <~ send w (ProductSet false mapped) ;;
     after_submission w fuel ciq_product response).
Proof. reflexivity. Qed.

(** X11.  [sync_products_to_shopify] of [main.py] talks to the shop only
    for a record the mapper accepts: when the mapper raises, the error
    leaves the function before any request; otherwise its first request is
    the asynchronous [productSet] of the mapped payload, and it submits
    nothing else, publishes nothing and sends no mail. *)
Theorem X11_submission_comes_first w set_order fuel ciq_product t :
  (forall e,
     Main.map_catalogiq_to_shopify set_order ciq_product = Raise e ->
     Main.sync_products_to_shopify w set_order fuel ciq_product t
     = Raised e t) /\
  (forall mapped,
     Main.map_catalogiq_to_shopify set_order ciq_product = Ok mapped ->
     exists rest rp,
       outcome_trace
         (Main.sync_products_to_shopify w set_order fuel ciq_product t)
       = rest ++ Requested (ProductSet false mapped) rp :: t /\
       quiet rest).
Proof.
  rewrite sync_products_to_shopify_steps. unfold io_bind, lift. split.
  - intros e ->. reflexivity.
  - intros mapped ->. unfold send.
    destruct (net w t (ProductSet false mapped)) as [r|].
    + destruct (silent_after_submission w fuel ciq_product r
                  (Requested (ProductSet false mapped) (Responds r) :: t))
        as (n & E & Q).
      exists n, (Responds r). split; auto.
    + exists [], Unreachable. split; [reflexivity | apply quiet_nil].
Qed.

(** X12.  Once the poll has returned, nothing in the media block can make
    [sync_products_to_shopify] of [main.py] fail: it returns the body of
    the submission response.  What it does in between is confined to
    media requests for the polled product id and log lines, and when that
    id is falsy (the operation completed without a product) it does
    nothing at all. *)
Theorem X12_media_never_fails_the_record
    w set_order fuel ciq_product t mapped r body operation_id
    status product_id user_errors t2 :
  Main.map_catalogiq_to_shopify set_order ciq_product = Ok mapped ->
  net w t (ProductSet false mapped) = Responds r ->
  json_body r = Some body ->
  path body ["data"; "productSet"; "productSetOperation"; "id"]
  = Ok operation_id ->
  Main.check_operation_status w fuel operation_id
    (Requested (ProductSet false mapped) (Responds r) :: t)
  = Returned (status, product_id, user_errors) t2 ->
  exists new,
    Main.sync_products_to_shopify w set_order fuel ciq_product t
    = Returned body (new ++ t2) /\
    Forall (media_event product_id) new /\
    (truthy product_id = false -> new = []).
Proof.
  intros Hmap Hnet Hbody Hid Hpoll.
  unfold Main.sync_products_to_shopify.
  unfold io_bind at 1. unfold lift at 1. rewrite Hmap.
  unfold io_bind at 1. rewrite (send_responds _ _ _ _ Hnet).
  unfold io_bind at 1. unfold json at 1, lift at 1. rewrite Hbody.
  unfold io_bind at 1. unfold lift at 1. rewrite Hid.
  unfold io_bind at 1. rewrite Hpoll. cbn [fst snd].
  unfold io_bind, json, lift. rewrite Hbody.
  destruct (truthy product_id) eqn:Ht.
  - destruct (confined_try (media_event product_id)
                (attach_images w ciq_product product_id)
                (fun e => emit (Printed (ImageException e)))
                (confined_attach_images w ciq_product product_id)
                (fun e => confined_emit _ _ I) t2) as (new & E & F).
    pose proof (finishes_try _ (fun e => emit (Printed (ImageException e)))
                  (finishes_attach_images w ciq_product product_id)
                  (fun e => finishes_emit _) t2) as Hfin.
    destruct (try_except (attach_images w ciq_product product_id) _ t2)
      as [a t3|e t3|t3] eqn:Htry; simpl in E; subst t3.
    + exists new. repeat split; auto. discriminate.
    + exfalso. unfold try_except in Htry.
      destruct (attach_images w ciq_product product_id t2); discriminate.
    + destruct Hfin.
  - exists []. repeat split; auto.
Qed.

(** ** The media calls *)

Lemma attach_image_answered w pid img url t :
  media_answered w pid ->
  subscript img "url" = Ok url ->
  exists new,
    attach_image w pid img t = Returned tt (new ++ t) /\
    media_requests new = [("Image", url, pid)].
Proof.
  intros Hw Hurl. unfold attach_image, io_bind, lift, json, send.
  rewrite Hurl.
  destruct (Hw t "Image" url) as (r & d & -> & ->).
  cbn [py_contains lift subscript].
  destruct (dict_get d "errors").
  - eexists [_; _]. split; reflexivity.
  - destruct (negb (status_code r =? 200)).
    + eexists [_; _]. split; reflexivity.
    + eexists [_]. split; reflexivity.
Qed.

Lemma attach_each_answered w pid imgs : forall urls t,
  media_answered w pid ->
  mapM (fun img => subscript img "url") imgs = Ok urls ->
  exists new,
    for_each imgs (attach_image w pid) t = Returned tt (new ++ t) /\
    media_requests new = map (fun u => ("Image", u, pid)) urls.
Proof.
  induction imgs as [|img imgs IH]; intros urls t Hw H.
  - inv_ok H. exists []. split; reflexivity.
  - simpl in H.
    apply bind_ok in H. destruct H as (u & Hu & H).
    apply bind_ok in H. destruct H as (us & Hus & H). inv_ok H.
    destruct (attach_image_answered w pid img u t Hw Hu) as (n1 & E1 & M1).
    destruct (IH us (n1 ++ t) Hw Hus) as (n2 & E2 & M2).
    exists (n2 ++ n1). cbn [for_each]. unfold io_bind. rewrite E1, E2.
    rewrite app_assoc. split; auto.
    rewrite media_requests_app, M1, M2. reflexivity.
Qed.

Lemma attach_each_stops w pid img post e : forall pre urls t,
  media_answered w pid ->
  mapM (fun img => subscript img "url") pre = Ok urls ->
  subscript img "url" = Raise e ->
  exists new,
    for_each (pre ++ img :: post) (attach_image w pid) t
    = Raised e (new ++ t) /\
    media_requests new = map (fun u => ("Image", u, pid)) urls.
Proof.
  induction pre as [|q pre IH]; intros urls t Hw H Hbad.
  - inv_ok H. exists []. split; [|reflexivity].
    cbn [app for_each]. unfold io_bind, attach_image, lift.
    unfold io_bind. now rewrite Hbad.
  - simpl in H.
    apply bind_ok in H. destruct H as (u & Hu & H).
    apply bind_ok in H. destruct H as (us & Hus & H). inv_ok H.
    destruct (attach_image_answered w pid q u t Hw Hu) as (n1 & E1 & M1).
    destruct (IH us (n1 ++ t) Hw Hus Hbad) as (n2 & E2 & M2).
    exists (n2 ++ n1). cbn [app for_each]. unfold io_bind. rewrite E1, E2.
    rewrite app_assoc. split; auto.
    rewrite media_requests_app, M1, M2. reflexivity.
Qed.

Lemma attach_main_answered w pid main_image t :
  media_answered w pid ->
  exists n1,
    (if truthy main_image
     then _ <~ send w (ProductCreateMedia "Main Image" main_image pid) ;; ret tt
     else ret tt) t = Returned tt (n1 ++ t) /\
    media_requests n1
    = if truthy main_image then [("Main Image", main_image, pid)] else [].
Proof.
  intros Hw. destruct (truthy main_image).
  - unfold io_bind, send, ret.
    destruct (Hw t "Main Image" main_image) as (r & d & -> & _).
    eexists [_]. split; reflexivity.
  - exists []. split; reflexivity.
Qed.

(** X13.  When the shop answers every media request with a JSON object,
    whatever its status code and whether or not it reports [errors]: for
    a product that has [main_image] and a list [images] whose entries all
    have [url], the media block attaches the main image first (if it is
    truthy) and then every additional image, in the order of [images], an
    error reported for one image not stopping the following ones.  A
    product without [main_image] gets no image at all: the block raises
    before any request.  A product without [images] gets its main image
    only, and an entry of [images] without [url] ends the loop, the
    entries before it having been attached. *)
Theorem X13_images_attached_in_order w ciq_product pid t :
  media_answered w pid ->
  (forall e,
     subscript ciq_product "main_image" = Raise e ->
     attach_images w ciq_product pid t = Raised e t) /\
  (forall main_image,
     subscript ciq_product "main_image" = Ok main_image ->
     (forall imgs urls,
        subscript ciq_product "images" = Ok (PList imgs) ->
        mapM (fun img => subscript img "url") imgs = Ok urls ->
        exists new,
          attach_images w ciq_product pid t = Returned tt (new ++ t) /\
          media_requests new
          = (if truthy main_image
             then [("Main Image", main_image, pid)] else [])
            ++ map (fun u => ("Image", u, pid)) urls) /\
     (forall e,
        subscript ciq_product "images" = Raise e ->
        exists new,
          attach_images w ciq_product pid t = Raised e (new ++ t) /\
          media_requests new
          = if truthy main_image
            then [("Main Image", main_image, pid)] else []) /\
     (forall pre img post urls e,
        subscript ciq_product "images" = Ok (PList (pre ++ img :: post)) ->
        mapM (fun img => subscript img "url") pre = Ok urls ->
        subscript img "url" = Raise e ->
        exists new,
          attach_images w ciq_product pid t = Raised e (new ++ t) /\
          media_requests new
          = (if truthy main_image
             then [("Main Image", main_image, pid)] else [])
            ++ map (fun u => ("Image", u, pid)) urls)).
Proof.
  intros Hw. split.
  - intros e Hmain. unfold attach_images, io_bind, lift. now rewrite Hmain.
  - intros main_image Hmain.
    destruct (attach_main_answered w pid main_image t Hw) as (n1 & E1 & M1).
    split; [|split].
    + intros imgs urls Himgs Hurls.
      unfold attach_images. unfold io_bind at 1. unfold lift at 1.
      rewrite Hmain. unfold io_bind at 1. rewrite E1.
      unfold io_bind at 1. unfold lift at 1. rewrite Himgs.
      destruct imgs as [|img imgs].
      * cbn [truthy]. inv_ok Hurls. exists n1. split; [reflexivity|].
        rewrite M1. simpl. now rewrite app_nil_r.
      * cbn [truthy]. unfold io_bind at 1. cbn [lift py_iter].
        destruct (attach_each_answered w pid (img :: imgs) urls (n1 ++ t)
                    Hw Hurls) as (n2 & E2 & M2).
        exists (n2 ++ n1). rewrite E2, app_assoc. split; auto.
        rewrite media_requests_app, M1, M2. reflexivity.
    + intros e Himgs.
      unfold attach_images. unfold io_bind at 1. unfold lift at 1.
      rewrite Hmain. unfold io_bind at 1. rewrite E1.
      unfold io_bind at 1. unfold lift at 1. rewrite Himgs.
      exists n1. split; [reflexivity | exact M1].
    + intros pre img post urls e Himgs Hurls Hbad.
      unfold attach_images. unfold io_bind at 1. unfold lift at 1.
      rewrite Hmain. unfold io_bind at 1. rewrite E1.
      unfold io_bind at 1. unfold lift at 1. rewrite Himgs.
      assert (Ht : truthy (PList (pre ++ img :: post)) = true)
        by (destruct pre; reflexivity).
      rewrite Ht. unfold io_bind at 1. cbn [lift py_iter].
      destruct (attach_each_stops w pid img post e pre urls (n1 ++ t)
                  Hw Hurls Hbad) as (n2 & E2 & M2).
      exists (n2 ++ n1). rewrite E2, app_assoc. split; auto.
      rewrite media_requests_app, M1, M2. reflexivity.
Qed.

(** ** One invocation of [main.py] *)

Lemma page_effect_any w set_order fuel page : forall t,
  exists new,
    outcome_trace (for_each page (Main.sync_record w set_order fuel) t)
    = new ++ t /\
    published new = [] /\ mails new = O /\
    ((for_each page (Main.sync_record w set_order fuel) t
      = Returned tt (new ++ t) /\
      submissions new = mapped_payloads set_order page) \/
     for_each page (Main.sync_record w set_order fuel) t
     = Pending (new ++ t)).
Proof.
  induction page as [|product page IH]; intros t.
  - exists []. repeat split; auto.
  - cbn [for_each]. unfold io_bind.
    destruct (sync_record_effect w set_order fuel product t)
      as (n1 & _ & S1 & P1 & M1 & Hout).
    destruct Hout as [Hout|Hout]; rewrite Hout.
    + destruct (IH (n1 ++ t)) as (n2 & E2 & P2 & M2 & Hrest).
      exists (n2 ++ n1). rewrite app_assoc in E2.
      rewrite published_app, mails_app, P1, P2, M1, M2.
      repeat split; auto.
      destruct Hrest as [(Hr & S2)|Hr]; rewrite Hr, app_assoc; [left|right];
        auto.
      split; auto. rewrite submissions_app, S1, S2.
      unfold mapped_payloads. simpl flat_map. now rewrite app_nil_r.
    + exists n1. repeat split; auto.
Qed.

(** X14.  In [main.py], on a non-empty page and as long as every poll
    comes to an end, a record that fails is logged and skipped: the
    payloads submitted are those of all the records the mapper accepts, in
    page order, and exactly one message, carrying [offset + 1], is
    published, however many records the page holds.  The one exception is
    an [offset + 1] of more than 4300 digits (the offset itself having at
    most 4300, that is [offset = 10 ^ 4300 - 1]): the records are
    submitted all the same, then [str] raises [ValueError] and nothing is
    published. *)
Theorem X14_main_contains_record_failures
    w set_order fuel offset t r data page :
  (forall id, finishes (Main.check_operation_status w fuel id)) ->
  net w t (GetProducts 1 offset) = Responds r ->
  status_code r = 200 ->
  json_body r = Some data ->
  subscript data "results" = Ok (PList page) ->
  page <> [] ->
  Z.abs offset < 10 ^ max_str_digits ->
  (Z.abs (offset + 1) < 10 ^ max_str_digits ->
   exists new,
     Main.sync_products w set_order fuel offset t
     = Returned (PStr "Product Complete!") (new ++ t) /\
     published new = [offset_message (offset + 1)] /\
     submissions new = mapped_payloads set_order page /\
     mails new = O) /\
  (10 ^ max_str_digits <= Z.abs (offset + 1) ->
   exists new,
     Main.sync_products w set_order fuel offset t
     = Raised ValueError (new ++ t) /\
     published new = [] /\
     submissions new = mapped_payloads set_order page /\
     mails new = O).
Proof.
  intros Hsettle Hnet Hstatus Hbody Hres Hpage _. split; intros Hlen.
  - eapply main_page_failures_contained; eauto.
  - eapply main_page_offset_too_long; eauto.
Qed.

(** X15.  Every invocation of [sync_products] of [main.py], on an offset
    of at most 4300 digits, ends in one of six ways.  It returns "Product Complete!" having published, as its
    last act, the one message of this invocation, which carries
    [offset + 1]; or it returns "Sync Complete!" having sent one mail and
    published and submitted nothing; or it returns [None] having
    published, mailed and submitted nothing; or it raises before the first
    record is processed, having published, mailed and submitted nothing;
    or it raises [ValueError] at the very end, in [str(offset + 1)] for an
    [offset + 1] of more than 4300 digits, having published and mailed
    nothing; or it is still polling, having published and mailed
    nothing. *)
Theorem X15_outcomes_of_an_invocation w set_order fuel offset t :
  Z.abs offset < 10 ^ max_str_digits ->
  exists new,
    outcome_trace (Main.sync_products w set_order fuel offset t) = new ++ t /\
    match Main.sync_products w set_order fuel offset t with
    | Returned v _ =>
        (v = PStr "Product Complete!" /\
         Z.abs (offset + 1) < 10 ^ max_str_digits /\
         exists rest,
           new = Published (offset_message (offset + 1)) :: rest /\
           published rest = [] /\ mails rest = O) \/
        (v = PStr "Sync Complete!" /\
         mails new = 1%nat /\ published new = [] /\ submissions new = []) \/
        (v = PNone /\
         mails new = O /\ published new = [] /\ submissions new = [])
    | Raised e _ =>
        mails new = O /\ published new = [] /\
        (submissions new = [] \/
         (e = ValueError /\ 10 ^ max_str_digits <= Z.abs (offset + 1)))
    | Pending _ => mails new = O /\ published new = []
    end.
Proof.
  intros _.
  unfold Main.sync_products, io_bind, send, json, lift, publish_offset,
    send_completion_email, emit, ret.
  destruct (net w t (GetProducts 1 offset)) as [r|];
    [|exists [Requested (GetProducts 1 offset) Unreachable];
      split; [reflexivity|]; split; [reflexivity|]; split; [reflexivity|];
      left; reflexivity].
  destruct (negb (status_code r =? 200)).
  { eexists [_; _]. split; [reflexivity|]. right. right.
    split; [reflexivity|]. split; [reflexivity|]. split; reflexivity. }
  destruct (json_body r) as [data|];
    [|eexists [_]; split; [reflexivity|]; split; [reflexivity|];
      split; [reflexivity|]; left; reflexivity].
  destruct (subscript data "results") as [products|];
    [|eexists [_]; split; [reflexivity|]; split; [reflexivity|];
      split; [reflexivity|]; left; reflexivity].
  destruct (negb (truthy products)).
  { eexists [_; _; _]. split; [reflexivity|]. right. left.
    split; [reflexivity|]. split; [reflexivity|]. split; reflexivity. }
  destruct (py_iter products) as [page|];
    [|eexists [_]; split; [reflexivity|]; split; [reflexivity|];
      split; [reflexivity|]; left; reflexivity].
  destruct (page_effect_any w set_order fuel page
              (Requested (GetProducts 1 offset) (Responds r) :: t))
    as (n & E & P & M & [(Hr & S)|Hr]); rewrite Hr.
  - destruct (offset_bytes_cases (offset + 1)) as (Hok & Hbig).
    destruct (Z.lt_ge_cases (Z.abs (offset + 1)) (10 ^ max_str_digits))
      as [Hlen|Hlen].
    + rewrite (Hok Hlen).
      exists (Published (offset_message (offset + 1))
              :: n ++ [Requested (GetProducts 1 offset) (Responds r)]).
      cbn [app]. rewrite <- app_assoc. split; [reflexivity|].
      left. split; [reflexivity|]. split; [exact Hlen|].
      eexists. split; [reflexivity|].
      rewrite published_app, mails_app, P, M. split; reflexivity.
    + rewrite (Hbig Hlen).
      exists (n ++ [Requested (GetProducts 1 offset) (Responds r)]).
      rewrite <- app_assoc. split; [reflexivity|].
      rewrite published_app, mails_app, P, M.
      split; [reflexivity|]. split; [reflexivity|]. right. auto.
  - exists (n ++ [Requested (GetProducts 1 offset) (Responds r)]).
    rewrite <- app_assoc. split; [reflexivity|].
    rewrite published_app, mails_app, P, M. split; reflexivity.
Qed.

(** X16.  [main.py] takes any falsy [results] for the end of the catalog,
    not only the empty list: [null], [0], [false], [""] and [{}] make it
    send the completion mail once and return "Sync Complete!" without
    submitting or publishing anything. *)
Theorem X16_falsy_results_end_the_sync
    w set_order fuel offset t r data products :
  net w t (GetProducts 1 offset) = Responds r ->
  status_code r = 200 ->
  json_body r = Some data ->
  subscript data "results" = Ok products ->
  truthy products = false ->
  exists new,
    Main.sync_products w set_order fuel offset t
    = Returned (PStr "Sync Complete!") (new ++ t) /\
    mails new = 1%nat /\ published new = [] /\ submissions new = [].
Proof.
  intros Hnet Hstatus Hbody Hres Ht.
  eexists [_; _; _]. split.
  - unfold Main.sync_products, io_bind, json, lift, send_completion_email, ret.
    rewrite (send_responds _ _ _ _ Hnet), Hstatus, Z.eqb_refl.
    cbn [negb]. rewrite Hbody, Hres, Ht. reflexivity.
  - repeat split.
Qed.

(** X17.  The pagination chain advances by exactly one: the message that
    [sync_products offset] publishes after a non-empty page, delivered
    back as a Pub/Sub event, makes [process_product] run
    [sync_products (offset + 1)].  This holds for every offset, negative
    ones included, that has at most 4300 digits and whose successor has
    at most 4300 digits. *)
Theorem X17_published_offset_drives_next_page
    w set_order fuel offset t r data page :
  (forall id, finishes (Main.check_operation_status w fuel id)) ->
  net w t (GetProducts 1 offset) = Responds r ->
  status_code r = 200 ->
  json_body r = Some data ->
  subscript data "results" = Ok (PList page) ->
  page <> [] ->
  Z.abs offset < 10 ^ max_str_digits ->
  Z.abs (offset + 1) < 10 ^ max_str_digits ->
  exists new message,
    Main.sync_products w set_order fuel offset t
    = Returned (PStr "Product Complete!") (new ++ t) /\
    published new = [message] /\
    event_offset (pubsub_event message) = Ok (offset + 1) /\
    forall w' set_order' fuel' t',
      Main.process_product w' set_order' fuel' (pubsub_event message) t'
      = (_ <~ Main.sync_products w' set_order' fuel' (offset + 1) ;; ret tt) t'.
Proof.
  intros Hsettle Hnet Hstatus Hbody Hres Hpage _ Hlen.
  destruct (main_page_failures_contained w set_order fuel Hsettle offset t r
              data page Hnet Hstatus Hbody Hres Hpage Hlen)
    as (new & Hrun & Hpub & _).
  exists new, (offset_message (offset + 1)).
  split; [exact Hrun|]. split; [exact Hpub|].
  split; [now apply event_offset_published|].
  intros w' set_order' fuel' t'. unfold Main.process_product.
  unfold io_bind at 1. now rewrite (event_offset_published _ Hlen).
Qed.

(** ** [mian.py] from the fetch on *)

Lemma mian_sync_page_steps w set_order offset page :
  Mian.sync_page w set_order offset page
  = (_ <~ for_each page (mian_record w set_order) ;;
     _ <~ publish_offset (offset + 1) ;;
     ret (PStr "Product Complete!")).
Proof. reflexivity. Qed.

Lemma io_bind_assoc {A B C} (m : io A) (k : A -> io B) (k' : B -> io C) t :
  io_bind (io_bind m k) k' t = io_bind m (fun a => io_bind (k a) k') t.
Proof. unfold io_bind. now destruct (m t). Qed.

Lemma mian_record_effect w set_order product t :
  exists new,
    outcome_trace (mian_record w set_order product t) = new ++ t /\
    published new = [] /\ mails new = O /\
    match mian_record w set_order product t with
    | Returned _ _ => length (submissions new) = 1%nat
    | Raised _ _ => (length (submissions new) <= 1)%nat
    | Pending _ => False
    end /\
    (forall e, Mian.map_catalogiq_to_shopify set_order product = Raise e ->
               mian_record w set_order product t = Raised e t).
Proof.
  remember (mian_record w set_order product t) as o eqn:Ho.
  unfold mian_record, Mian.sync_products_to_shopify in Ho.
  rewrite io_bind_assoc in Ho.
  destruct (Mian.map_catalogiq_to_shopify set_order product) as [mapped|e].
  2:{ subst o. exists []. split; [reflexivity|]. split; [reflexivity|].
      split; [reflexivity|]. split; [cbn; lia|].
      intros ? [= <-]. reflexivity. }
  change (io_bind (lift (Ok mapped)) ?k t) with (k mapped t) in Ho.
  cbv beta in Ho. rewrite io_bind_assoc in Ho.
  change (io_bind (emit ?e) ?k t) with (k tt (e :: t)) in Ho.
  cbv beta in Ho. rewrite io_bind_assoc in Ho.
  unfold io_bind at 1 in Ho. unfold send in Ho.
  destruct (net w (Printed ProductToBeSynced :: t) (ProductSet true mapped))
    as [r|].
  2:{ subst o. eexists [_; _]. split; [reflexivity|]. split; [reflexivity|].
      split; [reflexivity|]. split; [cbn; lia | discriminate]. }
  match type of Ho with
  | context [io_bind ?m _ (Requested _ _ :: _)] => set (rest := m) in Ho
  end.
  assert (Hs : silent rest).
  { unfold rest. calm. apply silent_attach_images. }
  assert (Hf : finishes rest).
  { unfold rest. calm. apply finishes_attach_images. }
  destruct (Hs (Requested (ProductSet true mapped) (Responds r)
                :: Printed ProductToBeSynced :: t)) as (n & E & QS & QP & QM).
  specialize (Hf (Requested (ProductSet true mapped) (Responds r)
                  :: Printed ProductToBeSynced :: t)).
  unfold io_bind in Ho.
  destruct (rest _) as [a t1|e t1|t1]; simpl in E; subst t1; [| |destruct Hf].
  - destruct (truthy a); cbn [emit ret] in Ho; subst o.
    + exists (Printed ShopifyResponse
              :: n ++ [Requested (ProductSet true mapped) (Responds r);
                       Printed ProductToBeSynced]).
      cbn [app]. rewrite <- app_assoc. split; [reflexivity|].
      cbn [published mails submissions].
      rewrite published_app, mails_app, submissions_app, QS, QP, QM.
      split; [reflexivity|]. split; [reflexivity|].
      split; [cbn; lia | discriminate].
    + exists (n ++ [Requested (ProductSet true mapped) (Responds r);
                    Printed ProductToBeSynced]).
      rewrite <- app_assoc. split; [reflexivity|].
      rewrite published_app, mails_app, submissions_app, QS, QP, QM.
      split; [reflexivity|]. split; [reflexivity|].
      split; [cbn; lia | discriminate].
  - subst o.
    exists (n ++ [Requested (ProductSet true mapped) (Responds r);
                  Printed ProductToBeSynced]).
    rewrite <- app_assoc. split; [reflexivity|].
    rewrite published_app, mails_app, submissions_app, QS, QP, QM.
    split; [reflexivity|]. split; [reflexivity|].
    split; [cbn; lia | discriminate].
Qed.

Lemma mian_loop w set_order page : forall t,
  exists new,
    outcome_trace (for_each page (mian_record w set_order) t) = new ++ t /\
    published new = [] /\ mails new = O /\
    match for_each page (mian_record w set_order) t with
    | Returned _ _ => length (submissions new) = length page
    | Raised _ _ => (length (submissions new) <= length page)%nat
    | Pending _ => False
    end.
Proof.
  induction page as [|product page IH]; intros t.
  - exists []. repeat split; auto.
  - cbn [for_each]. unfold io_bind.
    destruct (mian_record_effect w set_order product t)
      as (n1 & E1 & P1 & M1 & Hc1 & _).
    destruct (mian_record w set_order product t) as [a t1|e t1|t1];
      simpl in E1; subst t1; [| |destruct Hc1].
    + destruct (IH (n1 ++ t)) as (n2 & E2 & P2 & M2 & Hc2).
      exists (n2 ++ n1). rewrite <- app_assoc. split; [exact E2|].
      rewrite published_app, mails_app, submissions_app, P1, P2, M1, M2.
      split; [reflexivity|]. split; [reflexivity|].
      rewrite length_app.
      destruct (for_each page (mian_record w set_order) (n1 ++ t));
        cbn [length]; auto; lia.
    + exists n1. repeat split; auto. cbn [length]. lia.
Qed.

Lemma mian_loop_stops w set_order product post e :
  Mian.map_catalogiq_to_shopify set_order product = Raise e ->
  forall pre t,
    exists e' new,
      for_each (pre ++ product :: post) (mian_record w set_order) t
      = Raised e' (new ++ t) /\
      published new = [] /\ (length (submissions new) <= length pre)%nat.
Proof.
  intros Hbad. induction pre as [|q pre IH]; intros t.
  - cbn [app for_each]. unfold io_bind.
    destruct (mian_record_effect w set_order product t) as (_ & _ & _ & _ & _ & H).
    rewrite (H e Hbad). exists e, []. repeat split; auto.
  - cbn [app for_each]. unfold io_bind.
    destruct (mian_record_effect w set_order q t)
      as (n1 & E1 & P1 & M1 & Hc1 & _).
    destruct (mian_record w set_order q t) as [a t1|e1 t1|t1];
      simpl in E1; subst t1; [| |destruct Hc1].
    + destruct (IH (n1 ++ t)) as (e' & n2 & E2 & P2 & L2).
      exists e', (n2 ++ n1). rewrite E2, app_assoc. split; [reflexivity|].
      rewrite published_app, submissions_app, P1, P2, length_app.
      split; [reflexivity|]. cbn [length]. lia.
    + exists e1, n1. repeat split; auto. cbn [length]. lia.
Qed.

(** X18.  From the fetch on, [mian.py] handles a page all or nothing: it
    publishes [offset + 1] only after every record of the page was
    submitted, and an error in one record ends the invocation with
    nothing published.  In particular the records that follow a record
    the mapper rejects are never submitted. *)
Theorem X18_mian_page_is_all_or_nothing w set_order offset :
  (forall page t,
     exists new,
       outcome_trace (Mian.sync_page w set_order offset page t) = new ++ t /\
       match Mian.sync_page w set_order offset page t with
       | Returned v _ =>
           v = PStr "Product Complete!" /\
           published new = [offset_message (offset + 1)] /\
           length (submissions new) = length page
       | Raised _ _ =>
           published new = [] /\
           (length (submissions new) <= length page)%nat
       | Pending _ => False
       end) /\
  (forall pre product post e t,
     Mian.map_catalogiq_to_shopify set_order product = Raise e ->
     exists e' new,
       Mian.sync_page w set_order offset (pre ++ product :: post) t
       = Raised e' (new ++ t) /\
       published new = [] /\
       (length (submissions new) <= length pre)%nat).
Proof.
  split.
  - intros page t.
    remember (Mian.sync_page w set_order offset page t) as o eqn:Ho.
    rewrite mian_sync_page_steps in Ho. unfold io_bind at 1 in Ho.
    destruct (mian_loop w set_order page t) as (n & E & P & M & Hc).
    destruct (for_each page (mian_record w set_order) t) as [a t1|e t1|t1];
      simpl in E; subst t1; [| |destruct Hc]; subst o.
    + unfold io_bind, ret.
      destruct (publish_offset_cases (offset + 1) (n ++ t)) as (Hok & Hbig).
      destruct (Z.lt_ge_cases (Z.abs (offset + 1)) (10 ^ max_str_digits))
        as [Hlen|Hlen].
      * rewrite (Hok Hlen).
        exists (Published (offset_message (offset + 1)) :: n).
        split; [reflexivity|].
        cbn [published submissions]. rewrite P. auto.
      * rewrite (Hbig Hlen). exists n. split; [reflexivity|].
        split; [exact P | lia].
    + exists n. auto.
  - intros pre product post e t Hbad. rewrite mian_sync_page_steps.
    unfold io_bind at 1.
    destruct (mian_loop_stops w set_order product post e Hbad pre t)
      as (e' & n & -> & P & L).
    exists e', n. auto.
Qed.

(** X19.  In [mian.py] the product id is read from the submission
    response inside the [try]: when the response carries none (the
    creation failed) the error is logged, no media is attached and the
    function still returns the response body; when it carries one, the
    media block runs for that id, falsy or not. *)
Theorem X19_mian_media_needs_product_id
    w set_order ciq_product t mapped r body :
  Mian.map_catalogiq_to_shopify set_order ciq_product = Ok mapped ->
  net w (Printed ProductToBeSynced :: t) (ProductSet true mapped)
  = Responds r ->
  json_body r = Some body ->
  (forall e,
     path body ["data"; "productSet"; "product"; "id"] = Raise e ->
     Mian.sync_products_to_shopify w set_order ciq_product t
     = Returned body
         (Printed (ImageException e)
          :: Requested (ProductSet true mapped) (Responds r)
          :: Printed ProductToBeSynced :: t)) /\
  (forall product_id,
     path body ["data"; "productSet"; "product"; "id"] = Ok product_id ->
     exists new,
       Mian.sync_products_to_shopify w set_order ciq_product t
       = Returned body
           (new ++ Requested (ProductSet true mapped) (Responds r)
                :: Printed ProductToBeSynced :: t) /\
       Forall (media_event product_id) new /\
       (try_except (attach_images w ciq_product product_id)
          (fun e => emit (Printed (ImageException e)))
          (Requested (ProductSet true mapped) (Responds r)
           :: Printed ProductToBeSynced :: t)
        = Returned tt
            (new ++ Requested (ProductSet true mapped) (Responds r)
                 :: Printed ProductToBeSynced :: t))).
Proof.
  intros Hmap Hnet Hbody.
  assert (Hrun :
    Mian.sync_products_to_shopify w set_order ciq_product t
    = (_ <~ try_except
              (product_id <~ lift (path body
                                     ["data"; "productSet"; "product"; "id"]) ;;
               attach_images w ciq_product product_id)
              (fun e => emit (Printed (ImageException e))) ;;
       json r)
        (Requested (ProductSet true mapped) (Responds r)
         :: Printed ProductToBeSynced :: t)).
  { unfold Mian.sync_products_to_shopify.
    unfold io_bind at 1. unfold lift at 1. rewrite Hmap.
    unfold io_bind at 1. cbn [emit].
    unfold io_bind at 1. rewrite (send_responds _ _ _ _ Hnet).
    unfold io_bind at 1. unfold json at 1, lift at 1. rewrite Hbody.
    reflexivity. }
  split.
  - intros e He. rewrite Hrun.
    unfold io_bind, try_except, lift, json, emit. now rewrite He, Hbody.
  - intros pid Hpid. rewrite Hrun.
    pose (t1 := Requested (ProductSet true mapped) (Responds r)
                :: Printed ProductToBeSynced :: t).
    fold t1.
    destruct (confined_try (media_event pid)
                (attach_images w ciq_product pid)
                (fun e => emit (Printed (ImageException e)))
                (confined_attach_images w ciq_product pid)
                (fun e => confined_emit _ _ I) t1) as (new & E & F).
    pose proof (finishes_try _ (fun e => emit (Printed (ImageException e)))
                  (finishes_attach_images w ciq_product pid)
                  (fun e => finishes_emit _) t1) as Hfin.
    assert (Htry :
      try_except
        (product_id <~ lift (path body ["data"; "productSet"; "product"; "id"]) ;;
         attach_images w ciq_product product_id)
        (fun e => emit (Printed (ImageException e))) t1
      = try_except (attach_images w ciq_product pid)
          (fun e => emit (Printed (ImageException e))) t1).
    { unfold try_except, io_bind, lift. now rewrite Hpid. }
    unfold io_bind at 1. rewrite Htry.
    destruct (try_except (attach_images w ciq_product pid) _ t1)
      as [a t3|e t3|t3] eqn:Hout; simpl in E; subst t3.
    + exists new. destruct a. unfold json, lift. rewrite Hbody. auto.
    + exfalso. unfold try_except in Hout.
      destruct (attach_images w ciq_product pid t1); discriminate.
    + destruct Hfin.
Qed.

(** * [clean_and_convert_to_float] *)

Lemma digit_not_dot c : is_digit c = true -> is_dot c = false.
Proof.
  intros H. unfold is_dot. apply Ascii.eqb_neq. intros ->. discriminate H.
Qed.

Lemma kept_cases c :
  kept c = true ->
  (is_digit c = true /\ is_dot c = false) \/
  (is_digit c = false /\ is_dot c = true).
Proof.
  unfold kept. destruct (is_digit c) eqn:Hd.
  - intros _. left. split; auto. now apply digit_not_dot.
  - intros H. now right.
Qed.

Lemma cleaned_kept s : all_chars kept (cleaned s) = true.
Proof.
  induction s as [|c s IH]; cbn [cleaned all_chars]; auto.
  destruct (kept c) eqn:Hc; cbn [all_chars]; auto. now rewrite Hc.
Qed.

Lemma cleaned_counts s :
  dots (cleaned s) = dots s /\ digits (cleaned s) = digits s.
Proof.
  unfold dots, digits.
  induction s as [|c s (IH1 & IH2)]; cbn [cleaned count_chars]; auto.
  unfold kept. destruct (is_digit c) eqn:Hd, (is_dot c) eqn:He;
    cbn [orb count_chars]; rewrite ?Hd, ?He, IH1, IH2; auto.
Qed.

Lemma cleaned_empty s :
  cleaned s = EmptyString <-> (dots s = O /\ digits s = O).
Proof.
  destruct (cleaned_counts s) as (<- & <-).
  pose proof (cleaned_kept s) as Hk.
  destruct (cleaned s) as [|c r]; [split; auto|].
  split; [discriminate|]. unfold dots, digits. cbn [count_chars].
  cbn [all_chars] in Hk. apply andb_true_iff in Hk. destruct Hk as (Hc & _).
  destruct (kept_cases c Hc) as [(-> & ->)|(-> & ->)]; lia.
Qed.

Lemma span_digits_kept s :
  all_chars kept s = true ->
  dots s = dots (snd (span_digits s)) /\
  digits s = (String.length (fst (span_digits s))
              + digits (snd (span_digits s)))%nat /\
  (snd (span_digits s) = EmptyString \/
   exists c rest, snd (span_digits s) = String c rest /\
                  is_dot c = true /\ is_digit c = false /\
                  all_chars kept rest = true).
Proof.
  unfold dots, digits.
  induction s as [|c s IH]; cbn [all_chars span_digits count_chars]; intros H.
  - cbn. auto.
  - apply andb_true_iff in H. destruct H as (Hc & Hs).
    destruct (kept_cases c Hc) as [(Hd & He)|(Hd & He)]; rewrite Hd, He.
    + destruct (IH Hs) as (I2 & I3 & I4).
      cbn [fst snd String.length]. repeat split; auto; lia.
    + cbn [fst snd String.length count_chars]. rewrite Hd, He.
      repeat split; auto. right. exists c, s. auto.
Qed.

Lemma string_eqb_empty s :
  String.eqb s EmptyString = (String.length s =? 0)%nat.
Proof. now destruct s. Qed.

Lemma float_text_ok_counts s :
  all_chars kept s = true ->
  float_text_ok s = ((dots s <=? 1) && (1 <=? digits s))%nat.
Proof.
  intros Hk. unfold float_text_ok. cbv zeta.
  destruct (span_digits_kept s Hk) as (D1 & G1 & [Hb|(c & rest & Hb & Hc & Hn & Hr)]).
  - rewrite Hb in *. rewrite D1, G1, string_eqb_empty.
    unfold dots, digits. cbn [count_chars].
    destruct (String.length (fst (span_digits s))); reflexivity.
  - rewrite Hb in *. rewrite D1, G1, Hc.
    unfold dots, digits in *. cbn [count_chars]. rewrite Hc, Hn.
    destruct (span_digits_kept rest Hr)
      as (D2 & G2 & [Hb2|(c2 & r2 & Hb2 & Hc2 & _)]).
    + unfold dots, digits in *. rewrite D2, G2, Hb2. cbn [count_chars].
      rewrite !string_eqb_empty.
      destruct (String.length (fst (span_digits s))),
               (String.length (fst (span_digits rest))); reflexivity.
    + unfold dots, digits in *. rewrite D2, Hb2. cbn [count_chars String.eqb].
      rewrite Hc2. rewrite andb_false_r. reflexivity.
Qed.

(** X20.  On a string, [clean_and_convert_to_float] looks at the digits
    and dots only.  With no digit and no dot the result is [0.0]; with at
    least one digit and at most one dot it is [float] of the digits and
    dots in their order; in every other case (two dots or more, or a dot
    and no digit) [float] raises [ValueError]. *)
Theorem X20_float_of_string s :
  (dots s = O /\ digits s = O ->
   clean_and_convert_to_float (PStr s) = FloatValue FloatZero) /\
  ((dots s <= 1)%nat /\ (1 <= digits s)%nat ->
   clean_and_convert_to_float (PStr s) = FloatValue (FloatOfText (cleaned s))) /\
  ((2 <= dots s)%nat \/ (dots s = 1%nat /\ digits s = O) ->
   clean_and_convert_to_float (PStr s) = FloatValueError).
Proof.
  pose proof (float_text_ok_counts _ (cleaned_kept s)) as Hok.
  destruct (cleaned_counts s) as (Hd & Hg). rewrite Hd, Hg in Hok.
  pose proof (cleaned_empty s) as He.
  unfold clean_and_convert_to_float. cbv zeta.
  repeat split.
  - intros H. apply He in H. rewrite H. reflexivity.
  - intros (H1 & H2).
    destruct (String.eqb (cleaned s) EmptyString) eqn:E.
    + apply String.eqb_eq in E. apply He in E. lia.
    + rewrite Hok.
      replace (dots s <=? 1)%nat with true by (symmetry; apply Nat.leb_le; lia).
      replace (1 <=? digits s)%nat with true by (symmetry; apply Nat.leb_le; lia).
      reflexivity.
  - intros H.
    destruct (String.eqb (cleaned s) EmptyString) eqn:E.
    + apply String.eqb_eq in E. apply He in E. lia.
    + rewrite Hok. destruct H as [H|(H1 & H2)].
      * replace (dots s <=? 1)%nat with false
          by (symmetry; apply Nat.leb_gt; lia). reflexivity.
      * rewrite H2. simpl. now rewrite andb_false_r.
Qed.

Lemma cleaned_app a b :
  cleaned (a ++ b) = (cleaned a ++ cleaned b)%string.
Proof.
  induction a as [|c a IH]; simpl; auto.
  destruct (kept c); simpl; now rewrite IH.
Qed.

(** X21.  Everything but digits and dots is dropped before the
    conversion: removing such a character anywhere in the string does not
    change the result.  So a minus sign is lost, and the text of a
    negative number is converted like that of the positive one. *)
Theorem X21_float_ignores_other_characters a c b :
  kept c = false ->
  clean_and_convert_to_float (PStr (a ++ String c b))
  = clean_and_convert_to_float (PStr (a ++ b)).
Proof.
  intros Hc. unfold clean_and_convert_to_float.
  rewrite !cleaned_app. cbn [cleaned]. now rewrite Hc.
Qed.

(** * The properties above on the sample products and worlds *)

Lemma reverse_order_perm s : Permutation (reverse_order s) s.
Proof. apply Permutation_sym, Permutation_rev. Qed.

Lemma shop_world_media_answered page pid :
  media_answered (shop_world page) pid.
Proof. intros t alt src. do 2 eexists. split; reflexivity. Qed.

Lemma X1_metafields_project_attributes_witness :
  exists out,
    Main.map_catalogiq_to_shopify insertion_order lamp_complete = Ok out /\
    length (metafields out) = 1%nat /\
    Forall2
      (fun a m =>
         subscript a "category" = Ok (namespace m) /\
         subscript a "description" = Ok (description m) /\
         subscript a "name" = Ok (key m) /\
         subscript a "value" = Ok (mf_value m) /\
         mf_type m = "string")
      [PDict [("category", PStr "Light"); ("description", PStr "Watt");
              ("name", PStr "power"); ("value", PStr "40")]]
      (metafields out).
Proof.
  eexists. split; [reflexivity|].
  apply (X1_metafields_project_attributes insertion_order lamp_complete _
           (PList [PDict [("category", PStr "Light");
                          ("description", PStr "Watt");
                          ("name", PStr "power"); ("value", PStr "40")]])).
  - left. reflexivity.
  - reflexivity.
Defined.

Lemma X2_variants_in_order_witness :
  exists out,
    Main.map_catalogiq_to_shopify insertion_order lamp_two_axes = Ok out /\
    length (variants out) = 2%nat /\
    map sku (variants out) = [PStr "L-S-R"; PStr "L-M-B"].
Proof.
  eexists. split; [reflexivity|].
  destruct (X2_variants_in_order insertion_order lamp_two_axes
              [sample_variant "L-S-R"
                 [sample_attribute "Size" (PStr "S");
                  sample_attribute "Color" (PStr "Red");
                  sample_attribute "Size" (PStr "M")];
               sample_variant "L-M-B"
                 [sample_attribute "Color" (PStr "Blue");
                  sample_attribute "Size" (PStr "M")]] _
              eq_refl eq_refl) as (Hlen & _).
  split; [exact Hlen | reflexivity].
Defined.

Lemma X3_option_value_is_first_match_witness :
  exists out vs,
    Main.map_catalogiq_to_shopify insertion_order lamp_two_axes = Ok out /\
    product_variants lamp_two_axes = Ok vs /\
    Forall2
      (fun v sv =>
         NoDupA atom_eq (map optionName (optionValues sv)) /\
         forall ov, In ov (optionValues sv) ->
           truthy (ov_name ov) = true /\
           variant_first_assigns v (optionName ov) (ov_name ov))
      vs (variants out).
Proof.
  do 2 eexists. split; [reflexivity|]. split; [reflexivity|].
  apply (X3_option_value_is_first_match insertion_order insertion_order_perm
           lamp_two_axes); reflexivity.
Defined.

Lemma X4_used_option_values_are_declared_witness :
  exists out,
    Mian.map_catalogiq_to_shopify insertion_order lamp_hundred = Ok out /\
    forall sv ov, In sv (variants out) -> In ov (optionValues sv) ->
      exists po x h,
        In po (productOptions out) /\ po_name po = optionName ov /\
        In x (po_values po) /\
        as_hashable (ov_name ov) = Ok h /\ atom_eq x h.
Proof.
  eexists. split; [vm_compute; reflexivity|].
  apply (X4_used_option_values_are_declared insertion_order
           insertion_order_perm lamp_hundred).
  right. split; [vm_compute; reflexivity|].
  exists hundred_variants. reflexivity.
Defined.

Lemma X5_no_variants_no_options_witness :
  exists out,
    Main.map_catalogiq_to_shopify insertion_order lamp_null_description
    = Ok out /\
    productOptions out = [] /\ variants out = [].
Proof.
  eexists. split; [reflexivity|].
  apply (X5_no_variants_no_options insertion_order insertion_order_perm
           lamp_null_description); reflexivity.
Defined.

Lemma X6_description_passes_or_defaults_witness :
  (exists out,
     Main.map_catalogiq_to_shopify insertion_order lamp_null_description
     = Ok out /\
     descriptionHtml out = PStr EmptyString) /\
  (exists out,
     Main.map_catalogiq_to_shopify insertion_order lamp_complete = Ok out /\
     descriptionHtml out = PStr "A lamp").
Proof.
  split; eexists; (split; [reflexivity|]).
  - apply (X6_description_passes_or_defaults insertion_order
             lamp_null_description _ PNone); reflexivity.
  - apply (X6_description_passes_or_defaults insertion_order
             lamp_complete _ (PStr "A lamp")); reflexivity.
Defined.

Lemma X7_mian_emits_first_99_witness :
  exists out,
    Mian.map_catalogiq_to_shopify insertion_order lamp_hundred = Ok out /\
    (length (variants out) <= 99)%nat /\
    length (variants out) = Nat.min 99 (length hundred_variants) /\
    Forall2 (fun v sv => subscript v "default_code" = Ok (sku sv))
            (firstn 99 hundred_variants) (variants out).
Proof.
  eexists. split; [vm_compute; reflexivity|].
  destruct (X7_mian_emits_first_99 insertion_order lamp_hundred _
              ltac:(vm_compute; reflexivity)) as (Hle & Hlist).
  split; [exact Hle|]. apply Hlist. reflexivity.
Defined.

Lemma X8_set_order_only_permutes_witness :
  exists out out',
    Main.map_catalogiq_to_shopify insertion_order lamp_two_axes = Ok out /\
    Main.map_catalogiq_to_shopify reverse_order lamp_two_axes = Ok out' /\
    map po_name (productOptions out) = [AStr "Size"; AStr "Color"] /\
    map po_name (productOptions out') = [AStr "Color"; AStr "Size"] /\
    title out' = title out /\
    descriptionHtml out' = descriptionHtml out /\
    metafields out' = metafields out /\
    Forall2 (fun sv sv' => sku sv' = sku sv /\
                           Permutation (optionValues sv) (optionValues sv'))
            (variants out) (variants out') /\
    Permutation (map po_name (productOptions out))
                (map po_name (productOptions out')) /\
    (forall po po', In po (productOptions out) ->
                    In po' (productOptions out') ->
                    po_name po = po_name po' ->
                    Permutation (po_values po) (po_values po')).
Proof.
  destruct (X8_set_order_only_permutes insertion_order reverse_order
              insertion_order_perm reverse_order_perm lamp_two_axes _
              eq_refl) as (out' & Hmap & Hrest).
  do 2 eexists. split; [reflexivity|]. split; [exact Hmap|].
  split; [reflexivity|]. split; [|exact Hrest].
  assert (E : Main.map_catalogiq_to_shopify reverse_order lamp_two_axes
              = Ok out') by exact Hmap.
  vm_compute in E. injection E as <-. reflexivity.
Defined.

Lemma X10_poll_does_not_retry_witness :
  Main.check_operation_status failing_catalog 5 sample_operation_id []
  = Raised JSONDecodeError
      [Requested (ProductOperation sample_operation_id)
         (Responds {| status_code := 500; json_body := None |})] /\
  exists e,
    Main.check_operation_status shop_without_user_errors 5
      sample_operation_id []
    = Raised e
        [Requested (ProductOperation sample_operation_id)
           (net shop_without_user_errors []
              (ProductOperation sample_operation_id))] /\
    e = KeyError.
Proof.
  split.
  - destruct (X10_poll_does_not_retry failing_catalog 4 sample_operation_id [])
      as (_ & Hbody & _).
    apply Hbody; reflexivity.
  - destruct (X10_poll_does_not_retry shop_without_user_errors 4
                sample_operation_id []) as (_ & _ & _ & Herrors).
    destruct (Herrors _ _ KeyError eq_refl eq_refl eq_refl eq_refl)
      as (e & Hrun & He).
    exists e. split; [exact Hrun|].
    apply (He (PDict [("id", sample_product_id)]) eq_refl).
    right. eexists. reflexivity.
Defined.

Lemma X11_submission_comes_first_witness :
  Main.sync_products_to_shopify (shop_world two_records) insertion_order 5
    lamp_without_name []
  = Raised KeyError [] /\
  exists mapped rest rp,
    outcome_trace
      (Main.sync_products_to_shopify (shop_world two_records) insertion_order
         5 lamp_complete [])
    = rest ++ [Requested (ProductSet false mapped) rp] /\
    quiet rest.
Proof.
  split.
  - destruct (X11_submission_comes_first (shop_world two_records)
                insertion_order 5 lamp_without_name []) as (Hraise & _).
    apply Hraise. reflexivity.
  - destruct (X11_submission_comes_first (shop_world two_records)
                insertion_order 5 lamp_complete []) as (_ & Hfirst).
    eexists. apply Hfirst. reflexivity.
Defined.

Lemma X12_media_never_fails_the_record_witness :
  exists t2 new,
    Main.sync_products_to_shopify (shop_world two_records) insertion_order 5
      lamp_complete []
    = Returned product_set_response (new ++ t2) /\
    Forall (media_event sample_product_id) new /\
    (truthy sample_product_id = false -> new = []).
Proof.
  eexists.
  eapply (X12_media_never_fails_the_record (shop_world two_records)
            insertion_order 5 lamp_complete [] _
            {| status_code := 200; json_body := Some product_set_response |}
            product_set_response sample_operation_id
            (PStr "COMPLETE") sample_product_id (PList [])).
  - reflexivity.
  - reflexivity.
  - reflexivity.
  - reflexivity.
  - vm_compute. reflexivity.
Defined.

Lemma X13_images_attached_in_order_witness :
  (exists new,
     attach_images (shop_world two_records) lamp_complete sample_product_id []
     = Returned tt (new ++ []) /\
     media_requests new
     = [("Main Image", PStr "https://img/lamp.png", sample_product_id);
        ("Image", PStr "https://img/lamp-2.png", sample_product_id)]) /\
  attach_images (shop_world two_records) lamp_without_name sample_product_id []
  = Raised KeyError [].
Proof.
  split.
  - destruct (X13_images_attached_in_order (shop_world two_records)
                lamp_complete sample_product_id []
                (shop_world_media_answered two_records sample_product_id))
      as (_ & Hmain).
    destruct (Hmain (PStr "https://img/lamp.png") eq_refl) as (Hall & _).
    apply (Hall [PDict [("url", PStr "https://img/lamp-2.png")]]
                [PStr "https://img/lamp-2.png"]); reflexivity.
  - destruct (X13_images_attached_in_order (shop_world two_records)
                lamp_without_name sample_product_id []
                (shop_world_media_answered two_records sample_product_id))
      as (Hnone & _).
    apply Hnone. reflexivity.
Defined.

Lemma X14_main_contains_record_failures_witness :
  (exists new,
     Main.sync_products (shop_world two_records) insertion_order 5 7 []
     = Returned (PStr "Product Complete!") (new ++ []) /\
     published new = [offset_message 8] /\
     submissions new
     = mapped_payloads insertion_order [lamp_without_name; lamp_complete] /\
     mails new = O) /\
  (exists new,
     Main.sync_products (shop_world two_records) insertion_order 5
       (10 ^ 4300 - 1) []
     = Raised ValueError (new ++ []) /\
     published new = [] /\
     submissions new
     = mapped_payloads insertion_order [lamp_without_name; lamp_complete] /\
     mails new = O).
Proof.
  split.
  - destruct (X14_main_contains_record_failures (shop_world two_records)
                insertion_order 5 7 []
                {| status_code := 200;
                   json_body := Some (PDict [("results", two_records)]) |}
                (PDict [("results", two_records)])
                [lamp_without_name; lamp_complete]) as (Hok & _).
    + intros id. apply shop_world_polls_settle.
    + reflexivity.
    + reflexivity.
    + reflexivity.
    + reflexivity.
    + discriminate.
    + now vm_compute.
    + apply Hok. now vm_compute.
  - destruct (X14_main_contains_record_failures (shop_world two_records)
                insertion_order 5 (10 ^ 4300 - 1) []
                {| status_code := 200;
                   json_body := Some (PDict [("results", two_records)]) |}
                (PDict [("results", two_records)])
                [lamp_without_name; lamp_complete]) as (_ & Hbig).
    + intros id. apply shop_world_polls_settle.
    + reflexivity.
    + reflexivity.
    + reflexivity.
    + reflexivity.
    + discriminate.
    + now vm_compute.
    + apply Hbig. vm_compute. discriminate.
Defined.

Lemma X16_falsy_results_end_the_sync_witness :
  exists new,
    Main.sync_products (shop_world PNone) insertion_order 5 7 []
    = Returned (PStr "Sync Complete!") (new ++ []) /\
    mails new = 1%nat /\ published new = [] /\ submissions new = [].
Proof.
  apply (X16_falsy_results_end_the_sync (shop_world PNone) insertion_order
           5 7 []
           {| status_code := 200;
              json_body := Some (PDict [("results", PNone)]) |}
           (PDict [("results", PNone)]) PNone); reflexivity.
Defined.

Lemma X17_published_offset_drives_next_page_witness :
  exists new message,
    Main.sync_products (shop_world two_records) insertion_order 5 7 []
    = Returned (PStr "Product Complete!") (new ++ []) /\
    published new = [message] /\
    event_offset (pubsub_event message) = Ok (7 + 1) /\
    forall w' set_order' fuel' t',
      Main.process_product w' set_order' fuel' (pubsub_event message) t'
      = (_ <~ Main.sync_products w' set_order' fuel' (7 + 1) ;; ret tt) t'.
Proof.
  apply (X17_published_offset_drives_next_page (shop_world two_records)
           insertion_order 5 7 []
           {| status_code := 200;
              json_body := Some (PDict [("results", two_records)]) |}
           (PDict [("results", two_records)])
           [lamp_without_name; lamp_complete]).
  - intros id. apply shop_world_polls_settle.
  - reflexivity.
  - reflexivity.
  - reflexivity.
  - reflexivity.
  - discriminate.
  - now vm_compute.
  - now vm_compute.
Defined.

Lemma X15_outcomes_of_an_invocation_witness :
  exists new,
    outcome_trace
      (Main.sync_products (shop_world two_records) insertion_order 5 7 [])
    = new ++ [] /\
    match Main.sync_products (shop_world two_records) insertion_order 5 7 []
    with
    | Returned v _ =>
        (v = PStr "Product Complete!" /\
         Z.abs (7 + 1) < 10 ^ max_str_digits /\
         exists rest,
           new = Published (offset_message (7 + 1)) :: rest /\
           published rest = [] /\ mails rest = O) \/
        (v = PStr "Sync Complete!" /\
         mails new = 1%nat /\ published new = [] /\ submissions new = []) \/
        (v = PNone /\
         mails new = O /\ published new = [] /\ submissions new = [])
    | Raised e _ =>
        mails new = O /\ published new = [] /\
        (submissions new = [] \/
         (e = ValueError /\ 10 ^ max_str_digits <= Z.abs (7 + 1)))
    | Pending _ => mails new = O /\ published new = []
    end.
Proof.
  apply (X15_outcomes_of_an_invocation (shop_world two_records)
           insertion_order 5 7 []).
  now vm_compute.
Defined.

Lemma X18_mian_page_is_all_or_nothing_witness :
  exists e' new,
    Mian.sync_page (shop_world two_records) insertion_order 7
      [lamp_without_name; lamp_complete] []
    = Raised e' (new ++ []) /\
    published new = [] /\
    (length (submissions new) <= 0)%nat.
Proof.
  destruct (X18_mian_page_is_all_or_nothing (shop_world two_records)
              insertion_order 7) as (_ & Hstop).
  apply (Hstop [] lamp_without_name [lamp_complete] KeyError []).
  reflexivity.
Defined.

Lemma X19_mian_media_needs_product_id_witness :
  exists new,
    Mian.sync_products_to_shopify (shop_world two_records) insertion_order
      lamp_complete []
    = Returned product_set_response
        (new ++ [Requested (ProductSet true
                              {| title := PStr "Lamp";
                                 vendor := "Vendor Name";
                                 descriptionHtml := PStr "A lamp";
                                 productOptions :=
                                   [{| po_name := AStr "Size";
                                       po_values := [AStr "S"] |}];
                                 variants :=
                                   [{| sku := PStr "L-S";
                                       optionValues :=
                                         [{| optionName := AStr "Size";
                                             ov_name := PStr "S" |}] |}];
                                 metafields :=
                                   [{| namespace := PStr "Light";
                                       description := PStr "Watt";
                                       key := PStr "power";
                                       mf_value := PStr "40";
                                       mf_type := "string" |}] |})
                   (Responds {| status_code := 200;
                                json_body := Some product_set_response |});
                 Printed ProductToBeSynced]) /\
    Forall (media_event sample_product_id) new.
Proof.
  destruct (X19_mian_media_needs_product_id (shop_world two_records)
              insertion_order lamp_complete [] _
              {| status_code := 200;
                 json_body := Some product_set_response |}
              product_set_response eq_refl eq_refl eq_refl)
    as (_ & Hid).
  destruct (Hid sample_product_id eq_refl) as (new & Hrun & Hnew & _).
  exists new. split; [exact Hrun | exact Hnew].
Defined.

Lemma X20_float_of_string_witness :
  clean_and_convert_to_float (PStr "$1,234.50") =
  FloatValue (FloatOfText "1234.50") /\
  clean_and_convert_to_float (PStr "n/a") = FloatValue FloatZero /\
  clean_and_convert_to_float (PStr "1.2.3") = FloatValueError /\
  clean_and_convert_to_float (PStr "approx.") = FloatValueError.
Proof.
  split; [|split; [|split]].
  - destruct (X20_float_of_string "$1,234.50") as (_ & H & _).
    apply H. cbv. lia.
  - destruct (X20_float_of_string "n/a") as (H & _).
    apply H. cbv. auto.
  - destruct (X20_float_of_string "1.2.3") as (_ & _ & H).
    apply H. left. cbv. lia.
  - destruct (X20_float_of_string "approx.") as (_ & _ & H).
    apply H. right. cbv. auto.
Defined.

Lemma X21_float_ignores_other_characters_witness :
  clean_and_convert_to_float (PStr "1,234")
  = clean_and_convert_to_float (PStr "1234") /\
  clean_and_convert_to_float (PStr "-5") = clean_and_convert_to_float (PStr "5").
Proof.
  split.
  - apply (X21_float_ignores_other_characters "1" "," "234"). reflexivity.
  - apply (X21_float_ignores_other_characters EmptyString "-" "5").
    reflexivity.
Defined.
